(** * Multi-plane RANSAC (ransac.cpp): a shallow embedding and its properties

    The development follows the layout of [ransac.cpp]:

    - IEEE-754 arithmetic ([float] is binary32, [double] is binary64), taken
      from the executable specification [SpecFloat] of the Standard Library;
    - [check_same_normal], [total_least_squares_plane_estimate],
      [get_inliers], [get_plane] and [get_planes], each translated from the
      C++ function of the same name;
    - the external collaborators ([cv::eigen], [cv::RNG], [cv::randShuffle],
      [log], [pow], the voxel grid's bucket order) are section variables:
      every theorem holds for all of them, and the concrete runs instantiate
      them with explicit functions.

    C++ [int] values are modelled by [Z] without wrap-around: the arithmetic
    on them ([pts_size * 2], [3 * p], counters bounded by the cloud size or
    by [max_iterations]) stays in range for clouds of fewer than [2^30]
    points, and beyond that signed overflow is undefined behaviour. *)

From Stdlib Require Import ZArith List Bool Lia SpecFloat Sorted Permutation.
Import ListNotations.
Open Scope Z_scope.

(** ** IEEE-754 binary32 and binary64 *)

Module F32.
Definition prec : Z := 24.
Definition emax : Z := 128.
Definition add := SFadd prec emax.
Definition sub := SFsub prec emax.
Definition mul := SFmul prec emax.
Definition div := SFdiv prec emax.
Definition sqrt := SFsqrt prec emax.
Definition of_Z (n : Z) : spec_float := binary_normalize prec emax n 0 false.
Definition zero : spec_float := S754_zero false.
End F32.

Module F64.
Definition prec : Z := 53.
Definition emax : Z := 1024.
Definition add := SFadd prec emax.
Definition sub := SFsub prec emax.
Definition mul := SFmul prec emax.
Definition div := SFdiv prec emax.
Definition of_Z (n : Z) : spec_float := binary_normalize prec emax n 0 false.
  (** [float] to [double] conversion: exact, the mantissa is re-aligned. *)
Definition of_float (x : spec_float) : spec_float :=
    match x with
    | S754_finite s m e => binary_round prec emax s m e
    | _ => x
    end.
End F64.

Definition float := spec_float.
Definition double := spec_float.

Declare Scope f32_scope.
Delimit Scope f32_scope with f32.
Infix "+" := F32.add : f32_scope.
Infix "-" := F32.sub : f32_scope.
Infix "*" := F32.mul : f32_scope.
Infix "/" := F32.div : f32_scope.

Declare Scope f64_scope.
Delimit Scope f64_scope with f64.
Infix "+" := F64.add : f64_scope.
Infix "-" := F64.sub : f64_scope.
Infix "*" := F64.mul : f64_scope.
Infix "/" := F64.div : f64_scope.

(** [std::isinf] and comparison with the literal [0]. *)
Definition isinf (x : spec_float) : bool :=
  match x with S754_infinity _ => true | _ => false end.

Definition is_zero (x : spec_float) : bool :=
  match x with S754_zero _ => true | _ => false end.

Definition fabs (x : spec_float) : spec_float := SFabs x.

(** ** Points, planes *)

(** A row of the [n x 3] [CV_32F] matrix. *)
Record Point := mkPoint { px : float; py : float; pz : float }.

(** [cv::Vec3f] and [cv::Vec4f]. *)
Record Vec3f := mkVec3 { v0 : float; v1 : float; v2 : float }.
Record Vec4f := mkVec4 { m0 : float; m1 : float; m2 : float; m3 : float }.

(** [cv::Matx::dot]: the accumulator starts at [0] and adds the products in
    index order. *)
Definition dot3 (u v : Vec3f) : float :=
  (((F32.zero + v0 u * v0 v) + v1 u * v1 v) + v2 u * v2 v)%f32.

(** ** check_same_normal *)

Definition normal_dot (actual_plane : Vec4f) (expect_normal : Vec3f) : double :=
  F64.of_float
    ((m0 actual_plane * v0 expect_normal + m1 actual_plane * v1 expect_normal)
     + m2 actual_plane * v2 expect_normal)%f32.

Definition sqr_modulu_plane (actual_plane : Vec4f) : double :=
  F64.of_float
    ((m0 actual_plane * m0 actual_plane + m1 actual_plane * m1 actual_plane)
     + m2 actual_plane * m2 actual_plane)%f32.

Definition sqr_modulu_vec (expect_normal : Vec3f) : double :=
  F64.of_float
    ((v0 expect_normal * v0 expect_normal + v1 expect_normal * v1 expect_normal)
     + v2 expect_normal * v2 expect_normal)%f32.

Definition check_same_normal (actual_plane : Vec4f) (expect_normal : Vec3f)
    (thr : double) : bool :=
  let dot := normal_dot actual_plane expect_normal in
  let sqr_modulu_a := sqr_modulu_plane actual_plane in
  let sqr_modulu_b := sqr_modulu_vec expect_normal in
  let cos_sqr := (dot * dot)%f64 in
  let sqr_modulu_ab := (sqr_modulu_a * sqr_modulu_b)%f64 in
  SFleb ((cos_sqr - sqr_modulu_ab) * (cos_sqr - sqr_modulu_ab))%f64
        (thr * sqr_modulu_ab)%f64.

(** The plane whose normal is scaled by the [float] factor [s] (the offset
    [d] plays no part in the check and is scaled along). *)
Definition scale_plane (s : float) (p : Vec4f) : Vec4f :=
  mkVec4 (s * m0 p)%f32 (s * m1 p)%f32 (s * m2 p)%f32 (s * m3 p)%f32.

(** The plane with the opposite normal. *)
Definition opp_plane (p : Vec4f) : Vec4f :=
  mkVec4 (SFopp (m0 p)) (SFopp (m1 p)) (SFopp (m2 p)) (SFopp (m3 p)).

(** ** Constants of the source *)

(** The [double] literal [0.0001] of the collinearity test. *)
Definition lit_0_0001 : double := (F64.of_Z 1 / F64.of_Z 10000)%f64.

(** The [double] literal [0.95] of the adaptive cap. *)
Definition lit_0_95 : double := (F64.of_Z 95 / F64.of_Z 100)%f64.

(** Modelled from the spec: the default value of the parameter [best_inls]
    of [get_inliers], declared in [ransac.h] (absent): "optionally a
    best_so_far count (default 0)". *)
Definition default_best_inls : Z := 0.

Definition INT_MIN : Z := - 2 ^ 31.
Definition INT_MAX : Z := 2 ^ 31 - 1.

(** ** [double] against [int] *)

(** [x < n] for a [double] [x] and an [int] [n]: the [int] converts to
    [double] exactly, and IEEE comparison is comparison of the values; a NaN
    compares false.  A finite [x] is [(-1)^s * m * 2^e]. *)
Definition double_lt_int (x : double) (n : Z) : bool :=
  match x with
  | S754_nan => false
  | S754_infinity s => s
  | S754_zero _ => 0 <? n
  | S754_finite s m e =>
      if 0 <=? e then cond_Zopp s (Zpos m) * 2 ^ e <? n
      else cond_Zopp s (Zpos m) <? n * 2 ^ (- e)
  end.

(** [static_cast<int>(x)]: truncation toward zero.  Outside the range of
    [int] the conversion is undefined in C++; the model returns what the x86
    conversion instruction returns there, [INT_MIN]. *)
Definition double_to_int (x : double) : Z :=
  match x with
  | S754_zero _ => 0
  | S754_finite s m e =>
      let t := if 0 <=? e then cond_Zopp s (Zpos m) * 2 ^ e
               else Z.quot (cond_Zopp s (Zpos m)) (2 ^ (- e)) in
      if (INT_MIN <=? t) && (t <=? INT_MAX) then t else INT_MIN
  | _ => INT_MIN
  end.

(** ** total_least_squares_plane_estimate *)

Definition origin : Point := mkPoint F32.zero F32.zero F32.zero.

(** [pts_ptr[3*i .. 3*i+2]]. *)
Definition pt_at (input : list Point) (i : nat) : Point := nth i input origin.

Definition edge (p q : Point) : Vec3f :=
  mkVec3 (px p - px q)%f32 (py p - py q)%f32 (pz p - pz q)%f32.

(** The quantity compared with [0.0001] when three samples are given. *)
Definition collinear_value (p1 p2 p3 : Point) : float :=
  let ba := edge p1 p2 in
  let ca := edge p1 p3 in
  let ba_dot_ca := fabs (dot3 ca ba) in
  fabs (ba_dot_ca * ba_dot_ca - dot3 ba ba * dot3 ca ca)%f32.

Definition collinear_test (p1 p2 p3 : Point) : bool :=
  SFltb (F64.of_float (collinear_value p1 p2 p3)) lit_0_0001.

Definition sum_coords (input : list Point) (sample : list nat) : Vec3f :=
  fold_left
    (fun acc i =>
       mkVec3 (v0 acc + px (pt_at input i))%f32
              (v1 acc + py (pt_at input i))%f32
              (v2 acc + pz (pt_at input i))%f32)
    sample (mkVec3 F32.zero F32.zero F32.zero).

(** The rows of the centred matrix [U]. *)
Definition centred_rows (input : list Point) (sample : list nat)
    (mean_x mean_y mean_z : float) : list Vec3f :=
  map (fun i => mkVec3 (px (pt_at input i) - mean_x)%f32
                       (py (pt_at input i) - mean_y)%f32
                       (pz (pt_at input i) - mean_z)%f32) sample.

(** The final test on the eigenvector [(a, b, c)]. *)
Definition bad_normal (n : Vec3f) : bool :=
  isinf (v0 n) || isinf (v1 n) || isinf (v2 n)
  || (is_zero (v0 n) && is_zero (v1 n) && is_zero (v2 n)).

(** [mean_x, mean_y, mean_z]: the sums divided by [sample_num]. *)
Definition sample_mean (input : list Point) (sample : list nat) : Vec3f :=
  let sample_num := Z.of_nat (length sample) in
  let sum := sum_coords input sample in
  mkVec3 (v0 sum / F32.of_Z sample_num)%f32
         (v1 sum / F32.of_Z sample_num)%f32
         (v2 sum / F32.of_Z sample_num)%f32.

Section Estimator.

(** [cv::eigen] applied to [UT * U]: from the rows of [U], the third row of
    the eigenvector matrix ([eig_ptr[6..8]]). *)
Variable eigen_last_row : list Vec3f -> Vec3f.

(** [(a, b, c)] as read from [eig_ptr]. *)
Definition fit_normal (input : list Point) (sample : list nat) : Vec3f :=
  let mean := sample_mean input sample in
  eigen_last_row (centred_rows input sample (v0 mean) (v1 mean) (v2 mean)).

(** [sample] holds the [sample_num] valid entries of the C array; [None]
    is [return false], which leaves [model] untouched. *)
Definition total_least_squares_plane_estimate (input : list Point)
    (sample : list nat) : option Vec4f :=
  let sample_num := Z.of_nat (length sample) in
  if (3 =? sample_num)
     && collinear_test (pt_at input (nth 0 sample 0%nat))
                       (pt_at input (nth 1 sample 0%nat))
                       (pt_at input (nth 2 sample 0%nat))
  then None
  else
    let mean := sample_mean input sample in
    let n := fit_normal input sample in
    if bad_normal n then None
    else Some (mkVec4 (v0 n) (v1 n) (v2 n)
                      ((SFopp (v0 n) * v0 mean - v1 n * v1 mean)
                       - v2 n * v2 mean)%f32).

End Estimator.

(** ** get_inliers *)

(** [a, b, c, d] divided by [hom = sqrt(a*a + b*b + c*c)]. *)
Definition normalize_model (model : Vec4f) : Vec4f :=
  let hom := F32.sqrt ((m0 model * m0 model + m1 model * m1 model)
                       + m2 model * m2 model)%f32 in
  mkVec4 (m0 model / hom)%f32 (m1 model / hom)%f32
         (m2 model / hom)%f32 (m3 model / hom)%f32.

(** [fabs(a*x + b*y + c*z + d) < thr] on the normalised coefficients. *)
Definition near (nm : Vec4f) (thr : float) (pt : Point) : bool :=
  SFltb (fabs (((m0 nm * px pt + m1 nm * py pt) + m2 nm * pz pt) + m3 nm)%f32) thr.

(** The first loop, [p < cut]: no pruning. *)
Fixpoint score_head (hit : Point -> bool) (pts : list Point) (num_inliers : Z)
    : list bool * Z :=
  match pts with
  | [] => ([], num_inliers)
  | pt :: rest =>
      if hit pt then
        let (mask, n) := score_head hit rest (num_inliers + 1) in (true :: mask, n)
      else
        let (mask, n) := score_head hit rest num_inliers in (false :: mask, n)
  end.

(** The second loop, [cut <= p < pts_size]; [p] is the index of the head of
    [pts].  On [break] the entries not reached keep the [false] written by
    [std::fill]. *)
Fixpoint score_tail (hit : Point -> bool) (pts_size best_inls : Z) (p : Z)
    (pts : list Point) (num_inliers : Z) : list bool * Z :=
  match pts with
  | [] => ([], num_inliers)
  | pt :: rest =>
      let h := hit pt in
      let num_inliers' := if h then num_inliers + 1 else num_inliers in
      if num_inliers' + pts_size - p <? best_inls
      then (h :: repeat false (length rest), num_inliers')
      else
        let (mask, n) :=
          score_tail hit pts_size best_inls (p + 1) rest num_inliers' in
        (h :: mask, n)
  end.

(** Returns the first [pts_size] entries of [inliers] and the count. *)
Definition get_inliers (model : Vec4f) (pts : list Point) (thr : float)
    (best_inls : Z) : list bool * Z :=
  let pts_size := Z.of_nat (length pts) in
  let nm := normalize_model model in
  let cut := pts_size * 2 / 3 in
  let (mask1, n1) := score_head (near nm thr) (firstn (Z.to_nat cut) pts) 0 in
  let (mask2, n2) :=
    score_tail (near nm thr) pts_size best_inls cut
               (skipn (Z.to_nat cut) pts) n1 in
  (mask1 ++ mask2, n2).

(** Exhaustive scoring: the call without the last argument. *)
Definition get_inliers_all (model : Vec4f) (pts : list Point) (thr : float)
    : list bool * Z :=
  get_inliers model pts thr default_best_inls.

(** Number of [true] entries of a mask. *)
Definition count_true (mask : list bool) : Z :=
  Z.of_nat (length (filter (fun b => b) mask)).

(** ** Compaction and list updates *)

(** The copy loops of [get_planes]: the rows whose mask entry is [false],
    in order ([inliers[p]] past the end of the mask reads as [false]). *)
Fixpoint keep_outliers {A : Type} (inliers : list bool) (rows : list A) : list A :=
  match rows with
  | [] => []
  | r :: rows' =>
      match inliers with
      | true :: m => keep_outliers m rows'
      | false :: m => r :: keep_outliers m rows'
      | [] => r :: keep_outliers [] rows'
      end
  end.

(** The rows whose mask entry is [true]. *)
Fixpoint keep_inliers {A : Type} (inliers : list bool) (rows : list A) : list A :=
  match rows, inliers with
  | r :: rows', true :: m => r :: keep_inliers m rows'
  | _ :: rows', false :: m => keep_inliers m rows'
  | _, _ => []
  end.

(** [a[i] = x]; an index past the end leaves the list unchanged. *)
Fixpoint set_nth {A : Type} (i : nat) (x : A) (a : list A) : list A :=
  match a, i with
  | [], _ => []
  | _ :: t, O => x :: t
  | h :: t, S j => h :: set_nth j x t
  end.

(** [labels_ptr[idx] = plane_num] for every [idx] of the list. *)
Definition write_labels (plane_num : Z) (idxs : list nat) (labels : list Z)
    : list Z :=
  fold_left (fun l idx => set_nth idx plane_num l) idxs labels.

(** [v.insert(v.begin() + e, x)]. *)
Definition insert_at {A : Type} (e : nat) (x : A) (v : list A) : list A :=
  firstn e v ++ x :: skipn e v.

(** [int e = 0; while (best_inls < plane_inls_num[e]) ++e;].  The vector
    always ends with the entry [0] it was created with and counts are never
    negative, so the scan stops inside the vector; the model stops at its
    end. *)
Fixpoint scan_rank (best_inls : Z) (plane_inls_num : list Z) : nat :=
  match plane_inls_num with
  | [] => O
  | n :: rest => if best_inls <? n then S (scan_rank best_inls rest) else O
  end.

(** The inner loop filling [inlier_sample]: [sample_cnt] entries are already
    stored, the result is what is appended. *)
Fixpoint fill_inlier_sample (max_lo_inliers : Z) (inliers : list bool)
    (random_pool : list nat) (sample_cnt : Z) : list nat :=
  match random_pool with
  | [] => []
  | p :: rest =>
      if nth p inliers false then
        if max_lo_inliers <=? sample_cnt + 1 then [p]
        else p :: fill_inlier_sample max_lo_inliers inliers rest (sample_cnt + 1)
      else fill_inlier_sample max_lo_inliers inliers rest sample_cnt
  end.

(** The constants of the two local optimisations. *)
Definition get_plane_max_lo_inliers : Z := 20.
Definition get_plane_max_lo_iters : nat := 10.
Definition get_planes_max_lo_inliers : Z := 300.
Definition get_planes_max_lo_iters : nat := 3.

Section Pipeline.

  (** *** External collaborators *)

Variable eigen_last_row : list Vec3f -> Vec3f.

  (** [cv::RNG]: its state, the state of a default-constructed generator,
      and [uniform(0, n)]. *)
Variable RNG : Type.
Variable rng_default : RNG.
Variable rng_uniform : RNG -> Z -> nat * RNG.

  (** [cv::randShuffle], which draws from the global generator. *)
Variable Global : Type.
Variable randShuffle : Global -> list nat -> list nat * Global.

  (** [log] and [pow] of the C library, on [double]. *)
Variable c_log : double -> double.
Variable c_pow : double -> double -> double.

  (** [VoxelGrid(out, pts, g, g, g)]: the order of its output is the bucket
      order of an [unordered_map]. *)
Variable VoxelGrid : list Point -> float -> list Point.

  (** *** Local optimisation *)

  (** The variables the loop reads and writes.  [lo_last] is [num_inliers]
      in [get_plane] and [lo_inls] in [get_planes]; [lo_samples] records the
      [sample_cnt] of every refit, most recent first, for the statements
      about it (the source keeps no such log). *)
Record LoState := mkLo {
    lo_best_model : Vec4f;
    lo_best_inls : Z;
    lo_last : Z;
    lo_inliers : list bool;
    lo_pool : list nat;
    lo_global : Global;
    lo_samples : list Z
  }.

Definition normal_ok (normal : option Vec3f) (normal_diff_thr : double)
      (model : Vec4f) : bool :=
    match normal with
    | None => true
    | Some n => check_same_normal model n normal_diff_thr
    end.

  (** [for (lo_iter = 0; lo_iter < max_lo_iters; ++lo_iter)], written once
      for the two copies of the loop. *)
Fixpoint lo_loop (max_lo_inliers : Z) (pts : list Point) (thr : float)
      (normal : option Vec3f) (normal_diff_thr : double)
      (iters : nat) (st : LoState) : LoState :=
    match iters with
    | O => st
    | S iters' =>
        let (pool, g) := randShuffle (lo_global st) (lo_pool st) in
        let sample := fill_inlier_sample max_lo_inliers (lo_inliers st) pool 0 in
        let st1 := mkLo (lo_best_model st) (lo_best_inls st) (lo_last st)
                        (lo_inliers st) pool g
                        (Z.of_nat (length sample) :: lo_samples st) in
        match total_least_squares_plane_estimate eigen_last_row pts sample with
        | None => lo_loop max_lo_inliers pts thr normal normal_diff_thr iters' st1
        | Some lo_model =>
            if negb (normal_ok normal normal_diff_thr lo_model)
            then lo_loop max_lo_inliers pts thr normal normal_diff_thr iters' st1
            else
              let (mask, n) := get_inliers lo_model pts thr (lo_best_inls st) in
              if lo_best_inls st <? n then
                lo_loop max_lo_inliers pts thr normal normal_diff_thr iters'
                        (mkLo lo_model n n mask pool g (lo_samples st1))
              else if lo_best_inls st =? n then
                mkLo (lo_best_model st) (lo_best_inls st) n mask pool g
                     (lo_samples st1)
              else
                lo_loop max_lo_inliers pts thr normal normal_diff_thr iters'
                        (mkLo (lo_best_model st) (lo_best_inls st) n mask pool g
                              (lo_samples st1))
        end
    end.

  (** *** get_plane *)

  (** [3 * log(1 - 0.95) / log(1 - pow(float(best_inls) / pts_size, 3))]. *)
Definition max_hyp (best_inls pts_size : Z) : double :=
    let ratio := F64.of_float (F32.of_Z best_inls / F32.of_Z pts_size)%f32 in
    ((F64.of_Z 3 * c_log (F64.of_Z 1 - lit_0_95))
     / c_log (F64.of_Z 1 - c_pow ratio (F64.of_Z 3)))%f64.

  (** [if (!isinf(max_hyp) && max_hyp < max_iterations) max_iterations = (int) max_hyp]. *)
Definition update_budget (mh : double) (max_iterations : Z) : Z :=
    if negb (isinf mh) && double_lt_int mh max_iterations
    then double_to_int mh else max_iterations.

Record GpState := mkGp {
    gp_iter : Z;
    gp_max_iterations : Z;
    gp_best_model : Vec4f;
    gp_best_inls : Z;
    gp_num_inliers : Z;
    gp_inliers : list bool;
    gp_pool : list nat;
    gp_rng : RNG;
    gp_global : Global
  }.

  (** One pass through the body of the main loop, followed by [++iter]. *)
Definition get_plane_body (pts : list Point) (thr : float)
      (normal : option Vec3f) (normal_diff_thr : double) (st : GpState) : GpState :=
    let pts_size := Z.of_nat (length pts) in
    let (s0, r0) := rng_uniform (gp_rng st) pts_size in
    let (s1, r1) := rng_uniform r0 pts_size in
    let (s2, r2) := rng_uniform r1 pts_size in
    let skip := mkGp (gp_iter st + 1) (gp_max_iterations st) (gp_best_model st)
                     (gp_best_inls st) (gp_num_inliers st) (gp_inliers st)
                     (gp_pool st) r2 (gp_global st) in
    match total_least_squares_plane_estimate eigen_last_row pts [s0; s1; s2] with
    | None => skip
    | Some model =>
        if negb (normal_ok normal normal_diff_thr model) then skip
        else
          let (mask, num_inliers) := get_inliers model pts thr (gp_best_inls st) in
          if gp_best_inls st <? num_inliers then
            let lo := lo_loop get_plane_max_lo_inliers pts thr normal normal_diff_thr
                        get_plane_max_lo_iters
                        (mkLo model num_inliers num_inliers mask (gp_pool st)
                              (gp_global st) []) in
            mkGp (gp_iter st + 1)
                 (update_budget (max_hyp (lo_best_inls lo) pts_size)
                                (gp_max_iterations st))
                 (lo_best_model lo) (lo_best_inls lo) (lo_last lo)
                 (lo_inliers lo) (lo_pool lo) r2 (lo_global lo)
          else
            mkGp (gp_iter st + 1) (gp_max_iterations st) (gp_best_model st)
                 (gp_best_inls st) num_inliers mask (gp_pool st) r2 (gp_global st)
    end.

  (** [for (iter = 0; iter < max_iterations; ++iter)]; [fuel] bounds the
      number of passes. *)
Fixpoint get_plane_loop (pts : list Point) (thr : float)
      (normal : option Vec3f) (normal_diff_thr : double)
      (fuel : nat) (st : GpState) : GpState :=
    match fuel with
    | O => st
    | S fuel' =>
        if gp_iter st <? gp_max_iterations st
        then get_plane_loop pts thr normal normal_diff_thr fuel'
               (get_plane_body pts thr normal normal_diff_thr st)
        else st
    end.

  (** The result of a call: the returned count and the final contents of
      the output arguments [best_model] and [inliers]. *)
Record PlaneResult := mkRes {
    res_inls : Z;
    res_model : Vec4f;
    res_inliers : list bool;
    res_global : Global
  }.

Definition get_plane (best_model : Vec4f) (inliers : list bool)
      (pts : list Point) (thr : float) (max_iterations : Z)
      (normal : option Vec3f) (normal_diff_thr : double) (g : Global)
      : PlaneResult :=
    let pts_size := Z.of_nat (length pts) in
    if pts_size <? 3 then mkRes 0 best_model inliers g
    else
      let st := get_plane_loop pts thr normal normal_diff_thr
                  (Z.to_nat max_iterations)
                  (mkGp 0 max_iterations best_model 0 0 inliers
                        (seq 0 (length pts)) rng_default g) in
      if negb (gp_best_inls st =? 0) && (gp_num_inliers st <=? gp_best_inls st)
      then
        let (mask, n) := get_inliers_all (gp_best_model st) pts thr in
        mkRes n (gp_best_model st) mask (gp_global st)
      else mkRes (gp_best_inls st) (gp_best_model st) (gp_inliers st) (gp_global st).

(** *** get_planes, first part: the planes found one after the other *)

(** [cv::Vec4f model_;] is zero-initialised. *)
Definition vec4_zero : Vec4f := mkVec4 F32.zero F32.zero F32.zero F32.zero.

(** [for (num_planes = 1; num_planes <= desired_num_planes; ++num_planes)];
    [fuel] bounds the number of passes.  Only the entries of [inliers_] that
    the last call wrote are read, so the model carries those. *)
Fixpoint phase_a (thr : float) (max_iterations desired_num_planes : Z)
    (normal : option Vec3f) (normal_diff_thr : double)
    (fuel : nat) (num_planes : Z) (pts3d_plane_fit : list Point)
    (inliers_ : list bool) (g : Global) (planes_ : list Vec4f)
    : list Vec4f * Global :=
  match fuel with
  | O => (planes_, g)
  | S fuel' =>
      if num_planes <=? desired_num_planes then
        let r := get_plane vec4_zero inliers_ pts3d_plane_fit thr max_iterations
                           normal normal_diff_thr g in
        if res_inls r =? 0 then (planes_, res_global r)
        else
          let planes_' := planes_ ++ [res_model r] in
          if num_planes =? desired_num_planes then (planes_', res_global r)
          else
            phase_a thr max_iterations desired_num_planes normal normal_diff_thr
                    fuel' (num_planes + 1)
                    (keep_outliers (res_inliers r) pts3d_plane_fit)
                    (res_inliers r) (res_global r) planes_'
      else (planes_, g)
  end.

(** *** get_planes, second part: optimisation and labelling *)

(** The variables of the second loop: the working cloud [points3d_], the
    live prefix of [orig_pts_idx], [labels], the output vector [planes],
    [plane_inls_num] and the global generator.  Two logs, which the source
    does not keep, serve the statements: the sample counts of all refits so
    far, and for every pass the label written with the original indices it
    was written at (both most recent first). *)
Record PbState := mkPb {
  pb_points : list Point;
  pb_orig : list nat;
  pb_labels : list Z;
  pb_planes : list Vec4f;
  pb_inls_num : list Z;
  pb_global : Global;
  pb_samples : list Z;
  pb_writes : list (Z * list nat)
}.

(** From [best_model = planes_[plane_num - 1]] to the line
    [if (best_inls >= lo_inls) best_inls = get_inliers(...)]. *)
Definition refine (cand : Vec4f) (pts : list Point) (thr : float)
    (normal : option Vec3f) (normal_diff_thr : double) (g : Global) : LoState :=
  let (mask0, best0) := get_inliers_all cand pts thr in
  let lo := lo_loop get_planes_max_lo_inliers pts thr normal normal_diff_thr
              get_planes_max_lo_iters
              (mkLo cand best0 0 mask0 (seq 0 (length pts)) g []) in
  if lo_last lo <=? lo_best_inls lo then
    let (mask, n) := get_inliers_all (lo_best_model lo) pts thr in
    mkLo (lo_best_model lo) n (lo_last lo) mask (lo_pool lo) (lo_global lo)
         (lo_samples lo)
  else lo.

(** [for (plane_num = 1; plane_num <= planes_cnt; ++plane_num)] over the
    planes of the first part that are left. *)
Fixpoint phase_b (thr : float) (normal : option Vec3f) (normal_diff_thr : double)
    (planes_cnt : Z) (cands : list Vec4f) (plane_num : Z) (st : PbState)
    : PbState :=
  match cands with
  | [] => st
  | cand :: rest =>
      let lo := refine cand (pb_points st) thr normal normal_diff_thr (pb_global st) in
      let best_inls := lo_best_inls lo in
      let e := scan_rank best_inls (pb_inls_num st) in
      let inls_num := insert_at e best_inls (pb_inls_num st) in
      let planes := insert_at e (lo_best_model lo) (pb_planes st) in
      let marked := keep_inliers (lo_inliers lo) (pb_orig st) in
      let labels := write_labels plane_num marked (pb_labels st) in
      let samples := lo_samples lo ++ pb_samples st in
      let writes := (plane_num, marked) :: pb_writes st in
      if plane_num =? planes_cnt then
        mkPb (pb_points st) (pb_orig st) labels planes inls_num (lo_global lo)
             samples writes
      else
        phase_b thr normal normal_diff_thr planes_cnt rest (plane_num + 1)
          (mkPb (keep_outliers (lo_inliers lo) (pb_points st))
                (keep_outliers (lo_inliers lo) (pb_orig st))
                labels planes inls_num (lo_global lo) samples writes)
  end.

(** The state the second loop starts from; [planes] is the caller's vector. *)
Definition phase_b_init (planes : list Vec4f) (points3d_ : list Point)
    (g : Global) : PbState :=
  mkPb points3d_ (seq 0 (length points3d_))
       (repeat 0 (length points3d_)) planes [0] g [] [].

Definition cloud_for_fit (points3d_ : list Point) (grid_size : float) : list Point :=
  if SFltb F32.zero grid_size then VoxelGrid points3d_ grid_size else points3d_.

(** [points3d_] is the cloud after the conversion to an [n x 3] matrix of
    [float]; [planes] is the vector the caller passes (an output argument,
    normally empty).  The contents of the fresh array [inliers_] are never
    read before [get_inliers] has written them. *)
Definition get_planes_state (planes : list Vec4f) (points3d_ : list Point)
    (thr : float) (max_iterations desired_num_planes : Z) (grid_size : float)
    (normal : option Vec3f) (normal_diff_thr : double) (g : Global) : PbState :=
  let pts3d_plane_fit := cloud_for_fit points3d_ grid_size in
  let (planes_, g1) :=
    phase_a thr max_iterations desired_num_planes normal normal_diff_thr
            (Z.to_nat desired_num_planes) 1 pts3d_plane_fit
            (repeat false (length pts3d_plane_fit)) g [] in
  phase_b thr normal normal_diff_thr (Z.of_nat (length planes_)) planes_ 1
          (phase_b_init planes points3d_ g1).

(** The outputs [labels] and [planes]. *)
Definition get_planes (planes : list Vec4f) (points3d_ : list Point)
    (thr : float) (max_iterations desired_num_planes : Z) (grid_size : float)
    (normal : option Vec3f) (normal_diff_thr : double) (g : Global)
    : list Z * list Vec4f :=
  let st := get_planes_state planes points3d_ thr max_iterations
              desired_num_planes grid_size normal normal_diff_thr g in
  (pb_labels st, pb_planes st).

End Pipeline.

Arguments mkLo {Global}.
Arguments lo_best_model {Global}.
Arguments lo_best_inls {Global}.
Arguments lo_last {Global}.
Arguments lo_inliers {Global}.
Arguments lo_pool {Global}.
Arguments lo_global {Global}.
Arguments lo_samples {Global}.
Arguments lo_loop eigen_last_row {Global} randShuffle.
Arguments mkGp {RNG Global}.
Arguments gp_iter {RNG Global}.
Arguments gp_max_iterations {RNG Global}.
Arguments gp_best_model {RNG Global}.
Arguments gp_best_inls {RNG Global}.
Arguments gp_num_inliers {RNG Global}.
Arguments gp_inliers {RNG Global}.
Arguments gp_pool {RNG Global}.
Arguments gp_rng {RNG Global}.
Arguments gp_global {RNG Global}.
Arguments get_plane_body eigen_last_row {RNG} rng_uniform {Global} randShuffle.
Arguments get_plane_loop eigen_last_row {RNG} rng_uniform {Global} randShuffle.
Arguments mkRes {Global}.
Arguments res_inls {Global}.
Arguments res_model {Global}.
Arguments res_inliers {Global}.
Arguments res_global {Global}.
Arguments get_plane eigen_last_row {RNG} rng_default rng_uniform {Global} randShuffle.
Arguments phase_a eigen_last_row {RNG} rng_default rng_uniform {Global} randShuffle.
Arguments mkPb {Global}.
Arguments pb_points {Global}.
Arguments pb_orig {Global}.
Arguments pb_labels {Global}.
Arguments pb_planes {Global}.
Arguments pb_inls_num {Global}.
Arguments pb_global {Global}.
Arguments pb_samples {Global}.
Arguments pb_writes {Global}.
Arguments refine eigen_last_row {Global} randShuffle.
Arguments phase_b eigen_last_row {Global} randShuffle.
Arguments phase_b_init {Global}.
Arguments get_planes_state eigen_last_row {RNG} rng_default rng_uniform {Global} randShuffle.
Arguments get_planes eigen_last_row {RNG} rng_default rng_uniform {Global} randShuffle.

(** ** check_same_plane *)

(** [p[0]*p[0] + p[1]*p[1] + p[2]*p[2] + p[3]*p[3]], in [float]. *)
Definition sqr_norm4 (p : Vec4f) : float :=
  (((m0 p * m0 p + m1 p * m1 p) + m2 p * m2 p) + m3 p * m3 p)%f32.

(** [(a - b) * (a - b)], in [double]. *)
Definition sqr_diff (a b : double) : double := ((a - b) * (a - b))%f64.

Section SamePlane.

(** [sqrt] applied to a [float] and stored in a [double]: which overload
    the call resolves to (and so whether the root is rounded to [float]
    first) depends on the headers in scope; the model takes it as given. *)
Variable sqrt_to_double : float -> double.

(** The four coefficients divided by the norm, in [double]. *)
Definition unit4 (p : Vec4f) : double * double * double * double :=
  let hom := sqrt_to_double (sqr_norm4 p) in
  ((F64.of_float (m0 p) / hom)%f64, (F64.of_float (m1 p) / hom)%f64,
   (F64.of_float (m2 p) / hom)%f64, (F64.of_float (m3 p) / hom)%f64).

Definition check_same_plane (p1 p2 : Vec4f) (thr : double) : bool :=
  let '(p1a, p1b, p1c, p1d) := unit4 p1 in
  let '(p2a, p2b, p2c, p2d) := unit4 p2 in
  SFltb (((sqr_diff p1a p2a + sqr_diff p1b p2b) + sqr_diff p1c p2c)
         + sqr_diff p1d p2d)%f64 thr.

End SamePlane.

(** ** VoxelGrid *)

(** [(int) x] for a [float]: truncation, as for a [double]. *)
Definition float_to_int (x : float) : Z := double_to_int x.

(** [x_min = myptr[0]; for (i = 1; ...) if (x_min > x) x_min = x;] for one
    coordinate.  On an empty cloud the source reads past the matrix; the
    model reads the point [origin] there.  The maxima the source also
    tracks are never used. *)
Definition coord_min (f : Point -> float) (pts : list Point) : float :=
  fold_left (fun m p => if SFltb (f p) m then f p else m)
            (tl pts) (f (hd origin pts)).

(** The three integers printed into the key [buff]; the text
    ["%d,%d,%d"] determines them and is determined by them. *)
Definition VoxelKey : Type := (Z * Z * Z)%type.

Definition key_eqb (k k' : VoxelKey) : bool :=
  let '(a, b, c) := k in
  let '(a', b', c') := k' in
  (a =? a') && (b =? b') && (c =? c').

Definition voxel_key (mins : Vec3f) (length width height : float) (p : Point)
    : VoxelKey :=
  (float_to_int ((px p - v0 mins) / length)%f32,
   float_to_int ((py p - v1 mins) / width)%f32,
   float_to_int ((pz p - v2 mins) / height)%f32).

(** [grids[buff].push_back(i)] (the branch on [empty()] does the same):
    the entries are kept in the order their keys first appear. *)
Fixpoint grid_add (k : VoxelKey) (i : nat) (grids : list (VoxelKey * list nat))
    : list (VoxelKey * list nat) :=
  match grids with
  | [] => [(k, [i])]
  | (k', members) :: rest =>
      if key_eqb k k' then (k', members ++ [i]) :: rest
      else (k', members) :: grid_add k i rest
  end.

Definition cloud_mins (pts : list Point) : Vec3f :=
  mkVec3 (coord_min px pts) (coord_min py pts) (coord_min pz pts).

(** The map [grids] after the loop over all points. *)
Definition voxel_grids (pts : list Point) (length width height : float)
    : list (VoxelKey * list nat) :=
  fold_left
    (fun grids i =>
       grid_add (voxel_key (cloud_mins pts) length width height (pt_at pts i))
                i grids)
    (seq 0 (List.length pts)) [].

(** The squared distance of a block point to the centre. *)
Definition centre_dist (centre : Vec3f) (p : Point) : float :=
  (((px p - v0 centre) * (px p - v0 centre)
    + (py p - v1 centre) * (py p - v1 centre))
   + (pz p - v2 centre) * (pz p - v2 centre))%f32.

(** The scan for the block point nearest to the centre: [(x_sample,
    y_sample, z_sample)] and [min_dist]. *)
Definition nearest_scan (centre : Vec3f) (block : list Point)
    (start : Point * float) : Point * float :=
  fold_left
    (fun (cur : Point * float) b =>
       let tmp_dist := centre_dist centre b in
       if SFltb tmp_dist (snd cur) then (b, tmp_dist) else cur)
    block start.

(** The sample of one voxel: the member nearest to the mean of the members
    (the sums and the division are those of [sample_mean]).  A voxel of the
    map always has a member; for an empty list the model returns
    [origin]. *)
Definition voxel_sample (pts : list Point) (members : list nat) : Point :=
  let centre := sample_mean pts members in
  match map (pt_at pts) members with
  | [] => origin
  | b0 :: rest => fst (nearest_scan centre rest (b0, centre_dist centre b0))
  end.

Section VoxelOrder.

(** The order in which [for (auto &grid : grids)] visits an
    [unordered_map]. *)
Variable bucket_order :
  list (VoxelKey * list nat) -> list (VoxelKey * list nat).

(** The rows of [sampling_pts]; the function itself always returns
    [true]. *)
Definition VoxelGrid_rows (pts : list Point) (length width height : float)
    : list Point :=
  map (fun grid => voxel_sample pts (snd grid))
      (bucket_order (voxel_grids pts length width height)).

End VoxelOrder.

(** ** get_planes: the shape of the input *)

(** The header of a [cv::Mat]. *)
Record MatShape := mkShape { rows : Z; cols : Z; channels : Z }.

(** [m.total()], the number of elements. *)
Definition total (m : MatShape) : Z := rows m * cols m.

(** [m.reshape(1, m.total())]: one channel, one row per element. *)
Definition reshape_1 (m : MatShape) : MatShape :=
  mkShape (total m) (channels m) 1.

Definition transpose_shape (m : MatShape) : MatShape :=
  mkShape (cols m) (rows m) (channels m).

(** The first lines of [get_planes] on the header: the shape of
    [points3d_] and whether it was transposed, or [None] when
    [CV_CheckEQ] throws. *)
Definition input_shape (is_vector : bool) (m : MatShape)
    : option (MatShape * bool) :=
  if is_vector then Some (mkShape (total m) 3 1, false)
  else
    let m1 := if negb (channels m =? 1) then reshape_1 m else m in
    let transposed := rows m1 <? cols m1 in
    let m2 := if transposed then transpose_shape m1 else m1 in
    if cols m2 =? 3 then Some (m2, transposed) else None.

(** * Concrete data for the runs

    Small clouds with integer coordinates, and explicit stand-ins for the
    external collaborators, on which the definitions above are evaluated. *)

Module Run.

Definition fz (n : Z) : float := F32.of_Z n.
Definition pt (x y z : Z) : Point := mkPoint (fz x) (fz y) (fz z).

(** The plane [z = 0] and the threshold [0.5]. *)
Definition plane_z0 : Vec4f := mkVec4 (fz 0) (fz 0) (fz 1) (fz 0).
Definition half : float := (fz 1 / fz 2)%f32.

(** Five points of [z = 0] and one point off it, in fourth position. *)
Definition cloud6 : list Point :=
  [pt 0 0 0; pt 1 0 0; pt 0 1 0; pt 5 5 9; pt 1 1 0; pt 2 1 0].

(** *** Stand-ins for the external collaborators *)

Definition all_zero (f : Vec3f -> float) (rows : list Vec3f) : bool :=
  forallb (fun r => is_zero (f r)) rows.

(** An eigen-solver for samples that lie in a plane orthogonal to a
    coordinate axis: one column of [U] is zero, the scatter matrix has the
    eigenvalue [0] along that axis, and the axis is the last eigenvector.
    Other samples do not occur in the runs below; they get the zero vector,
    which the estimator rejects. *)
Definition eigen_axis (rows : list Vec3f) : Vec3f :=
  if all_zero v2 rows then mkVec3 (fz 0) (fz 0) (fz 1)
  else if all_zero v0 rows then mkVec3 (fz 1) (fz 0) (fz 0)
  else if all_zero v1 rows then mkVec3 (fz 0) (fz 1) (fz 0)
  else mkVec3 (fz 0) (fz 0) (fz 0).

(** A generator that draws [0, 1, 2, ...] (modulo the bound). *)
Definition rng_count (r : nat) (n : Z) : nat * nat :=
  (Nat.modulo r (Z.to_nat n), S r).

(** A shuffle that leaves the pool in place. *)
Definition shuffle_id (g : unit) (pool : list nat) : list nat * unit := (pool, g).

(** [pow(x, 3)] by two multiplications. *)
Definition pow3 (x y : double) : double := (x * x * x)%f64.

(** [log x] by the series [2 * sum_k z^(2k+1) / (2k+1)], [z = (x-1)/(x+1)],
    cut after [terms] terms. *)
Fixpoint atanh_series (terms : nat) (z2 zpow : double) (k : Z) : double :=
  match terms with
  | O => S754_zero false
  | S t => (zpow / F64.of_Z k + atanh_series t z2 (zpow * z2) (k + 2))%f64
  end.

Definition log_series (x : double) : double :=
  match x with
  | S754_zero _ => S754_infinity true
  | _ =>
      let z := ((x - F64.of_Z 1) / (x + F64.of_Z 1))%f64 in
      (F64.of_Z 2 * atanh_series 60 (z * z) z 1)%f64
  end.

(** The threshold of the normal test used in the runs, [0.06]. *)
Definition thr_normal : double := (F64.of_Z 6 / F64.of_Z 100)%f64.

(** Three points of [z = 0] followed by four points of [x = 10]. *)
Definition cloud_3_4 : list Point :=
  [pt 0 0 0; pt 4 0 0; pt 0 4 0;
   pt 10 0 1; pt 10 4 1; pt 10 0 5; pt 10 4 5].

(** Three points of [z = 0] followed by three points of [x = 10]. *)
Definition cloud_3_3 : list Point :=
  [pt 0 0 0; pt 4 0 0; pt 0 4 0;
   pt 10 0 1; pt 10 4 1; pt 10 0 5].

(** Twenty-two points of [z = 0] on a grid five wide. *)
Definition cloud_grid22 : list Point :=
  map (fun i => pt (Z.of_nat i mod 5) (Z.of_nat i / 5) 0) (seq 0 22).

(** Three points on one line through the origin, [p3 = 7 * p2]. *)
Definition cloud_line : list Point :=
  [pt 0 0 0; pt 1001 1003 0; pt 7007 7021 0].

(** Three points on one line with small coordinates. *)
Definition cloud_line_small : list Point :=
  [pt 0 0 0; pt 1 2 0; pt 3 6 0].

(** The integer a [float] stands for, when it is one. *)
Definition float_to_Z (x : float) : option Z :=
  match x with
  | S754_zero _ => Some 0
  | S754_finite s m e =>
      if 0 <=? e then Some (cond_Zopp s (Zpos m) * 2 ^ e)
      else if Zpos m mod 2 ^ (- e) =? 0
           then Some (cond_Zopp s (Zpos m / 2 ^ (- e))) else None
  | _ => None
  end.

Definition coords (p : Point) : option Z * option Z * option Z :=
  (float_to_Z (px p), float_to_Z (py p), float_to_Z (pz p)).

(** The cross product of [q - p] and [r - p] on integer points. *)
Definition cross_Z (p q r : Z * Z * Z) : Z * Z * Z :=
  let '(px, py, pz) := p in
  let '(qx, qy, qz) := q in
  let '(rx, ry, rz) := r in
  let '(ux, uy, uz) := (qx - px, qy - py, qz - pz) in
  let '(wx, wy, wz) := (rx - px, ry - py, rz - pz) in
  (uy * wz - uz * wy, uz * wx - ux * wz, ux * wy - uy * wx).


(** The final state of [get_planes] with the stand-ins, no voxel grid and
    no normal. *)
Definition run_state (cloud : list Point) (max_iterations desired : Z)
    : PbState unit :=
  get_planes_state eigen_axis O rng_count shuffle_id log_series pow3
                   (fun pts _ => pts) [] cloud half max_iterations desired
                   (fz 0) None thr_normal tt.

(** The planes of the first loop of [get_planes] in the same setting. *)
Definition run_phase_a (cloud : list Point) (max_iterations desired : Z)
    : list Vec4f :=
  fst (phase_a eigen_axis O rng_count shuffle_id log_series pow3 half
               max_iterations desired None thr_normal (Z.to_nat desired) 1
               cloud (repeat false (length cloud)) tt []).

(** The planes [z = 0] and [x = 10] as the estimator returns them. *)
Definition fitted_z0 : Vec4f := mkVec4 (fz 0) (fz 0) (fz 1) (S754_zero true).
Definition fitted_x10 : Vec4f := mkVec4 (fz 1) (fz 0) (fz 0) (fz (-10)).

(** [get_planes] with the stand-ins, no voxel grid and no normal. *)
Definition run_get_planes (cloud : list Point) (max_iterations desired : Z)
    : list Z * list Vec4f :=
  get_planes eigen_axis O rng_count shuffle_id log_series pow3
             (fun pts _ => pts) [] cloud half max_iterations desired (fz 0)
             None thr_normal tt.

End Run.

(** * Specification vocabulary *)

(** Counts in non-increasing order. *)
Definition descending (l : list Z) : Prop := StronglySorted (fun a b => b <= a) l.

(** All original indices written by the passes of the second loop. *)
Definition written (writes : list (Z * list nat)) : list nat :=
  concat (map snd writes).

(** The invariant of the second loop of [get_planes] before the pass
    numbered [plane_num]: the live indices and the indices already written
    are pairwise distinct, live indices address [labels], every logged write
    carries an earlier pass number and is still what [labels] holds, every
    nonzero label has a logged write, and no pass number is logged twice. *)
Definition labels_inv (orig : list nat) (labels : list Z)
    (writes : list (Z * list nat)) (plane_num : Z) : Prop :=
  NoDup (orig ++ written writes)
  /\ (forall i, In i orig -> (i < length labels)%nat)
  /\ (forall r idxs, In (r, idxs) writes ->
        1 <= r < plane_num /\ forall i, In i idxs -> nth i labels 0 = r)
  /\ (forall i, nth i labels 0 <> 0 ->
        exists r idxs, In (r, idxs) writes /\ In i idxs)
  /\ 1 <= plane_num
  /\ NoDup (map fst writes).

(** [y] is [x] negated, up to the sign of a zero. *)
Definition negated (x y : spec_float) : Prop :=
  y = SFopp x \/ (is_zero x = true /\ is_zero y = true).

(** The normal [(a, b, c)] of a plane. *)
Definition plane_normal (model : Vec4f) : Vec3f :=
  mkVec3 (m0 model) (m1 model) (m2 model).

(** What the loops require of a plane before they score it: the
    estimator's final test passed (no infinite component, not the zero
    vector) and so did the test against the expected normal, when one is
    given. *)
Definition valid_plane (normal : option Vec3f) (normal_diff_thr : double)
    (model : Vec4f) : Prop :=
  bad_normal (plane_normal model) = false
  /\ normal_ok normal normal_diff_thr model = true.

(** A second invariant of the second loop of [get_planes], about distances
    to the original cloud [cloud0]: the working cloud is the original points
    at the live indices; every plane added so far has all live points
    outside the threshold; every logged write marks points within the
    threshold of a plane of the output vector; and every original index is
    live or written. *)
Definition scored_inv (cloud0 : list Point) (thr : float) (planes0 : list Vec4f)
    (points : list Point) (orig : list nat) (planes : list Vec4f)
    (writes : list (Z * list nat)) : Prop :=
  points = map (pt_at cloud0) orig
  /\ (forall model, In model planes ->
        In model planes0
        \/ forall i, In i orig ->
             near (normalize_model model) thr (pt_at cloud0 i) = false)
  /\ (forall r idxs, In (r, idxs) writes ->
        exists model, In model planes
          /\ forall i, In i idxs ->
               near (normalize_model model) thr (pt_at cloud0 i) = true)
  /\ (forall i, (i < length cloud0)%nat -> In i orig \/ In i (written writes)).

(** What the buckets look like after the indices [done] went in: one
    bucket per key, no bucket empty, every member under its own key, and
    the members of all buckets are the indices that went in. *)
Definition buckets_ok (kf : nat -> VoxelKey) (grids : list (VoxelKey * list nat))
    (done : list nat) : Prop :=
  NoDup (map fst grids)
  /\ (forall k v, In (k, v) grids -> v <> [] /\ forall i, In i v -> kf i = k)
  /\ Permutation (concat (map snd grids)) done.

(** * Properties *)

(** ** The inlier scorer *)

Lemma count_true_cons (b : bool) (mask : list bool) :
  count_true (b :: mask) = (if b then 1 else 0) + count_true mask.
Proof. unfold count_true; destruct b; simpl length; lia. Qed.

Lemma count_true_app (m1 m2 : list bool) :
  count_true (m1 ++ m2) = count_true m1 + count_true m2.
Proof.
  unfold count_true. rewrite filter_app, length_app. lia.
Qed.

Lemma count_true_repeat_false (n : nat) : count_true (repeat false n) = 0.
Proof.
  induction n as [|n IH]; [reflexivity|].
  simpl repeat. rewrite count_true_cons, IH. reflexivity.
Qed.

Lemma count_true_nonneg (mask : list bool) : 0 <= count_true mask.
Proof. unfold count_true. lia. Qed.

Lemma count_true_le_length (mask : list bool) :
  count_true mask <= Z.of_nat (length mask).
Proof. unfold count_true. pose proof (filter_length_le (fun b => b) mask). lia. Qed.

(** The first loop evaluates every point it is given. *)
Lemma score_head_spec (hit : Point -> bool) (pts : list Point) (num : Z) :
  score_head hit pts num = (map hit pts, num + count_true (map hit pts)).
Proof.
  revert num. induction pts as [|pt rest IH]; intro num; simpl.
  - f_equal. unfold count_true. simpl. lia.
  - destruct (hit pt) eqn:Hh; rewrite IH, count_true_cons; f_equal; lia.
Qed.

(** The second loop: whatever the bound, the count is the number of [true]
    entries of the mask, and the mask has one entry per point. *)
Lemma score_tail_count (hit : Point -> bool) (pts_size best : Z)
    (pts : list Point) (p num : Z) :
  snd (score_tail hit pts_size best p pts num)
    = num + count_true (fst (score_tail hit pts_size best p pts num))
  /\ length (fst (score_tail hit pts_size best p pts num)) = length pts.
Proof.
  revert p num. induction pts as [|pt rest IH]; intros p num; simpl.
  - split; [unfold count_true; simpl; lia | reflexivity].
  - destruct (_ <? best).
    + simpl. rewrite count_true_cons, count_true_repeat_false, repeat_length.
      split; [destruct (hit pt); lia | reflexivity].
    + specialize (IH (p + 1) (if hit pt then num + 1 else num)).
      destruct (score_tail hit pts_size best (p + 1) rest _) as [mask n].
      simpl in *. rewrite count_true_cons. destruct IH as [IH1 IH2].
      split; [destruct (hit pt); lia | congruence].
Qed.

(** When no [break] can fire the second loop is the first one. *)
Lemma score_tail_no_bound (hit : Point -> bool) (pts_size best : Z)
    (pts : list Point) (p num : Z) :
  best <= 0 -> 0 <= num -> p + Z.of_nat (length pts) = pts_size ->
  score_tail hit pts_size best p pts num = score_head hit pts num.
Proof.
  intros Hb. revert p num.
  induction pts as [|pt rest IH]; intros p num Hn Hp; simpl; [reflexivity|].
  simpl length in Hp.
  assert (Hnum : 0 <= (if hit pt then num + 1 else num))
    by (destruct (hit pt); lia).
  destruct (_ <? best) eqn:Hbr; [apply Z.ltb_lt in Hbr; lia|].
  rewrite (IH (p + 1) _ Hnum) by lia.
  destruct (hit pt); reflexivity.
Qed.

(** A [break] leaves a count strictly below the bound, so a count that
    reaches the bound comes from a full evaluation. *)
Lemma score_tail_reaches_bound (hit : Point -> bool) (pts_size best : Z)
    (pts : list Point) (p num : Z) :
  p + Z.of_nat (length pts) = pts_size ->
  best <= snd (score_tail hit pts_size best p pts num) ->
  score_tail hit pts_size best p pts num = score_head hit pts num.
Proof.
  revert p num.
  induction pts as [|pt rest IH]; intros p num Hp Hge; simpl in *; [reflexivity|].
  destruct (_ <? best) eqn:Hbr.
  - apply Z.ltb_lt in Hbr. simpl in Hge. lia.
  - specialize (IH (p + 1) (if hit pt then num + 1 else num)).
    destruct (score_tail hit pts_size best (p + 1) rest _) as [mask n] eqn:Ht.
    simpl in Hge. assert (E : (mask, n) = score_head hit rest (if hit pt then num + 1 else num))
      by (apply IH; simpl; lia).
    destruct (hit pt); rewrite <- E; reflexivity.
Qed.

Lemma cut_bounds (n : nat) :
  0 <= Z.of_nat n * 2 / 3 <= Z.of_nat n.
Proof.
  split; [apply Z.div_pos; lia|].
  apply Z.div_le_upper_bound; lia.
Qed.

Lemma get_inliers_unfold (model : Vec4f) (pts : list Point) (thr : float) (best : Z) :
  let pts_size := Z.of_nat (length pts) in
  let cut := pts_size * 2 / 3 in
  let hit := near (normalize_model model) thr in
  let head := firstn (Z.to_nat cut) pts in
  let tail := skipn (Z.to_nat cut) pts in
  let t := score_tail hit pts_size best cut tail (count_true (map hit head)) in
  get_inliers model pts thr best = (map hit head ++ fst t, snd t)
  /\ cut + Z.of_nat (length tail) = pts_size.
Proof.
  intros pts_size cut hit head tail t. split.
  - unfold get_inliers. fold pts_size cut hit head tail.
    rewrite score_head_spec. rewrite Z.add_0_l. fold t.
    destruct t; reflexivity.
  - unfold tail. rewrite length_skipn. pose proof (cut_bounds (length pts)).
    unfold cut, pts_size. lia.
Qed.

(** Exhaustive scoring evaluates every point. *)
Lemma get_inliers_all_spec (model : Vec4f) (pts : list Point) (thr : float) :
  get_inliers_all model pts thr
  = (map (near (normalize_model model) thr) pts,
     count_true (map (near (normalize_model model) thr) pts)).
Proof.
  unfold get_inliers_all, default_best_inls.
  destruct (get_inliers_unfold model pts thr 0) as [-> Hlen].
  rewrite score_tail_no_bound by (auto using count_true_nonneg; lia).
  rewrite score_head_spec. simpl fst; simpl snd.
  rewrite <- map_app, firstn_skipn.
  rewrite <- count_true_app, <- map_app, firstn_skipn. reflexivity.
Qed.

Lemma get_inliers_reaches_bound (model : Vec4f) (pts : list Point) (thr : float)
    (best : Z) :
  best <= snd (get_inliers model pts thr best) ->
  get_inliers model pts thr best = get_inliers_all model pts thr.
Proof.
  intro Hge. rewrite get_inliers_all_spec.
  destruct (get_inliers_unfold model pts thr best) as [E Hlen].
  rewrite E in *. simpl snd in Hge.
  rewrite score_tail_reaches_bound in * by assumption.
  rewrite score_head_spec. simpl fst; simpl snd.
  rewrite <- map_app, firstn_skipn.
  rewrite <- count_true_app, <- map_app, firstn_skipn. reflexivity.
Qed.

Lemma get_inliers_count (model : Vec4f) (pts : list Point) (thr : float) (best : Z) :
  snd (get_inliers model pts thr best)
    = count_true (fst (get_inliers model pts thr best))
  /\ length (fst (get_inliers model pts thr best)) = length pts.
Proof.
  destruct (get_inliers_unfold model pts thr best) as [E Hlen]. rewrite E.
  simpl fst; simpl snd.
  match goal with |- context [score_tail ?h ?s ?b ?p ?l ?n] =>
    destruct (score_tail_count h s b l p n) as [H1 H2] end.
  rewrite H1, count_true_app, length_app, H2, length_map, <- length_app, firstn_skipn.
  split; reflexivity.
Qed.

Lemma keep_outliers_length {A : Type} (mask : list bool) (rows : list A) :
  length mask = length rows ->
  Z.of_nat (length (keep_outliers mask rows))
  = Z.of_nat (length rows) - count_true mask.
Proof.
  revert mask. induction rows as [|r rows IH]; intros [|b mask] Hl;
    simpl in Hl; try discriminate.
  - reflexivity.
  - injection Hl as Hl. rewrite count_true_cons. specialize (IH mask Hl).
    destruct b; simpl keep_outliers; simpl length; lia.
Qed.

(** C9: whatever the pruning bound, and also after an early stop, the count
    returned by [get_inliers] is the number of [true] entries it leaves in
    the mask, the mask has one entry per point, and the points with a
    [false] entry are exactly [pts_size - count] many: the compacted cloud
    allocated with that many rows is filled exactly. *)
Theorem get_inliers_count_is_mask_count (model : Vec4f) (pts : list Point)
    (thr : float) (best_inls : Z) :
  let r := get_inliers model pts thr best_inls in
  snd r = count_true (fst r)
  /\ length (fst r) = length pts
  /\ Z.of_nat (length (keep_outliers (fst r) pts)) = Z.of_nat (length pts) - snd r.
Proof.
  intro r. destruct (get_inliers_count model pts thr best_inls) as [Hc Hl].
  fold r in Hc, Hl. repeat split; try assumption.
  rewrite keep_outliers_length by assumption. lia.
Qed.

(** An early stop: with the bound [7] the loop leaves after the fifth point
    of [cloud6], the sixth entry of the mask stays [false] and is not
    counted. *)
Example get_inliers_early_stop :
  get_inliers Run.plane_z0 Run.cloud6 Run.half 7
  = ([true; true; true; false; true; false], 4)
  /\ get_inliers Run.plane_z0 Run.cloud6 Run.half 0
     = ([true; true; true; false; true; true], 5).
Proof. vm_compute. split; reflexivity. Qed.

(** C4: if the pruned scorer returns a count that reaches its bound, the
    count and the mask are those of exhaustive scoring; and with the bound
    [0] every point is evaluated: the mask is the point-wise test and the
    count the number of points that pass it. *)
Theorem pruning_preserves_adopted_count (model : Vec4f) (pts : list Point)
    (thr : float) :
  (forall best_inls : Z,
      best_inls <= snd (get_inliers model pts thr best_inls) ->
      get_inliers model pts thr best_inls = get_inliers model pts thr 0)
  /\ get_inliers model pts thr 0
     = (map (near (normalize_model model) thr) pts,
        count_true (map (near (normalize_model model) thr) pts)).
Proof.
  split.
  - intros best_inls Hge. apply get_inliers_reaches_bound. exact Hge.
  - apply get_inliers_all_spec.
Qed.

Lemma pruning_preserves_adopted_count_witness :
  4 <= snd (get_inliers Run.plane_z0 Run.cloud6 Run.half 4)
  /\ get_inliers Run.plane_z0 Run.cloud6 Run.half 4
     = get_inliers Run.plane_z0 Run.cloud6 Run.half 0.
Proof.
  assert (H : 4 <= snd (get_inliers Run.plane_z0 Run.cloud6 Run.half 4))
    by (vm_compute; discriminate).
  split; [exact H|].
  exact (proj1 (pruning_preserves_adopted_count Run.plane_z0 Run.cloud6 Run.half) 4 H).
Defined.

(** ** The local optimisation *)

Lemma fill_inlier_sample_length (max_lo_inliers : Z) (inliers : list bool)
    (pool : list nat) (sample_cnt : Z) :
  sample_cnt + Z.of_nat (length (fill_inlier_sample max_lo_inliers inliers pool sample_cnt))
  <= Z.max (sample_cnt + 1) max_lo_inliers.
Proof.
  revert sample_cnt. induction pool as [|p rest IH]; intro cnt; simpl.
  - lia.
  - destruct (nth p inliers false).
    + destruct (max_lo_inliers <=? cnt + 1) eqn:Hm.
      * simpl. lia.
      * apply Z.leb_gt in Hm. specialize (IH (cnt + 1)). simpl length. lia.
    + specialize (IH cnt). lia.
Qed.

Section PipelineFacts.

Variable eigen_last_row : list Vec3f -> Vec3f.
Variable RNG : Type.
Variable rng_default : RNG.
Variable rng_uniform : RNG -> Z -> nat * RNG.
Variable Global : Type.
Variable randShuffle : Global -> list nat -> list nat * Global.
Variable c_log : double -> double.
Variable c_pow : double -> double -> double.
Variable VoxelGrid : list Point -> float -> list Point.

Variable thr : float.
Variable normal : option Vec3f.
Variable normal_diff_thr : double.

(** What a run of the loop guarantees about its final state: the best count
    never decreases, the last score never exceeds it, at most one refit per
    pass is logged and none takes more than [max_lo_inliers] samples. *)
Lemma lo_loop_facts (pts : list Point) (max_lo_inliers : Z) (iters : nat)
    (st : LoState Global) :
  let st' := lo_loop eigen_last_row randShuffle max_lo_inliers pts thr normal
                     normal_diff_thr iters st in
  lo_best_inls st <= lo_best_inls st'
  /\ (lo_last st <= lo_best_inls st -> lo_last st' <= lo_best_inls st')
  /\ (forall b, 1 <= b -> max_lo_inliers <= b ->
        Forall (fun c => c <= b) (lo_samples st) ->
        Forall (fun c => c <= b) (lo_samples st'))
  /\ (length (lo_samples st') <= length (lo_samples st) + iters)%nat.
Proof.
  revert st. induction iters as [|iters IH]; intro st; simpl.
  - repeat split; auto; lia.
  - destruct (randShuffle (lo_global st) (lo_pool st)) as [pool g].
    set (sample := fill_inlier_sample max_lo_inliers (lo_inliers st) pool 0).
    assert (Hs : forall b, 1 <= b -> max_lo_inliers <= b ->
                           Z.of_nat (length sample) <= b).
    { intros b H1 H2.
      pose proof (fill_inlier_sample_length max_lo_inliers (lo_inliers st) pool 0).
      fold sample in H. lia. }
    set (st1 := mkLo (lo_best_model st) (lo_best_inls st) (lo_last st)
                     (lo_inliers st) pool g
                     (Z.of_nat (length sample) :: lo_samples st)).
    assert (Hskip :
      let st' := lo_loop eigen_last_row randShuffle max_lo_inliers pts thr normal
                         normal_diff_thr iters st1 in
      lo_best_inls st <= lo_best_inls st'
      /\ (lo_last st <= lo_best_inls st -> lo_last st' <= lo_best_inls st')
      /\ (forall b, 1 <= b -> max_lo_inliers <= b ->
            Forall (fun c => c <= b) (lo_samples st) ->
            Forall (fun c => c <= b) (lo_samples st'))
      /\ (length (lo_samples st') <= length (lo_samples st) + S iters)%nat).
    { destruct (IH st1) as (I1 & I2 & I3 & I4). simpl in *.
      repeat split; auto; try lia;
        try (intros b H1 H2 HF; apply I3; auto). }
    destruct (total_least_squares_plane_estimate eigen_last_row pts sample)
      as [lo_model|]; [|exact Hskip].
    destruct (negb (normal_ok normal normal_diff_thr lo_model)); [exact Hskip|].
    clear Hskip.
    destruct (get_inliers lo_model pts thr (lo_best_inls st)) as [mask n].
    destruct (lo_best_inls st <? n) eqn:Hlt.
    + apply Z.ltb_lt in Hlt.
      destruct (IH (mkLo lo_model n n mask pool g (lo_samples st1)))
        as (I1 & I2 & I3 & I4).
      simpl in *. repeat split; auto; try lia;
        try (intros _; apply I2; lia);
        try (intros b H1 H2 HF; apply I3; auto).
    + apply Z.ltb_ge in Hlt. destruct (lo_best_inls st =? n) eqn:Heq.
      * apply Z.eqb_eq in Heq. simpl. repeat split; auto; try lia.
      * destruct (IH (mkLo (lo_best_model st) (lo_best_inls st) n mask pool g
                           (lo_samples st1))) as (I1 & I2 & I3 & I4).
        simpl in *. repeat split; auto; try lia;
          try (intros _; apply I2; lia);
          try (intros b H1 H2 HF; apply I3; auto).
Qed.

(** ** The adaptive iteration budget *)

Lemma double_to_int_below (x : double) (n : Z) :
  INT_MIN <= n -> double_lt_int x n = true -> double_to_int x <= n.
Proof.
  intros Hn. destruct x as [s|s| |s m e]; simpl.
  - intro H. apply Z.ltb_lt in H. lia.
  - intros _. exact Hn.
  - discriminate.
  - destruct (0 <=? e) eqn:He.
    + intro H. apply Z.ltb_lt in H.
      destruct (_ && _); lia.
    + apply Z.leb_gt in He. intro H. apply Z.ltb_lt in H.
      assert (Hp : 0 < 2 ^ (- e)) by (apply Z.pow_pos_nonneg; lia).
      assert (Hq : Z.quot (cond_Zopp s (Z.pos m)) (2 ^ (- e)) <= n).
      { destruct s; simpl in *.
        - change (Z.neg m) with (- Z.pos m). rewrite Z.quot_opp_l by lia.
          rewrite Z.quot_div_nonneg by lia.
          destruct (Z_lt_le_dec n 0) as [Hneg|Hpos].
          + assert (- n <= Z.pos m / 2 ^ (- e)); [|lia].
            apply Z.div_le_lower_bound; nia.
          + pose proof (Z.div_pos (Z.pos m) (2 ^ (- e))). lia.
        - rewrite Z.quot_div_nonneg by lia.
          assert (Z.pos m / 2 ^ (- e) < n); [|lia].
          apply Z.div_lt_upper_bound; nia. }
      destruct (_ && _); lia.
Qed.

Lemma update_budget_le (mh : double) (max_iterations : Z) :
  INT_MIN <= max_iterations ->
  update_budget mh max_iterations <= max_iterations.
Proof.
  intro Hn. unfold update_budget.
  destruct (negb (isinf mh)); simpl; [|lia].
  destruct (double_lt_int mh max_iterations) eqn:Hlt; [|lia].
  apply double_to_int_below; assumption.
Qed.

Lemma double_to_int_min (x : double) : INT_MIN <= double_to_int x.
Proof.
  destruct x as [s|s| |s m e]; simpl; try (unfold INT_MIN; lia).
  destruct (_ && _) eqn:H; [|lia].
  apply andb_prop in H. destruct H as [H _]. apply Z.leb_le in H. exact H.
Qed.

Lemma update_budget_min (mh : double) (max_iterations : Z) :
  INT_MIN <= max_iterations -> INT_MIN <= update_budget mh max_iterations.
Proof.
  intro Hn. unfold update_budget.
  destruct (_ && _); [apply double_to_int_min | exact Hn].
Qed.

(** What one pass of the main loop does to the budget and the best count. *)
Lemma get_plane_body_facts (pts : list Point) (st : GpState RNG Global) :
  INT_MIN <= gp_max_iterations st ->
  let st' := get_plane_body eigen_last_row rng_uniform randShuffle c_log c_pow
               pts thr normal normal_diff_thr st in
  gp_max_iterations st' <= gp_max_iterations st
  /\ INT_MIN <= gp_max_iterations st'
  /\ gp_iter st' = gp_iter st + 1
  /\ gp_best_inls st <= gp_best_inls st'
  /\ (gp_best_inls st' <> gp_best_inls st ->
      gp_max_iterations st'
      = update_budget (max_hyp c_log c_pow (gp_best_inls st')
                               (Z.of_nat (length pts)))
                      (gp_max_iterations st))
  /\ (gp_best_inls st' = gp_best_inls st ->
      gp_max_iterations st' = gp_max_iterations st)
  /\ (gp_num_inliers st <= gp_best_inls st ->
      gp_num_inliers st' <= gp_best_inls st').
Proof.
  intros Hmin. unfold get_plane_body.
  destruct (rng_uniform (gp_rng st) _) as [s0 r0].
  destruct (rng_uniform r0 _) as [s1 r1].
  destruct (rng_uniform r1 _) as [s2 r2].
  destruct (total_least_squares_plane_estimate eigen_last_row pts [s0; s1; s2])
    as [model|]; [|simpl; repeat split; auto; lia].
  destruct (negb (normal_ok normal normal_diff_thr model));
    [simpl; repeat split; auto; lia|].
  destruct (get_inliers model pts thr (gp_best_inls st)) as [mask n].
  destruct (gp_best_inls st <? n) eqn:Hlt.
  - apply Z.ltb_lt in Hlt.
    match goal with |- context [lo_loop ?a ?b ?c ?d ?e ?f ?g ?h ?i] =>
      destruct (lo_loop_facts pts c h i) as (L1 & L2 & _);
      set (lo := lo_loop a b c d e f g h i) in * end.
    simpl in L1, L2. simpl.
    pose proof (update_budget_le
                  (max_hyp c_log c_pow (lo_best_inls lo) (Z.of_nat (length pts)))
                  (gp_max_iterations st) Hmin).
    pose proof (update_budget_min
                  (max_hyp c_log c_pow (lo_best_inls lo) (Z.of_nat (length pts)))
                  (gp_max_iterations st) Hmin).
    repeat split; auto; try lia.
  - apply Z.ltb_ge in Hlt. simpl. repeat split; auto; lia.
Qed.

Lemma get_plane_loop_unfold (pts : list Point) (k : nat)
    (st : GpState RNG Global) :
  get_plane_loop eigen_last_row rng_uniform randShuffle c_log c_pow
                 pts thr normal normal_diff_thr (S k) st
  = if gp_iter st <? gp_max_iterations st
    then get_plane_loop eigen_last_row rng_uniform randShuffle c_log c_pow
           pts thr normal normal_diff_thr k
           (get_plane_body eigen_last_row rng_uniform randShuffle c_log
              c_pow pts thr normal normal_diff_thr st)
    else st.
Proof. reflexivity. Qed.

Lemma get_plane_loop_succ (pts : list Point) (k : nat)
    (st : GpState RNG Global) :
  get_plane_loop eigen_last_row rng_uniform randShuffle c_log c_pow
                 pts thr normal normal_diff_thr (S k) st
  = get_plane_loop eigen_last_row rng_uniform randShuffle c_log c_pow
                   pts thr normal normal_diff_thr 1
      (get_plane_loop eigen_last_row rng_uniform randShuffle c_log c_pow
                      pts thr normal normal_diff_thr k st).
Proof.
  revert st. induction k as [|k IH]; intro st; [reflexivity|].
  rewrite (get_plane_loop_unfold pts (S k) st), (get_plane_loop_unfold pts k st).
  destruct (gp_iter st <? gp_max_iterations st) eqn:Hc.
  - apply IH.
  - rewrite (get_plane_loop_unfold pts 0 st), Hc. reflexivity.
Qed.

(** One step of the loop: a pass through the body, or nothing once the loop
    condition fails. *)
Lemma get_plane_loop_one_facts (pts : list Point) (st : GpState RNG Global) :
  INT_MIN <= gp_max_iterations st ->
  let st' := get_plane_loop eigen_last_row rng_uniform randShuffle c_log c_pow
               pts thr normal normal_diff_thr 1 st in
  gp_max_iterations st' <= gp_max_iterations st
  /\ INT_MIN <= gp_max_iterations st'
  /\ gp_best_inls st <= gp_best_inls st'
  /\ (gp_best_inls st' <> gp_best_inls st ->
      gp_max_iterations st'
      = update_budget (max_hyp c_log c_pow (gp_best_inls st')
                               (Z.of_nat (length pts)))
                      (gp_max_iterations st))
  /\ (gp_best_inls st' = gp_best_inls st ->
      gp_max_iterations st' = gp_max_iterations st)
  /\ (gp_num_inliers st <= gp_best_inls st ->
      gp_num_inliers st' <= gp_best_inls st').
Proof.
  intro Hmin. simpl. destruct (gp_iter st <? gp_max_iterations st).
  - destruct (get_plane_body_facts pts st Hmin) as (B1 & B2 & B3 & B4 & B5 & B6 & B7).
    repeat split; assumption.
  - repeat split; auto; try lia; try (intro H; contradiction H; reflexivity).
Qed.

Lemma get_plane_loop_facts (pts : list Point) (k : nat)
    (st : GpState RNG Global) :
  INT_MIN <= gp_max_iterations st ->
  let st' := get_plane_loop eigen_last_row rng_uniform randShuffle c_log c_pow
               pts thr normal normal_diff_thr k st in
  gp_max_iterations st' <= gp_max_iterations st
  /\ INT_MIN <= gp_max_iterations st'
  /\ (gp_num_inliers st <= gp_best_inls st ->
      gp_num_inliers st' <= gp_best_inls st').
Proof.
  intro Hmin. induction k as [|k IH].
  - simpl. repeat split; auto; lia.
  - rewrite get_plane_loop_succ. destruct IH as (I1 & I2 & I3).
    destruct (get_plane_loop_one_facts pts _ I2) as (O1 & O2 & _ & _ & _ & O6).
    repeat split; auto; lia.
Qed.

(** With as many passes allowed as the initial budget, the loop leaves by
    its own condition. *)
Lemma get_plane_loop_exits (pts : list Point) (fuel : nat)
    (st : GpState RNG Global) :
  INT_MIN <= gp_max_iterations st ->
  gp_max_iterations st - gp_iter st <= Z.of_nat fuel ->
  let st' := get_plane_loop eigen_last_row rng_uniform randShuffle c_log c_pow
               pts thr normal normal_diff_thr fuel st in
  gp_max_iterations st' <= gp_iter st'.
Proof.
  revert st. induction fuel as [|fuel IH]; intros st Hmin Hm.
  - simpl in *. lia.
  - simpl. destruct (gp_iter st <? gp_max_iterations st) eqn:Hc.
    + destruct (get_plane_body_facts pts st Hmin) as (B1 & B2 & B3 & _).
      apply IH; [exact B2|]. lia.
    + apply Z.ltb_ge in Hc. exact Hc.
Qed.

(** C6: [run k] is the state of the main loop of [get_plane] after [k]
    passes (or at its exit, if that comes earlier).  The budget never grows
    from one pass to the next and never exceeds the caller's
    [max_iterations]; a pass that adopts a new best model sets it to
    [update_budget] of the cap computed from the new best count, any other
    pass leaves it alone; [update_budget] changes the budget only to the
    truncated cap, and only when the cap is not infinite and strictly below
    the budget; and the loop exits within [max_iterations] passes.  Written
    out: after a pass that adopts a new best model the budget is the
    truncation of [cap = 3 * log(1 - 0.95) / log(1 - pow(best_inls / N, 3))]
    if [cap] is not infinite and [cap < budget], and the old budget
    otherwise, where [0.95] is the [double] [8556839292003942 * 2^-53], the
    ratio is a [float] division, [<] compares the value of [cap] with the
    integer, and the truncation is toward zero. *)
Theorem adaptive_budget_never_grows (pts : list Point) (best_model : Vec4f)
    (inliers : list bool)
    (max_iterations : Z) (g : Global) :
  INT_MIN <= max_iterations ->
  let run k :=
    get_plane_loop eigen_last_row rng_uniform randShuffle c_log c_pow
      pts thr normal normal_diff_thr k
      (mkGp 0 max_iterations best_model 0 0 inliers (seq 0 (length pts))
            rng_default g) in
  (forall k, gp_max_iterations (run (S k)) <= gp_max_iterations (run k)
             /\ gp_max_iterations (run k) <= max_iterations)
  /\ (forall k, gp_best_inls (run (S k)) <> gp_best_inls (run k) ->
        gp_max_iterations (run (S k))
        = update_budget (max_hyp c_log c_pow (gp_best_inls (run (S k)))
                                 (Z.of_nat (length pts)))
                        (gp_max_iterations (run k)))
  /\ (forall k, gp_best_inls (run (S k)) = gp_best_inls (run k) ->
        gp_max_iterations (run (S k)) = gp_max_iterations (run k))
  /\ (forall mh b, update_budget mh b <> b ->
        isinf mh = false /\ double_lt_int mh b = true
        /\ update_budget mh b = double_to_int mh)
  /\ gp_max_iterations (run (Z.to_nat max_iterations))
     <= gp_iter (run (Z.to_nat max_iterations))
  /\ (forall k, gp_best_inls (run (S k)) <> gp_best_inls (run k) ->
        let ratio := (F32.of_Z (gp_best_inls (run (S k)))
                      / F32.of_Z (Z.of_nat (length pts)))%f32 in
        let cap :=
          ((F64.of_Z 3
            * c_log (F64.of_Z 1 - S754_finite false 8556839292003942 (-53)))
           / c_log (F64.of_Z 1 - c_pow (F64.of_float ratio) (F64.of_Z 3)))%f64 in
        gp_max_iterations (run (S k))
        = if negb (isinf cap) && double_lt_int cap (gp_max_iterations (run k))
          then double_to_int cap else gp_max_iterations (run k))
  /\ (forall mh b,
        (isinf mh = false -> double_lt_int mh b = true ->
         update_budget mh b = double_to_int mh)
        /\ (isinf mh = true \/ double_lt_int mh b = false ->
            update_budget mh b = b))
  /\ (forall s m e n,
        (double_lt_int (S754_finite s m e) n = true
         <-> if 0 <=? e then cond_Zopp s (Z.pos m) * 2 ^ e < n
             else cond_Zopp s (Z.pos m) < n * 2 ^ (- e))
        /\ (forall s', double_lt_int (S754_zero s') n = (0 <? n))
        /\ double_lt_int S754_nan n = false
        /\ (let t := if 0 <=? e then cond_Zopp s (Z.pos m) * 2 ^ e
                      else Z.quot (cond_Zopp s (Z.pos m)) (2 ^ (- e)) in
            INT_MIN <= t <= INT_MAX ->
            double_to_int (S754_finite s m e) = t)
        /\ (forall s', double_to_int (S754_zero s') = 0)).
Proof.
  intros Hmin run.
  assert (Hk : forall k, gp_max_iterations (run k) <= max_iterations
                         /\ INT_MIN <= gp_max_iterations (run k)).
  { intro k. unfold run.
    match goal with |- context [get_plane_loop _ _ _ _ _ _ _ _ _ k ?s] =>
      destruct (get_plane_loop_facts pts k s Hmin) as (F1 & F2 & _) end.
    split; assumption. }
  assert (Hstep : forall k, run (S k)
            = get_plane_loop eigen_last_row rng_uniform randShuffle c_log c_pow
                pts thr normal normal_diff_thr 1 (run k))
    by (intro k; apply get_plane_loop_succ).
  assert (Hadopt : forall k, gp_best_inls (run (S k)) <> gp_best_inls (run k) ->
        gp_max_iterations (run (S k))
        = update_budget (max_hyp c_log c_pow (gp_best_inls (run (S k)))
                                 (Z.of_nat (length pts)))
                        (gp_max_iterations (run k))).
  { intros k. rewrite Hstep.
    destruct (get_plane_loop_one_facts pts (run k) (proj2 (Hk k)))
      as (_ & _ & _ & O4 & _). exact O4. }
  split; [|split; [exact Hadopt|split; [|split; [|split; [|split; [|split]]]]]].
  - intro k. split; [|apply Hk]. rewrite Hstep.
    destruct (get_plane_loop_one_facts pts (run k) (proj2 (Hk k))) as (O1 & _).
    exact O1.
  - intros k. rewrite Hstep.
    destruct (get_plane_loop_one_facts pts (run k) (proj2 (Hk k)))
      as (_ & _ & _ & _ & O5 & _). exact O5.
  - intros mh b H. unfold update_budget in *.
    destruct (isinf mh); simpl in *; [contradiction H; reflexivity|].
    destruct (double_lt_int mh b); [auto|contradiction H; reflexivity].
  - unfold run. apply get_plane_loop_exits; simpl; [exact Hmin|lia].
  - intros k H ratio cap. rewrite (Hadopt k H).
    assert (E95 : lit_0_95 = S754_finite false 8556839292003942 (-53))
      by (vm_compute; reflexivity).
    unfold update_budget, max_hyp. rewrite E95. reflexivity.
  - intros mh b. unfold update_budget. split.
    + intros H1 H2. rewrite H1, H2. reflexivity.
    + intros [H|H]; rewrite H; [reflexivity|].
      destruct (negb (isinf mh)); reflexivity.
  - intros s m e n. split; [|split; [|split; [|split]]].
    + simpl. destruct (0 <=? e); apply Z.ltb_lt.
    + reflexivity.
    + reflexivity.
    + intros t Ht. simpl. fold t.
      replace ((INT_MIN <=? t) && (t <=? INT_MAX)) with true; [reflexivity|].
      symmetry. apply andb_true_iff. split; apply Z.leb_le; lia.
    + reflexivity.
Qed.

(** ** The two parts of [get_planes] *)

Lemma set_nth_length {A : Type} (i : nat) (x : A) (a : list A) :
  length (set_nth i x a) = length a.
Proof.
  revert i. induction a as [|h t IH]; intros [|j]; simpl; auto.
Qed.

Lemma write_labels_length (plane_num : Z) (idxs : list nat) (labels : list Z) :
  length (write_labels plane_num idxs labels) = length labels.
Proof.
  unfold write_labels. revert labels.
  induction idxs as [|i rest IH]; intro labels; simpl; [reflexivity|].
  rewrite IH. apply set_nth_length.
Qed.

Lemma insert_at_length {A : Type} (e : nat) (x : A) (v : list A) :
  length (insert_at e x v) = S (length v).
Proof.
  unfold insert_at. rewrite length_app. simpl length.
  rewrite <- (firstn_skipn e v) at 3. rewrite length_app. lia.
Qed.

(** After [refine] the mask and the count are those of exhaustive scoring
    of the plane kept, whatever the local optimisation did; it made at most
    [3] refits, none from more than [300] samples. *)
Lemma refine_facts (cand : Vec4f) (cloud : list Point) (g : Global) :
  let lo := refine eigen_last_row randShuffle cand cloud thr normal
                   normal_diff_thr g in
  (lo_inliers lo, lo_best_inls lo) = get_inliers_all (lo_best_model lo) cloud thr
  /\ (length (lo_samples lo) <= get_planes_max_lo_iters)%nat
  /\ Forall (fun c => c <= get_planes_max_lo_inliers) (lo_samples lo).
Proof.
  unfold refine.
  destruct (get_inliers_all cand cloud thr) as [mask0 best0] eqn:E0.
  assert (H0 : 0 <= best0).
  { pose proof (get_inliers_count cand cloud thr default_best_inls) as [Hc _].
    unfold get_inliers_all in E0. rewrite E0 in Hc. simpl in Hc.
    rewrite Hc. apply count_true_nonneg. }
  match goal with |- context [lo_loop ?a ?b ?c _ _ _ _ ?h ?i] =>
    destruct (lo_loop_facts cloud c h i) as (L1 & L2 & L3 & L4);
    set (lo := lo_loop a b c cloud thr normal normal_diff_thr h i) in * end.
  cbn [lo_best_inls lo_last lo_samples length Nat.add] in L1, L2, L3, L4.
  specialize (L2 H0).
  specialize (L3 get_planes_max_lo_inliers ltac:(unfold get_planes_max_lo_inliers; lia)
                 (Z.le_refl _) (Forall_nil _)).
  apply Z.leb_le in L2. rewrite L2.
  destruct (get_inliers_all (lo_best_model lo) cloud thr) as [mask n] eqn:E.
  simpl. rewrite E. repeat split; auto.
Qed.

Lemma refine_count (cand : Vec4f) (cloud : list Point) (g : Global) :
  let lo := refine eigen_last_row randShuffle cand cloud thr normal
                   normal_diff_thr g in
  lo_best_inls lo = count_true (lo_inliers lo)
  /\ length (lo_inliers lo) = length cloud
  /\ lo_inliers lo = map (near (normalize_model (lo_best_model lo)) thr) cloud.
Proof.
  intro lo. destruct (refine_facts cand cloud g) as [E _]. fold lo in E.
  rewrite get_inliers_all_spec in E. injection E as E1 E2.
  rewrite E2, !E1, length_map. repeat split; reflexivity.
Qed.


Lemma phase_b_sizes (planes_cnt : Z) (cands : list Vec4f) (plane_num : Z)
    (st : PbState Global) :
  let st' := phase_b eigen_last_row randShuffle thr normal normal_diff_thr
                     planes_cnt cands plane_num st in
  (length (pb_planes st') <= length (pb_planes st) + length cands)%nat
  /\ length (pb_labels st') = length (pb_labels st)
  /\ (Forall (fun c => c <= get_planes_max_lo_inliers) (pb_samples st) ->
      Forall (fun c => c <= get_planes_max_lo_inliers) (pb_samples st')).
Proof.
  revert plane_num st. induction cands as [|cand rest IH]; intros plane_num st.
  - simpl. repeat split; auto; lia.
  - simpl.
    destruct (refine_facts cand (pb_points st) (pb_global st)) as (_ & _ & RF).
    set (lo := refine eigen_last_row randShuffle cand (pb_points st) thr normal
                      normal_diff_thr (pb_global st)) in *.
    destruct (plane_num =? planes_cnt).
    + simpl. rewrite insert_at_length, write_labels_length.
      repeat split; try lia. intro HF. apply Forall_app. split; assumption.
    + match goal with |- context [phase_b _ _ _ _ _ _ rest ?pn ?s] =>
        destruct (IH pn s) as (I1 & I2 & I3) end.
      simpl in I1, I2, I3. rewrite insert_at_length in I1.
      rewrite write_labels_length in I2.
      repeat split; try lia; try assumption.
      intro HF. apply I3. apply Forall_app. split; assumption.
Qed.


(** C2, as the code has it: the local optimisation of the second loop of
    [get_planes] makes at most [3] refits per plane, and the sample count
    passed to the estimator never exceeds [300]. *)
Theorem second_loop_refit_bounds :
  (forall cand cloud g,
      let lo := refine eigen_last_row randShuffle cand cloud thr normal
                       normal_diff_thr g in
      (length (lo_samples lo) <= 3)%nat
      /\ Forall (fun c => c <= 300) (lo_samples lo))
  /\ (forall planes cloud max_iterations desired_num_planes grid_size g,
        Forall (fun c => c <= 300)
               (pb_samples
                  (get_planes_state eigen_last_row rng_default rng_uniform
                     randShuffle c_log c_pow VoxelGrid planes cloud thr
                     max_iterations desired_num_planes grid_size normal
                     normal_diff_thr g))).
Proof.
  split.
  - intros cand cloud g lo.
    destruct (refine_facts cand cloud g) as (_ & R2 & R3). split; assumption.
  - intros planes cloud max_iterations desired grid_size g.
    unfold get_planes_state.
    match goal with |- context [phase_a ?a ?b ?c ?d ?e ?f ?t ?mi ?de ?n ?nd ?fu ?np ?cl ?il ?g0 ?pl] =>
      destruct (phase_a a b c d e f t mi de n nd fu np cl il g0 pl) as [planes_ g1]
    end.
    match goal with |- context [phase_b _ _ _ _ _ ?cnt ?cs ?pn ?s] =>
      destruct (phase_b_sizes cnt cs pn s) as (_ & _ & B3) end.
    apply B3. constructor.
Qed.

(** ** The ranked list *)

Lemma scan_rank_before (best : Z) (l : list Z) :
  Forall (fun n => best < n) (firstn (scan_rank best l) l).
Proof.
  induction l as [|n rest IH]; simpl; [constructor|].
  destruct (best <? n) eqn:H; simpl; constructor; auto.
  apply Z.ltb_lt. exact H.
Qed.

Lemma scan_rank_after (best : Z) (l : list Z) :
  descending l -> Forall (fun n => n <= best) (skipn (scan_rank best l) l).
Proof.
  unfold descending. induction l as [|n rest IH]; intro Hs; simpl; [constructor|].
  inversion Hs as [|? ? Hrest Hall]; subst.
  destruct (best <? n) eqn:H; simpl.
  - apply IH. exact Hrest.
  - apply Z.ltb_ge in H. constructor; [exact H|].
    eapply Forall_impl; [|exact Hall]. simpl. intros; lia.
Qed.

Lemma insert_at_scan_rank_descending (best : Z) (l : list Z) :
  descending l -> descending (insert_at (scan_rank best l) best l).
Proof.
  unfold descending, insert_at.
  induction l as [|n rest IH]; intro Hs; simpl.
  - repeat constructor.
  - inversion Hs as [|? ? Hrest Hall]; subst.
    destruct (best <? n) eqn:H; simpl.
    + apply Z.ltb_lt in H. constructor; [apply IH; exact Hrest|].
      rewrite <- (firstn_skipn (scan_rank best rest) rest) in Hall.
      apply Forall_app in Hall. destruct Hall as [Hf Hk].
      apply Forall_app. split; [exact Hf|].
      constructor; [lia|exact Hk].
    + apply Z.ltb_ge in H. constructor; [exact Hs|].
      constructor; [exact H|].
      eapply Forall_impl; [|exact Hall]. simpl. intros; lia.
Qed.

Lemma phase_b_ranked (planes_cnt : Z) (cands : list Vec4f) (plane_num : Z)
    (st : PbState Global) :
  let st' := phase_b eigen_last_row randShuffle thr normal normal_diff_thr
                     planes_cnt cands plane_num st in
  (descending (pb_inls_num st) -> descending (pb_inls_num st'))
  /\ (length (pb_inls_num st) = S (length (pb_planes st)) ->
      length (pb_inls_num st') = S (length (pb_planes st'))).
Proof.
  revert plane_num st. induction cands as [|cand rest IH]; intros plane_num st.
  - simpl. split; auto.
  - simpl.
    set (lo := refine eigen_last_row randShuffle cand (pb_points st) thr normal
                      normal_diff_thr (pb_global st)) in *.
    destruct (plane_num =? planes_cnt).
    + simpl. rewrite !insert_at_length. split.
      * apply insert_at_scan_rank_descending.
      * intro H; rewrite H; reflexivity.
    + match goal with |- context [phase_b _ _ _ _ _ _ rest ?pn ?s] =>
        destruct (IH pn s) as (I1 & I2) end.
      simpl in I1, I2. rewrite !insert_at_length in I2. split.
      * intro H. apply I1. apply insert_at_scan_rank_descending. exact H.
      * intro H. apply I2. rewrite H. reflexivity.
Qed.

(** ** Labels *)

Lemma nth_set_nth_same {A : Type} (i : nat) (x d : A) (a : list A) :
  (i < length a)%nat -> nth i (set_nth i x a) d = x.
Proof.
  revert i. induction a as [|h t IH]; intros [|j] Hlt; simpl in *; try lia.
  - reflexivity.
  - apply IH. lia.
Qed.

Lemma nth_set_nth_other {A : Type} (i j : nat) (x d : A) (a : list A) :
  i <> j -> nth j (set_nth i x a) d = nth j a d.
Proof.
  revert i j. induction a as [|h t IH]; intros [|i] [|j] Hne; simpl;
    try reflexivity; try (contradiction Hne; reflexivity).
  apply IH. intro E; apply Hne; f_equal; exact E.
Qed.

Lemma nth_write_labels_in (plane_num : Z) (idxs : list nat) (labels : list Z)
    (i : nat) :
  In i idxs -> (i < length labels)%nat ->
  nth i (write_labels plane_num idxs labels) 0 = plane_num.
Proof.
  unfold write_labels. revert labels.
  induction idxs as [|j rest IH]; intros labels Hin Hlt; simpl; [contradiction|].
  destruct (in_dec Nat.eq_dec i rest) as [Hr|Hr].
  - apply IH; [exact Hr|]. rewrite set_nth_length. exact Hlt.
  - destruct Hin as [->|Hin]; [|contradiction].
    assert (Hkeep : forall l, nth i (fold_left (fun l idx => set_nth idx plane_num l) rest l) 0
                              = nth i l 0).
    { clear - Hr. induction rest as [|k rest IH]; intro l; simpl; [reflexivity|].
      rewrite IH by (intro H; apply Hr; right; exact H).
      apply nth_set_nth_other. intro E; apply Hr; left; exact E. }
    rewrite Hkeep. apply nth_set_nth_same. exact Hlt.
Qed.

Lemma nth_write_labels_out (plane_num : Z) (idxs : list nat) (labels : list Z)
    (i : nat) :
  ~ In i idxs -> nth i (write_labels plane_num idxs labels) 0 = nth i labels 0.
Proof.
  unfold write_labels. revert labels.
  induction idxs as [|j rest IH]; intros labels Hnin; simpl; [reflexivity|].
  rewrite IH by (intro H; apply Hnin; right; exact H).
  apply nth_set_nth_other. intro E; apply Hnin; left; exact E.
Qed.

Lemma NoDup_app_disjoint {A : Type} (l l' : list A) (x : A) :
  NoDup (l ++ l') -> In x l -> In x l' -> False.
Proof.
  induction l as [|a l IH]; simpl; intros Hnd Hl Hl'; [contradiction|].
  inversion Hnd as [|? ? Hna Hnd']; subst.
  destruct Hl as [->|Hl].
  - apply Hna. apply in_or_app. right. exact Hl'.
  - apply IH; assumption.
Qed.

(** The two copy loops split the rows. *)
Lemma keep_split_permutation {A : Type} (mask : list bool) (rows : list A) :
  Permutation rows (keep_outliers mask rows ++ keep_inliers mask rows).
Proof.
  revert mask. induction rows as [|r rows IH]; intro mask; simpl.
  - destruct mask as [|[|] m]; constructor.
  - destruct mask as [|[|] m]; simpl.
    + constructor. specialize (IH []).
      replace (keep_inliers [] rows) with (@nil A) in IH by (destruct rows; reflexivity).
      exact IH.
    + apply Permutation_cons_app. apply IH.
    + constructor. apply IH.
Qed.

Lemma labels_inv_init (n : nat) : labels_inv (seq 0 n) (repeat 0 n) [] 1.
Proof.
  unfold labels_inv, written. simpl. rewrite app_nil_r.
  split; [|split; [|split; [|split; [|split]]]].
  - apply seq_NoDup.
  - intros i Hi. apply in_seq in Hi. rewrite repeat_length. lia.
  - intros r idxs [].
  - intros i Hi. exfalso. apply Hi. apply nth_repeat.
  - lia.
  - constructor.
Qed.

(** One pass: marking the inliers and compacting the index array keeps the
    invariant. *)
Lemma labels_inv_step (mask : list bool) (orig : list nat) (labels : list Z)
    (writes : list (Z * list nat)) (plane_num : Z) :
  labels_inv orig labels writes plane_num ->
  labels_inv (keep_outliers mask orig)
             (write_labels plane_num (keep_inliers mask orig) labels)
             ((plane_num, keep_inliers mask orig) :: writes) (plane_num + 1).
Proof.
  intros (I1 & I2 & I3 & I4 & I5 & I6).
  pose proof (keep_split_permutation mask orig) as Hp.
  assert (Hin_in : forall i, In i (keep_inliers mask orig) -> In i orig).
  { intros i Hi. eapply Permutation_in; [symmetry; exact Hp|].
    apply in_or_app. right. exact Hi. }
  assert (Hin_out : forall i, In i (keep_outliers mask orig) -> In i orig).
  { intros i Hi. eapply Permutation_in; [symmetry; exact Hp|].
    apply in_or_app. left. exact Hi. }
  assert (Hnd : NoDup (keep_outliers mask orig
                       ++ keep_inliers mask orig ++ written writes)).
  { rewrite app_assoc. eapply Permutation_NoDup; [|exact I1].
    apply Permutation_app_tail. exact Hp. }
  unfold labels_inv, written. simpl. fold (written writes).
  split; [|split; [|split; [|split; [|split]]]].
  - exact Hnd.
  - intros i Hi. rewrite write_labels_length. apply I2. apply Hin_out. exact Hi.
  - intros r idxs H. split.
    { destruct H as [H|H]; [injection H as <- _; lia|].
      destruct (I3 r idxs H) as [Hr _]. lia. }
    intros i Hi. destruct H as [H|H].
    + injection H as <- <-. apply nth_write_labels_in; [exact Hi|].
      apply I2. apply Hin_in. exact Hi.
    + destruct (I3 r idxs H) as [_ Hl].
      rewrite nth_write_labels_out; [apply Hl; exact Hi|].
      intro Hm. apply NoDup_app_remove_l in Hnd.
      apply (NoDup_app_disjoint _ _ i Hnd Hm). unfold written. apply in_concat.
      exists idxs. split; [|exact Hi].
      apply in_map_iff. exists (r, idxs). split; [reflexivity|exact H].
  - intros i Hi.
    destruct (in_dec Nat.eq_dec i (keep_inliers mask orig)) as [Hm|Hm].
    + exists plane_num, (keep_inliers mask orig). split; [left; reflexivity|exact Hm].
    + rewrite nth_write_labels_out in Hi by exact Hm.
      destruct (I4 i Hi) as (r & idxs & Hw & Hx).
      exists r, idxs. split; [right; exact Hw|exact Hx].
  - lia.
  - constructor; [|exact I6].
    intro Hin. apply in_map_iff in Hin. destruct Hin as ([r idxs] & Hr & Hin).
    simpl in Hr. subst r. destruct (I3 _ _ Hin) as [Hlt _]. lia.
Qed.

Lemma phase_b_labels_inv (planes_cnt : Z) (cands : list Vec4f) (plane_num : Z)
    (st : PbState Global) :
  labels_inv (pb_orig st) (pb_labels st) (pb_writes st) plane_num ->
  let st' := phase_b eigen_last_row randShuffle thr normal normal_diff_thr
                     planes_cnt cands plane_num st in
  exists orig plane_num',
    labels_inv orig (pb_labels st') (pb_writes st') plane_num'.
Proof.
  revert plane_num st. induction cands as [|cand rest IH]; intros plane_num st Hinv.
  - simpl. exists (pb_orig st), plane_num. exact Hinv.
  - simpl.
    set (lo := refine eigen_last_row randShuffle cand (pb_points st) thr normal
                      normal_diff_thr (pb_global st)) in *.
    pose proof (labels_inv_step (lo_inliers lo) _ _ _ _ Hinv) as Hstep.
    destruct (plane_num =? planes_cnt).
    + simpl. eexists _, _. exact Hstep.
    + apply IH. simpl. exact Hstep.
Qed.

(** Under the invariant a live index still has the label [0]. *)
Lemma labels_inv_live_zero (orig : list nat) (labels : list Z)
    (writes : list (Z * list nat)) (plane_num : Z) (i : nat) :
  labels_inv orig labels writes plane_num -> In i orig -> nth i labels 0 = 0.
Proof.
  intros (I1 & _ & _ & I4 & _) Hi.
  destruct (Z.eq_dec (nth i labels 0) 0) as [E|E]; [exact E|exfalso].
  destruct (I4 i E) as (r & idxs & Hw & Hx).
  apply (NoDup_app_disjoint _ _ i I1 Hi).
  unfold written. apply in_concat. exists idxs. split; [|exact Hx].
  apply in_map_iff. exists (r, idxs). split; [reflexivity|exact Hw].
Qed.

(** Under the invariant a pass leaves the nonzero labels alone. *)
Lemma labels_inv_step_keeps (mask : list bool) (orig : list nat)
    (labels : list Z) (writes : list (Z * list nat)) (plane_num : Z) (i : nat) :
  labels_inv orig labels writes plane_num ->
  nth i labels 0 <> 0 ->
  nth i (write_labels plane_num (keep_inliers mask orig) labels) 0 = nth i labels 0.
Proof.
  intros Hinv Hne. apply nth_write_labels_out. intro Hm.
  apply Hne. apply (labels_inv_live_zero _ _ _ _ _ Hinv).
  eapply Permutation_in; [symmetry; apply (keep_split_permutation mask)|].
  apply in_or_app. right. exact Hm.
Qed.

Lemma phase_b_keeps_labels (planes_cnt : Z) (cands : list Vec4f) (plane_num : Z)
    (st : PbState Global) (i : nat) :
  labels_inv (pb_orig st) (pb_labels st) (pb_writes st) plane_num ->
  nth i (pb_labels st) 0 <> 0 ->
  nth i (pb_labels (phase_b eigen_last_row randShuffle thr normal
                            normal_diff_thr planes_cnt cands plane_num st)) 0
  = nth i (pb_labels st) 0.
Proof.
  revert plane_num st. induction cands as [|cand rest IH];
    intros plane_num st Hinv Hne; [reflexivity|].
  simpl.
  set (lo := refine eigen_last_row randShuffle cand (pb_points st) thr normal
                    normal_diff_thr (pb_global st)) in *.
  pose proof (labels_inv_step (lo_inliers lo) _ _ _ _ Hinv) as Hstep.
  pose proof (labels_inv_step_keeps (lo_inliers lo) _ _ _ _ i Hinv Hne) as Hk.
  destruct (plane_num =? planes_cnt).
  - simpl. exact Hk.
  - rewrite IH; simpl; [exact Hk|exact Hstep|rewrite Hk; exact Hne].
Qed.

(** The passes before the last one, run on their own. *)
Lemma phase_b_app (planes_cnt : Z) (l1 l2 : list Vec4f) (plane_num : Z)
    (st : PbState Global) :
  plane_num + Z.of_nat (length l1) <= planes_cnt ->
  phase_b eigen_last_row randShuffle thr normal normal_diff_thr planes_cnt
          (l1 ++ l2) plane_num st
  = phase_b eigen_last_row randShuffle thr normal normal_diff_thr planes_cnt
            l2 (plane_num + Z.of_nat (length l1))
            (phase_b eigen_last_row randShuffle thr normal normal_diff_thr
                     planes_cnt l1 plane_num st).
Proof.
  revert plane_num st. induction l1 as [|c l1 IH]; intros plane_num st Hle.
  - simpl. rewrite Z.add_0_r. reflexivity.
  - simpl length in Hle. simpl.
    replace (plane_num =? planes_cnt) with false
      by (symmetry; apply Z.eqb_neq; lia).
    rewrite IH by lia. f_equal. lia.
Qed.

Lemma phase_b_prefix_inv (planes_cnt : Z) (l : list Vec4f) (plane_num : Z)
    (st : PbState Global) :
  plane_num + Z.of_nat (length l) <= planes_cnt ->
  labels_inv (pb_orig st) (pb_labels st) (pb_writes st) plane_num ->
  let st' := phase_b eigen_last_row randShuffle thr normal normal_diff_thr
                     planes_cnt l plane_num st in
  labels_inv (pb_orig st') (pb_labels st') (pb_writes st')
             (plane_num + Z.of_nat (length l)).
Proof.
  revert plane_num st. induction l as [|c l IH]; intros plane_num st Hle Hinv.
  - simpl. rewrite Z.add_0_r. exact Hinv.
  - simpl length in Hle. simpl.
    replace (plane_num =? planes_cnt) with false
      by (symmetry; apply Z.eqb_neq; lia).
    set (lo := refine eigen_last_row randShuffle c (pb_points st) thr normal
                      normal_diff_thr (pb_global st)) in *.
    pose proof (labels_inv_step (lo_inliers lo) _ _ _ _ Hinv) as Hstep.
    match goal with |- context [phase_b _ _ _ _ _ _ l ?pn ?s] =>
      pose proof (IH pn s ltac:(lia) Hstep) as H end.
    simpl in H.
    replace (plane_num + Z.pos (Pos.of_succ_nat (length l)))
      with (plane_num + 1 + Z.of_nat (length l)) by lia.
    exact H.
Qed.

(** One pass of the second loop: the label written is the pass number, at
    the original indices of the refined plane's inliers, and unless the pass
    is the last one those indices leave the working set. *)
Lemma phase_b_one (planes_cnt : Z) (cand : Vec4f) (plane_num : Z)
    (st : PbState Global) :
  let out := phase_b eigen_last_row randShuffle thr normal normal_diff_thr
                     planes_cnt [cand] plane_num st in
  let lo := refine eigen_last_row randShuffle cand (pb_points st) thr normal
                   normal_diff_thr (pb_global st) in
  let marked := keep_inliers (lo_inliers lo) (pb_orig st) in
  pb_labels out = write_labels plane_num marked (pb_labels st)
  /\ pb_writes out = (plane_num, marked) :: pb_writes st
  /\ (plane_num <> planes_cnt ->
      pb_orig out = keep_outliers (lo_inliers lo) (pb_orig st)).
Proof.
  simpl. destruct (plane_num =? planes_cnt) eqn:E; simpl.
  - split; [reflexivity|split; [reflexivity|]].
    intro H. apply Z.eqb_eq in E. contradiction.
  - split; [reflexivity|split; reflexivity].
Qed.

(** The log only grows. *)
Lemma phase_b_writes_suffix (planes_cnt : Z) (cands : list Vec4f)
    (plane_num : Z) (st : PbState Global) :
  exists l,
    pb_writes (phase_b eigen_last_row randShuffle thr normal normal_diff_thr
                       planes_cnt cands plane_num st)
    = l ++ pb_writes st.
Proof.
  revert plane_num st. induction cands as [|c rest IH]; intros plane_num st.
  - exists []. reflexivity.
  - simpl.
    set (lo := refine eigen_last_row randShuffle c (pb_points st) thr normal
                      normal_diff_thr (pb_global st)) in *.
    destruct (plane_num =? planes_cnt).
    + simpl. exists [(plane_num, keep_inliers (lo_inliers lo) (pb_orig st))].
      reflexivity.
    + match goal with |- context [phase_b _ _ _ _ _ _ rest ?p ?s] =>
        destruct (IH p s) as [l Hl] end.
      rewrite Hl. simpl.
      exists (l ++ [(plane_num, keep_inliers (lo_inliers lo) (pb_orig st))]).
      rewrite <- app_assoc. reflexivity.
Qed.

(** The passes log their numbers, counting up from [plane_num]. *)
Lemma phase_b_write_numbers (planes_cnt : Z) (cands : list Vec4f)
    (plane_num : Z) (st : PbState Global) :
  plane_num + Z.of_nat (length cands) <= planes_cnt + 1 ->
  map fst (pb_writes (phase_b eigen_last_row randShuffle thr normal
                              normal_diff_thr planes_cnt cands plane_num st))
  = rev (map (fun j => plane_num + Z.of_nat j) (seq 0 (length cands)))
    ++ map fst (pb_writes st).
Proof.
  revert plane_num st. induction cands as [|c rest IH]; intros plane_num st Hle.
  - reflexivity.
  - simpl length in Hle. cbn [phase_b].
    destruct (plane_num =? planes_cnt) eqn:E.
    + apply Z.eqb_eq in E. destruct rest as [|c' rest]; [|simpl length in Hle; lia].
      simpl. rewrite Z.add_0_r. reflexivity.
    + apply Z.eqb_neq in E. rewrite IH by lia.
      cbn [pb_writes map fst length seq]. rewrite <- seq_shift, map_map.
      cbn [rev]. rewrite <- app_assoc. cbn [app].
      rewrite Z.add_0_r. f_equal. f_equal. apply map_ext. intro j. lia.
Qed.

Lemma firstn_succ_nth {A : Type} (l : list A) (k : nat) (d : A) :
  (k < length l)%nat -> firstn (S k) l = firstn k l ++ [nth k l d].
Proof.
  revert k. induction l as [|x l IH]; intros k Hk; simpl in Hk; [lia|].
  destruct k as [|k]; [reflexivity|].
  change (x :: firstn (S k) l = x :: (firstn k l ++ [nth k l d])).
  rewrite IH by lia. reflexivity.
Qed.

(** C10: over the whole second loop of [get_planes] no original index is
    written twice (the indices marked by the passes are pairwise distinct
    and each pass has its own number), every index a pass marked still
    carries that pass's number at the end, and every label is [0] or the
    number of the pass that marked its point.  [after k] is the state after
    the first [k] passes, from which the remaining passes lead to the final
    state: the indices still in the working set then have the label [0],
    and the nonzero labels are already the final ones.  The passes are
    numbered [1], [2], ... in the order of the planes found; pass [1 + k]
    writes its own number [1 + k] at the original indices of the inliers
    of its refined plane, which had the label [0] and, unless the pass is
    the last one, leave the working set; so a nonzero label is the number
    of the one pass in which its point was marked. *)
Theorem labels_written_at_most_once (planes : list Vec4f) (cloud : list Point)
    (max_iterations desired_num_planes : Z) (grid_size : float) (g : Global) :
  let st := get_planes_state eigen_last_row rng_default rng_uniform randShuffle
              c_log c_pow VoxelGrid planes cloud thr max_iterations
              desired_num_planes grid_size normal normal_diff_thr g in
  let fit := cloud_for_fit VoxelGrid cloud grid_size in
  let found := phase_a eigen_last_row rng_default rng_uniform randShuffle c_log
                 c_pow thr max_iterations desired_num_planes normal
                 normal_diff_thr (Z.to_nat desired_num_planes) 1 fit
                 (repeat false (length fit)) g [] in
  let planes_cnt := Z.of_nat (length (fst found)) in
  let after k :=
    phase_b eigen_last_row randShuffle thr normal normal_diff_thr planes_cnt
            (firstn k (fst found)) 1 (phase_b_init planes cloud (snd found)) in
  NoDup (written (pb_writes st))
  /\ NoDup (map fst (pb_writes st))
  /\ (forall r idxs, In (r, idxs) (pb_writes st) ->
        1 <= r /\ forall i, In i idxs -> nth i (pb_labels st) 0 = r)
  /\ (forall i, nth i (pb_labels st) 0 = 0
                \/ exists r idxs, In (r, idxs) (pb_writes st) /\ In i idxs
                                  /\ nth i (pb_labels st) 0 = r)
  /\ (forall k, (k < length (fst found))%nat ->
        st = phase_b eigen_last_row randShuffle thr normal normal_diff_thr
                     planes_cnt (skipn k (fst found)) (1 + Z.of_nat k) (after k)
        /\ (forall i, In i (pb_orig (after k)) ->
                      nth i (pb_labels (after k)) 0 = 0)
        /\ (forall i, nth i (pb_labels (after k)) 0 <> 0 ->
                      nth i (pb_labels st) 0 = nth i (pb_labels (after k)) 0))
  /\ st = after (length (fst found))
  /\ map fst (pb_writes st)
     = rev (map (fun j => 1 + Z.of_nat j) (seq 0 (length (fst found))))
  /\ (forall k, (k < length (fst found))%nat ->
        let prev := after k in
        let lo := refine eigen_last_row randShuffle (nth k (fst found) vec4_zero)
                         (pb_points prev) thr normal normal_diff_thr
                         (pb_global prev) in
        let marked := keep_inliers (lo_inliers lo) (pb_orig prev) in
        pb_labels (after (S k))
        = write_labels (1 + Z.of_nat k) marked (pb_labels prev)
        /\ pb_writes (after (S k)) = (1 + Z.of_nat k, marked) :: pb_writes prev
        /\ ((S k < length (fst found))%nat ->
            pb_orig (after (S k)) = keep_outliers (lo_inliers lo) (pb_orig prev))
        /\ (forall i, In i marked ->
              nth i (pb_labels prev) 0 = 0
              /\ nth i (pb_labels (after (S k))) 0 = 1 + Z.of_nat k
              /\ nth i (pb_labels st) 0 = 1 + Z.of_nat k))
  /\ (forall i, nth i (pb_labels st) 0 <> 0 ->
        exists k, (k < length (fst found))%nat
          /\ nth i (pb_labels st) 0 = 1 + Z.of_nat k
          /\ In i (pb_orig (after k))
          /\ nth i (pb_labels (after k)) 0 = 0
          /\ nth i (pb_labels (after (S k))) 0 = 1 + Z.of_nat k
          /\ ((S k < length (fst found))%nat -> ~ In i (pb_orig (after (S k))))).
Proof.
  intros st fit found planes_cnt after.
  assert (Est : st = phase_b eigen_last_row randShuffle thr normal
                             normal_diff_thr planes_cnt (fst found) 1
                             (phase_b_init planes cloud (snd found))).
  { unfold st, get_planes_state. fold fit. fold found.
    destruct found as [planes_ g1]. reflexivity. }
  clearbody st found. subst st.
  pose proof (labels_inv_init (length cloud)) as Hinit.
  destruct (phase_b_labels_inv planes_cnt (fst found) 1
              (phase_b_init planes cloud (snd found)) Hinit)
    as (orig & pn' & I1 & I2 & I3 & I4 & I5 & I6).
  set (fin := phase_b eigen_last_row randShuffle thr normal normal_diff_thr
                      planes_cnt (fst found) 1
                      (phase_b_init planes cloud (snd found))) in *.
  assert (Hlen : forall k, (k < length (fst found))%nat ->
                   length (firstn k (fst found)) = k)
    by (intros k Hk; rewrite length_firstn; lia).
  assert (Hle : forall k, (k < length (fst found))%nat ->
                  1 + Z.of_nat (length (firstn k (fst found))) <= planes_cnt)
    by (intros k Hk; rewrite Hlen by exact Hk; unfold planes_cnt; lia).
  assert (Hmid : forall k, (k < length (fst found))%nat ->
                   labels_inv (pb_orig (after k)) (pb_labels (after k))
                              (pb_writes (after k)) (1 + Z.of_nat k)).
  { intros k Hk.
    pose proof (phase_b_prefix_inv planes_cnt (firstn k (fst found)) 1
                  (phase_b_init planes cloud (snd found)) (Hle k Hk) Hinit) as H.
    fold (after k) in H. cbv zeta in H. rewrite Hlen in H by exact Hk. exact H. }
  assert (Efin : forall k, (k < length (fst found))%nat ->
                   fin = phase_b eigen_last_row randShuffle thr normal
                           normal_diff_thr planes_cnt (skipn k (fst found))
                           (1 + Z.of_nat k) (after k)).
  { intros k Hk. unfold fin. rewrite <- (firstn_skipn k (fst found)) at 1.
    rewrite phase_b_app by exact (Hle k Hk). rewrite Hlen by exact Hk.
    reflexivity. }
  assert (Eall : fin = after (length (fst found)))
    by (unfold after; rewrite firstn_all; reflexivity).
  set (marked := fun k =>
         keep_inliers
           (lo_inliers (refine eigen_last_row randShuffle
                               (nth k (fst found) vec4_zero)
                               (pb_points (after k)) thr normal normal_diff_thr
                               (pb_global (after k))))
           (pb_orig (after k))).
  assert (Hone : forall k, (k < length (fst found))%nat ->
            pb_labels (after (S k))
            = write_labels (1 + Z.of_nat k) (marked k) (pb_labels (after k))
            /\ pb_writes (after (S k))
               = (1 + Z.of_nat k, marked k) :: pb_writes (after k)
            /\ ((S k < length (fst found))%nat ->
                pb_orig (after (S k))
                = keep_outliers
                    (lo_inliers (refine eigen_last_row randShuffle
                                        (nth k (fst found) vec4_zero)
                                        (pb_points (after k)) thr normal
                                        normal_diff_thr (pb_global (after k))))
                    (pb_orig (after k)))).
  { intros k Hk.
    assert (E : after (S k)
                = phase_b eigen_last_row randShuffle thr normal normal_diff_thr
                          planes_cnt [nth k (fst found) vec4_zero]
                          (1 + Z.of_nat k) (after k)).
    { unfold after. rewrite (firstn_succ_nth _ _ vec4_zero Hk).
      rewrite phase_b_app by exact (Hle k Hk). rewrite Hlen by exact Hk.
      reflexivity. }
    rewrite E.
    destruct (phase_b_one planes_cnt (nth k (fst found) vec4_zero)
                (1 + Z.of_nat k) (after k)) as (P1 & P2 & P3).
    split; [exact P1|split; [exact P2|]].
    intro Hlt. apply P3. unfold planes_cnt. lia. }
  assert (Hsuf : forall k, (k <= length (fst found))%nat ->
            exists l, pb_writes fin = l ++ pb_writes (after k)).
  { intros k Hk. destruct (Nat.eq_dec k (length (fst found))) as [->|Hne].
    - exists []. rewrite <- Eall. reflexivity.
    - assert (Hk' : (k < length (fst found))%nat) by lia.
      pose proof (phase_b_writes_suffix planes_cnt (skipn k (fst found))
                    (1 + Z.of_nat k) (after k)) as H.
      rewrite <- (Efin k Hk') in H. exact H. }
  assert (Hsub : forall k i, In i (marked k) -> In i (pb_orig (after k))).
  { intros k i Hi. eapply Permutation_in;
      [symmetry; apply (keep_split_permutation
         (lo_inliers (refine eigen_last_row randShuffle
                             (nth k (fst found) vec4_zero)
                             (pb_points (after k)) thr normal normal_diff_thr
                             (pb_global (after k)))))|].
    apply in_or_app. right. exact Hi. }
  assert (Hmark : forall k, (k < length (fst found))%nat ->
            forall i, In i (marked k) ->
              nth i (pb_labels (after k)) 0 = 0
              /\ nth i (pb_labels (after (S k))) 0 = 1 + Z.of_nat k
              /\ nth i (pb_labels fin) 0 = 1 + Z.of_nat k).
  { intros k Hk i Hi. destruct (Hone k Hk) as (P1 & P2 & _).
    pose proof (Hmid k Hk) as Hinv. pose proof (Hsub k i Hi) as Hlive.
    split; [eapply labels_inv_live_zero; [exact Hinv|exact Hlive]|].
    split.
    - rewrite P1. apply nth_write_labels_in; [exact Hi|].
      destruct Hinv as (_ & J2 & _). apply J2. exact Hlive.
    - destruct (Hsuf (S k) ltac:(lia)) as [l Hl].
      assert (Hw : In (1 + Z.of_nat k, marked k) (pb_writes fin)).
      { rewrite Hl, P2. apply in_or_app. right. left. reflexivity. }
      destruct (I3 _ _ Hw) as [_ Hx]. apply Hx. exact Hi. }
  assert (Hlog : forall k, (k <= length (fst found))%nat ->
            forall w, In w (pb_writes (after k)) ->
              exists j, (j < k)%nat /\ w = (1 + Z.of_nat j, marked j)).
  { induction k as [|k IH]; intros Hk w Hw.
    - unfold after in Hw. simpl in Hw. contradiction.
    - destruct (Hone k ltac:(lia)) as (_ & P2 & _). rewrite P2 in Hw.
      destruct Hw as [<-|Hw]; [exists k; split; [lia|reflexivity]|].
      destruct (IH ltac:(lia) w Hw) as (j & Hj & Ej).
      exists j. split; [lia|exact Ej]. }
  split; [|split; [|split; [|split; [|split; [|split; [|split; [|split]]]]]]].
  - apply NoDup_app_remove_l in I1. exact I1.
  - exact I6.
  - intros r idxs H. destruct (I3 r idxs H) as [Hr Hl]. split; [lia|exact Hl].
  - intro i. destruct (Z.eq_dec (nth i (pb_labels fin) 0) 0) as [E|E];
      [left; exact E|right].
    destruct (I4 i E) as (r & idxs & Hw & Hx).
    exists r, idxs. repeat split; try assumption.
    destruct (I3 r idxs Hw) as [_ Hl]. apply Hl. exact Hx.
  - intros k Hk.
    split; [exact (Efin k Hk)|]. split.
    + intros i Hi. eapply labels_inv_live_zero; [exact (Hmid k Hk)|exact Hi].
    + intros i Hne. rewrite (Efin k Hk).
      apply phase_b_keeps_labels; [exact (Hmid k Hk)|exact Hne].
  - exact Eall.
  - unfold fin. rewrite phase_b_write_numbers by (unfold planes_cnt; lia).
    simpl. rewrite app_nil_r. reflexivity.
  - intros k Hk prev lo marked_k. destruct (Hone k Hk) as (P1 & P2 & P3).
    split; [exact P1|split; [exact P2|split; [exact P3|]]].
    intros i Hi. exact (Hmark k Hk i Hi).
  - intros i Hne. destruct (I4 i Hne) as (r & idxs & Hw & Hx).
    rewrite Eall in Hw.
    destruct (Hlog _ (Nat.le_refl _) _ Hw) as (k & Hk & Ek).
    injection Ek as -> ->.
    destruct (Hmark k Hk i Hx) as (M1 & M2 & M3).
    exists k. split; [exact Hk|]. split; [exact M3|].
    split; [exact (Hsub k i Hx)|]. split; [exact M1|]. split; [exact M2|].
    intros Hlt Hlive.
    pose proof (labels_inv_live_zero _ _ _ _ _ (Hmid (S k) Hlt) Hlive) as Hz.
    rewrite M2 in Hz. lia.
Qed.

(** ** The returned list, by rank *)

Lemma insert_at_cons {A : Type} (e : nat) (x a : A) (l : list A) :
  insert_at (S e) x (a :: l) = a :: insert_at e x l.
Proof. reflexivity. Qed.

(** The rank scan and the two insertions on lists that are given by the
    pass indices [order]: pass [k], later than all of [order], goes before
    the first pass whose count is not above its own. *)
Lemma rank_insert_step {A : Type} (count : nat -> Z) (model : nat -> A)
    (planes0 : list A) (k : nat) (order : list nat) :
  0 <= count k ->
  Forall (fun j => (j < k)%nat) order ->
  StronglySorted (fun i j => count j < count i
                             \/ (count j = count i /\ (j < i)%nat)) order ->
  let e := scan_rank (count k) (map count order ++ [0]) in
  insert_at e (count k) (map count order ++ [0])
  = map count (insert_at e k order) ++ [0]
  /\ insert_at e (model k) (map model order ++ planes0)
     = map model (insert_at e k order) ++ planes0
  /\ StronglySorted (fun i j => count j < count i
                                \/ (count j = count i /\ (j < i)%nat))
                    (insert_at e k order)
  /\ Permutation (insert_at e k order) (k :: order).
Proof.
  intros H0 Hlt Hs. induction order as [|a rest IH].
  - simpl. replace (count k <? 0) with false by (symmetry; apply Z.ltb_ge; lia).
    unfold insert_at. simpl.
    split; [reflexivity|split; [reflexivity|split]].
    + constructor; constructor.
    + apply Permutation_refl.
  - inversion Hlt as [|? ? Ha Hrest]; subst.
    inversion Hs as [|? ? Hs' Hall]; subst.
    cbn [map app scan_rank].
    destruct (count k <? count a) eqn:E.
    + apply Z.ltb_lt in E. specialize (IH Hrest Hs'). cbv zeta in IH.
      destruct IH as (I1 & I2 & I3 & I4).
      rewrite !insert_at_cons. rewrite I1, I2.
      split; [reflexivity|split; [reflexivity|split]].
      * constructor; [exact I3|].
        eapply Permutation_Forall; [symmetry; exact I4|].
        constructor; [left; exact E|exact Hall].
      * eapply perm_trans; [apply perm_skip; exact I4|apply perm_swap].
    + apply Z.ltb_ge in E. unfold insert_at. simpl.
      split; [reflexivity|split; [reflexivity|split]].
      * constructor; [exact Hs|].
        constructor; [lia|].
        rewrite Forall_forall in Hall, Hrest |- *. intros b Hb.
        specialize (Hall b Hb). specialize (Hrest b Hb). simpl in Hrest. lia.
      * apply Permutation_refl.
Qed.

(** One pass of the second loop: where the refined plane and its count go. *)
Lemma phase_b_one_rank (planes_cnt : Z) (cand : Vec4f) (plane_num : Z)
    (st : PbState Global) :
  let out := phase_b eigen_last_row randShuffle thr normal normal_diff_thr
                     planes_cnt [cand] plane_num st in
  let lo := refine eigen_last_row randShuffle cand (pb_points st) thr normal
                   normal_diff_thr (pb_global st) in
  let e := scan_rank (lo_best_inls lo) (pb_inls_num st) in
  pb_inls_num out = insert_at e (lo_best_inls lo) (pb_inls_num st)
  /\ pb_planes out = insert_at e (lo_best_model lo) (pb_planes st).
Proof.
  simpl. destruct (plane_num =? planes_cnt); simpl; split; reflexivity.
Qed.

(** C3, as the code has it: the scan stops at the first entry that is not
    above the new count, so in a descending list every entry before the
    insertion point is strictly larger and every entry from it on (the equal
    ones included) is smaller or equal, and the list stays descending; the
    counts kept by [get_planes] are descending, one per plane of the output
    vector plus the closing [0], when the caller's vector is empty.  The
    returned vector itself: with [refined k] the refit of pass [1 + k] on
    the working cloud [after k] leaves it, and [count k] the number of
    points of that cloud within the threshold of the refined plane, the
    vector holds the refined planes of all passes, in front of what the
    caller's vector held, and [plane_inls_num] holds their counts in the
    same order, closed by [0]; a plane stands before every plane of
    strictly smaller count, and of two planes of equal count the one found
    later stands first.  Every pass inserts plane and count at the position
    the scan stops at. *)
Theorem ranked_list_descending :
  (forall best_inls plane_inls_num,
      descending plane_inls_num ->
      let e := scan_rank best_inls plane_inls_num in
      Forall (fun n => best_inls < n) (firstn e plane_inls_num)
      /\ Forall (fun n => n <= best_inls) (skipn e plane_inls_num)
      /\ descending (insert_at e best_inls plane_inls_num))
  /\ (forall cloud max_iterations desired_num_planes grid_size g,
        let st := get_planes_state eigen_last_row rng_default rng_uniform
                    randShuffle c_log c_pow VoxelGrid [] cloud thr
                    max_iterations desired_num_planes grid_size normal
                    normal_diff_thr g in
        descending (pb_inls_num st)
        /\ length (pb_inls_num st) = S (length (pb_planes st)))
  /\ (forall planes cloud max_iterations desired_num_planes grid_size g,
        let st := get_planes_state eigen_last_row rng_default rng_uniform
                    randShuffle c_log c_pow VoxelGrid planes cloud thr
                    max_iterations desired_num_planes grid_size normal
                    normal_diff_thr g in
        let fit := cloud_for_fit VoxelGrid cloud grid_size in
        let found := phase_a eigen_last_row rng_default rng_uniform randShuffle
                       c_log c_pow thr max_iterations desired_num_planes normal
                       normal_diff_thr (Z.to_nat desired_num_planes) 1 fit
                       (repeat false (length fit)) g [] in
        let planes_cnt := Z.of_nat (length (fst found)) in
        let after k :=
          phase_b eigen_last_row randShuffle thr normal normal_diff_thr
                  planes_cnt (firstn k (fst found)) 1
                  (phase_b_init planes cloud (snd found)) in
        let refined k :=
          refine eigen_last_row randShuffle (nth k (fst found) vec4_zero)
                 (pb_points (after k)) thr normal normal_diff_thr
                 (pb_global (after k)) in
        let count k := lo_best_inls (refined k) in
        (forall k, count k
                   = count_true
                       (map (near (normalize_model (lo_best_model (refined k)))
                                  thr)
                            (pb_points (after k))))
        /\ (forall k, (k < length (fst found))%nat ->
              let e := scan_rank (count k) (pb_inls_num (after k)) in
              pb_inls_num (after (S k))
              = insert_at e (count k) (pb_inls_num (after k))
              /\ pb_planes (after (S k))
                 = insert_at e (lo_best_model (refined k)) (pb_planes (after k)))
        /\ st = after (length (fst found))
        /\ exists order : list nat,
             Permutation order (seq 0 (length (fst found)))
             /\ pb_planes st
                = map (fun k => lo_best_model (refined k)) order ++ planes
             /\ pb_inls_num st = map count order ++ [0]
             /\ StronglySorted
                  (fun i j => count j < count i
                              \/ (count j = count i /\ (j < i)%nat))
                  order).
Proof.
  split; [|split].
  - intros best l Hs e. repeat split.
    + apply scan_rank_before.
    + apply scan_rank_after. exact Hs.
    + apply insert_at_scan_rank_descending. exact Hs.
  - intros cloud max_iterations desired grid_size g st.
    unfold st, get_planes_state.
    match goal with |- context [phase_a ?a ?b ?c ?d ?e ?f ?t ?mi ?de ?n ?nd ?fu ?np ?cl ?il ?g0 ?pl] =>
      destruct (phase_a a b c d e f t mi de n nd fu np cl il g0 pl) as [planes_ g1]
    end.
    match goal with |- context [phase_b _ _ _ _ _ ?cnt ?cs ?pn ?s] =>
      destruct (phase_b_ranked cnt cs pn s) as (B1 & B2) end.
    split; [apply B1 | apply B2]; simpl; [|reflexivity].
    unfold descending. repeat constructor.
  - intros planes cloud max_iterations desired grid_size g st fit found
           planes_cnt after refined count.
    assert (Est : st = phase_b eigen_last_row randShuffle thr normal
                               normal_diff_thr planes_cnt (fst found) 1
                               (phase_b_init planes cloud (snd found))).
    { unfold st, get_planes_state. fold fit. fold found.
      destruct found as [planes_ g1]. reflexivity. }
    clearbody st found. subst st.
    assert (Eall : phase_b eigen_last_row randShuffle thr normal
                           normal_diff_thr planes_cnt (fst found) 1
                           (phase_b_init planes cloud (snd found))
                   = after (length (fst found)))
      by (unfold after; rewrite firstn_all; reflexivity).
    assert (Hcount : forall k,
              count k
              = count_true
                  (map (near (normalize_model (lo_best_model (refined k))) thr)
                       (pb_points (after k)))).
    { intro k.
      destruct (refine_count (nth k (fst found) vec4_zero) (pb_points (after k))
                  (pb_global (after k))) as (R1 & _ & R3).
      fold (refined k) in R1, R3. unfold count. rewrite R1, R3. reflexivity. }
    assert (Hone : forall k, (k < length (fst found))%nat ->
              let e := scan_rank (count k) (pb_inls_num (after k)) in
              pb_inls_num (after (S k))
              = insert_at e (count k) (pb_inls_num (after k))
              /\ pb_planes (after (S k))
                 = insert_at e (lo_best_model (refined k)) (pb_planes (after k))).
    { intros k Hk.
      assert (Hlen : length (firstn k (fst found)) = k)
        by (rewrite length_firstn; lia).
      assert (E : after (S k)
                  = phase_b eigen_last_row randShuffle thr normal
                            normal_diff_thr planes_cnt
                            [nth k (fst found) vec4_zero]
                            (1 + Z.of_nat k) (after k)).
      { unfold after. rewrite (firstn_succ_nth _ _ vec4_zero Hk).
        rewrite phase_b_app by (rewrite Hlen; unfold planes_cnt; lia).
        rewrite Hlen. reflexivity. }
      rewrite E.
      exact (phase_b_one_rank planes_cnt (nth k (fst found) vec4_zero)
               (1 + Z.of_nat k) (after k)). }
    split; [exact Hcount|split; [exact Hone|split; [exact Eall|]]].
    rewrite Eall.
    assert (Hind : forall k, (k <= length (fst found))%nat ->
              exists order : list nat,
                Permutation order (seq 0 k)
                /\ pb_planes (after k)
                   = map (fun k => lo_best_model (refined k)) order ++ planes
                /\ pb_inls_num (after k) = map count order ++ [0]
                /\ StronglySorted
                     (fun i j => count j < count i
                                 \/ (count j = count i /\ (j < i)%nat))
                     order).
    { induction k as [|k IH]; intro Hk.
      - exists []. split; [apply Permutation_refl|].
        split; [reflexivity|split; [reflexivity|constructor]].
      - destruct (IH ltac:(lia)) as (order & P1 & P2 & P3 & P4).
        destruct (Hone k ltac:(lia)) as (O1 & O2).
        assert (H0 : 0 <= count k)
          by (rewrite Hcount; apply count_true_nonneg).
        assert (Hlt : Forall (fun j => (j < k)%nat) order).
        { apply Forall_forall. intros j Hj.
          apply (Permutation_in _ P1), in_seq in Hj. lia. }
        destruct (rank_insert_step count (fun k => lo_best_model (refined k))
                    planes k order H0 Hlt P4) as (S1 & S2 & S3 & S4).
        rewrite P3 in O1. rewrite P3, P2 in O2.
        exists (insert_at (scan_rank (count k) (map count order ++ [0])) k order).
        split; [|split; [|split]].
        + rewrite seq_S. simpl.
          eapply perm_trans; [exact S4|].
          eapply perm_trans; [apply perm_skip; exact P1|].
          apply Permutation_cons_append.
        + rewrite O2. exact S2.
        + rewrite O1. exact S1.
        + exact S3. }
    exact (Hind _ (Nat.le_refl _)).
Qed.

End PipelineFacts.

(** * Runs on concrete clouds *)

Lemma adaptive_budget_never_grows_witness :
  INT_MIN <= 200
  /\ (let run k :=
        get_plane_loop Run.eigen_axis Run.rng_count Run.shuffle_id
          Run.log_series Run.pow3 Run.cloud_3_4 Run.half None Run.thr_normal k
          (mkGp 0 200 vec4_zero 0 0 [] (seq 0 (length Run.cloud_3_4)) O tt) in
      map (fun k => (gp_best_inls (run k), gp_max_iterations (run k)))
          [0; 1; 2; 3]%nat
      = [(0, 200); (3, 109); (4, 43); (4, 43)]
      /\ gp_max_iterations (run (Z.to_nat 200)) <= gp_iter (run (Z.to_nat 200))
      /\ (gp_best_inls (run 1%nat) <> gp_best_inls (run 0%nat) ->
          let ratio := (F32.of_Z (gp_best_inls (run 1%nat))
                        / F32.of_Z (Z.of_nat (length Run.cloud_3_4)))%f32 in
          let cap :=
            ((F64.of_Z 3
              * Run.log_series
                  (F64.of_Z 1 - S754_finite false 8556839292003942 (-53)))
             / Run.log_series
                 (F64.of_Z 1 - Run.pow3 (F64.of_float ratio) (F64.of_Z 3)))%f64 in
          gp_max_iterations (run 1%nat)
          = if negb (isinf cap) && double_lt_int cap (gp_max_iterations (run 0%nat))
            then double_to_int cap else gp_max_iterations (run 0%nat))).
Proof.
  assert (H : INT_MIN <= 200) by (unfold INT_MIN; lia).
  split; [exact H|].
  pose proof (adaptive_budget_never_grows Run.eigen_axis nat O Run.rng_count unit
                Run.shuffle_id Run.log_series Run.pow3 Run.half None
                Run.thr_normal Run.cloud_3_4 vec4_zero [] 200 tt H) as T.
  cbv zeta in T. destruct T as (_ & _ & _ & _ & Texit & Tcap & _).
  intro run. split; [vm_compute; reflexivity|].
  split; [exact Texit|exact (Tcap 0%nat)].
Defined.



Lemma ranked_list_descending_witness :
  descending [3; 0]
  /\ Forall (fun n => 3 < n) (firstn (scan_rank 3 [3; 0]) [3; 0])
  /\ Forall (fun n => n <= 3) (skipn (scan_rank 3 [3; 0]) [3; 0])
  /\ descending (insert_at (scan_rank 3 [3; 0]) 3 [3; 0])
  /\ (let found := phase_a Run.eigen_axis O Run.rng_count Run.shuffle_id
                     Run.log_series Run.pow3 Run.half 1 2 None Run.thr_normal
                     (Z.to_nat 2) 1 Run.cloud_3_3
                     (repeat false (length Run.cloud_3_3)) tt [] in
      let after k :=
        phase_b Run.eigen_axis Run.shuffle_id Run.half None Run.thr_normal
                (Z.of_nat (length (fst found))) (firstn k (fst found)) 1
                (phase_b_init [] Run.cloud_3_3 (snd found)) in
      let refined k :=
        refine Run.eigen_axis Run.shuffle_id (nth k (fst found) vec4_zero)
               (pb_points (after k)) Run.half None Run.thr_normal
               (pb_global (after k)) in
      let count k := lo_best_inls (refined k) in
      map count [0; 1]%nat = [3; 3]
      /\ exists order : list nat,
           Permutation order (seq 0 (length (fst found)))
           /\ pb_planes (Run.run_state Run.cloud_3_3 1 2)
              = map (fun k => lo_best_model (refined k)) order ++ []
           /\ pb_inls_num (Run.run_state Run.cloud_3_3 1 2)
              = map count order ++ [0]
           /\ StronglySorted
                (fun i j => count j < count i
                            \/ (count j = count i /\ (j < i)%nat))
                order).
Proof.
  assert (H : descending [3; 0]).
  { unfold descending. repeat constructor. lia. }
  split; [exact H|].
  pose proof (ranked_list_descending Run.eigen_axis nat O Run.rng_count unit
                Run.shuffle_id Run.log_series Run.pow3 (fun pts _ => pts)
                Run.half None Run.thr_normal) as (T1 & _ & T3).
  destruct (T1 3 [3; 0] H) as (A1 & A2 & A3).
  split; [exact A1|split; [exact A2|split; [exact A3|]]].
  intros found after refined count.
  split; [vm_compute; reflexivity|].
  destruct (T3 [] Run.cloud_3_3 1 2 (Run.fz 0) tt) as (_ & _ & _ & E).
  exact E.
Defined.

(** C3, the claim as stated fails: on [cloud_3_3] the first loop finds the
    plane [z = 0] and then the plane [x = 10]; both get the count [3] in the
    second loop, and the later one is inserted before the earlier one. *)
Lemma equal_count_goes_before_earlier_plane :
  Run.run_phase_a Run.cloud_3_3 1 2 = [Run.fitted_z0; Run.fitted_x10]
  /\ pb_inls_num (Run.run_state Run.cloud_3_3 1 2) = [3; 3; 0]
  /\ pb_planes (Run.run_state Run.cloud_3_3 1 2) = [Run.fitted_x10; Run.fitted_z0]
  /\ scan_rank 3 [3; 0] = 0%nat
  /\ insert_at (scan_rank 3 [3; 0]) 3 [3; 0] = [3; 3; 0].
Proof. vm_compute. repeat split. Qed.

(** C2, the claim as stated fails: on a plane of [22] points the refit of
    the second loop is passed [22] sample indices, more than [20]. *)
Lemma second_loop_refit_takes_22_samples :
  pb_samples (Run.run_state Run.cloud_grid22 2 1) = [22]
  /\ ~ Forall (fun c => c <= 20) (pb_samples (Run.run_state Run.cloud_grid22 2 1)).
Proof.
  assert (E : pb_samples (Run.run_state Run.cloud_grid22 2 1) = [22])
    by (vm_compute; reflexivity).
  split; [exact E|]. rewrite E. intro H. inversion H; subst. lia.
Qed.

(** C1, the code at the failing input: on [cloud_3_4] the labels are the
    pass numbers [1] (the three points of [z = 0]) and [2] (the four points
    of [x = 10]), while the returned vector lists [x = 10] first; the point
    [(0, 0, 0)], labelled [1], is not within the threshold of the first
    returned plane but of the second. *)
Theorem label_is_pass_number_not_rank :
  Run.run_get_planes Run.cloud_3_4 1 2
  = ([1; 1; 1; 2; 2; 2; 2], [Run.fitted_x10; Run.fitted_z0])
  /\ pb_inls_num (Run.run_state Run.cloud_3_4 1 2) = [4; 3; 0]
  /\ near (normalize_model Run.fitted_x10) Run.half (Run.pt 0 0 0) = false
  /\ near (normalize_model Run.fitted_z0) Run.half (Run.pt 0 0 0) = true.
Proof. vm_compute. repeat split. Qed.

(** ** Negation in IEEE arithmetic *)

Section Negation.

Variables prec emax : Z.

Lemma binary_round_aux_opp (s : bool) (m e : Z) (l : location) :
  binary_round_aux prec emax (negb s) m e l
  = SFopp (binary_round_aux prec emax s m e l).
Proof.
  unfold binary_round_aux.
  destruct (shr_fexp prec emax m e l) as [mrs' e'].
  destruct (shr_fexp prec emax _ e' loc_Exact) as [mrs'' e''].
  destruct (shr_m mrs''); try reflexivity.
  destruct (e'' <=? emax - prec); reflexivity.
Qed.

Lemma binary_round_opp (s : bool) (m : positive) (e : Z) :
  binary_round prec emax (negb s) m e = SFopp (binary_round prec emax s m e).
Proof.
  unfold binary_round. destruct (shl_align m e _) as [mz ez].
  apply binary_round_aux_opp.
Qed.

Lemma SFmul_opp_l (x y : spec_float) :
  SFmul prec emax (SFopp x) y = SFopp (SFmul prec emax x y).
Proof.
  destruct x as [sx|sx| |sx mx ex], y as [sy|sy| |sy my ey]; simpl;
    try reflexivity; try (destruct sx, sy; reflexivity).
  rewrite <- binary_round_aux_opp. destruct sx, sy; reflexivity.
Qed.

Lemma SFmul_opp_opp (x y : spec_float) :
  SFmul prec emax (SFopp x) (SFopp y) = SFmul prec emax x y.
Proof.
  destruct x as [sx|sx| |sx mx ex], y as [sy|sy| |sy my ey]; simpl;
    try reflexivity; destruct sx, sy; reflexivity.
Qed.

Lemma negated_opp (x : spec_float) : negated x (SFopp x).
Proof. left. reflexivity. Qed.

Lemma binary_normalize_opp (m e : Z) :
  negated (binary_normalize prec emax m e false)
          (binary_normalize prec emax (- m) e false).
Proof.
  destruct m as [|m|m]; simpl.
  - right. split; reflexivity.
  - left. apply (binary_round_opp false).
  - left. rewrite <- (binary_round_opp true). reflexivity.
Qed.

Lemma cond_Zopp_negb (s : bool) (m : Z) :
  cond_Zopp (negb s) m = - cond_Zopp s m.
Proof. destruct s; simpl; lia. Qed.

Lemma SFadd_negated (a a' b b' : spec_float) :
  negated a a' -> negated b b' ->
  negated (SFadd prec emax a b) (SFadd prec emax a' b').
Proof.
  intros [->|[Ha Ha']] [->|[Hb Hb']].
  - destruct a as [sa|sa| |sa ma ea], b as [sb|sb| |sb mb eb]; simpl;
      try (left; reflexivity);
      try (destruct sa, sb; simpl;
           first [left; reflexivity | right; split; reflexivity]).
    rewrite !cond_Zopp_negb, <- Z.opp_add_distr.
    apply binary_normalize_opp.
  - destruct b as [sb| | |]; try discriminate.
    destruct b' as [sb'| | |]; try discriminate.
    destruct a as [sa|sa| |sa ma ea]; simpl;
      try (left; reflexivity).
    destruct sa, sb, sb'; simpl; right; split; reflexivity.
  - destruct a as [sa| | |]; try discriminate.
    destruct a' as [sa'| | |]; try discriminate.
    destruct b as [sb|sb| |sb mb eb]; simpl;
      try (left; reflexivity).
    destruct sa, sa', sb; simpl; right; split; reflexivity.
  - destruct a as [sa| | |]; try discriminate.
    destruct a' as [sa'| | |]; try discriminate.
    destruct b as [sb| | |]; try discriminate.
    destruct b' as [sb'| | |]; try discriminate.
    destruct sa, sa', sb, sb'; simpl; right; split; reflexivity.
Qed.

Lemma SFmul_negated_square (x y : spec_float) :
  negated x y -> SFmul prec emax y y = SFmul prec emax x x.
Proof.
  intros [->|[Hx Hy]].
  - apply SFmul_opp_opp.
  - destruct x as [sx| | |]; try discriminate.
    destruct y as [sy| | |]; try discriminate.
    destruct sx, sy; reflexivity.
Qed.

End Negation.

Lemma of_float_negated (x y : spec_float) :
  negated x y -> negated (F64.of_float x) (F64.of_float y).
Proof.
  intros [->|[Hx Hy]].
  - destruct x as [sx|sx| |sx mx ex]; simpl; try (left; reflexivity).
    left. apply binary_round_opp.
  - destruct x as [sx| | |]; try discriminate.
    destruct y as [sy| | |]; try discriminate.
    right. split; reflexivity.
Qed.

(** ** check_same_normal *)

Lemma normal_dot_opp (p : Vec4f) (t : Vec3f) :
  negated (normal_dot p t) (normal_dot (opp_plane p) t).
Proof.
  unfold normal_dot, opp_plane. simpl.
  apply of_float_negated. unfold F32.add, F32.mul.
  rewrite !SFmul_opp_l.
  apply SFadd_negated; [apply SFadd_negated|]; apply negated_opp.
Qed.

Lemma sqr_modulu_plane_opp (p : Vec4f) :
  sqr_modulu_plane (opp_plane p) = sqr_modulu_plane p.
Proof.
  unfold sqr_modulu_plane, opp_plane. simpl. unfold F32.mul.
  rewrite !SFmul_opp_opp. reflexivity.
Qed.

(** C5, as the code has it: the check is the comparison
    [(dot*dot - |n|^2|t|^2)^2 <= thr * |n|^2|t|^2] evaluated in [double] on
    [float] dot products, and it gives the same verdict on the plane with
    the opposite normal, for all inputs (infinities and NaN included). *)
Theorem check_same_normal_accepts_opposite (p : Vec4f) (t : Vec3f) (thr : double) :
  check_same_normal p t thr
  = SFleb (((normal_dot p t * normal_dot p t)
            - (sqr_modulu_plane p * sqr_modulu_vec t))
           * ((normal_dot p t * normal_dot p t)
              - (sqr_modulu_plane p * sqr_modulu_vec t)))%f64
          (thr * (sqr_modulu_plane p * sqr_modulu_vec t))%f64
  /\ check_same_normal (opp_plane p) t thr = check_same_normal p t thr.
Proof.
  split; [reflexivity|].
  assert (E : (normal_dot (opp_plane p) t * normal_dot (opp_plane p) t)%f64
              = (normal_dot p t * normal_dot p t)%f64)
    by (apply SFmul_negated_square, normal_dot_opp).
  unfold check_same_normal. cbv zeta.
  rewrite sqr_modulu_plane_opp, E. reflexivity.
Qed.

(** C5, the claim as stated fails: the normal [(1, 0, 0)] passes against
    the target [(0, 1, 0)] with [thr = 1], the same normal scaled by [2]
    does not; scaling by [s] multiplies the left side by [s^4] and the right
    side by [s^2]. *)
Lemma check_same_normal_not_scale_invariant :
  is_zero (Run.fz 2) = false
  /\ check_same_normal (mkVec4 (Run.fz 1) (Run.fz 0) (Run.fz 0) (Run.fz 0))
                      (mkVec3 (Run.fz 0) (Run.fz 1) (Run.fz 0)) (F64.of_Z 1)
     = true
  /\ check_same_normal
       (scale_plane (Run.fz 2)
                    (mkVec4 (Run.fz 1) (Run.fz 0) (Run.fz 0) (Run.fz 0)))
       (mkVec3 (Run.fz 0) (Run.fz 1) (Run.fz 0)) (F64.of_Z 1)
     = false.
Proof. vm_compute. repeat split. Qed.

(** ** total_least_squares_plane_estimate on three samples *)

(** The branches of the estimator: with exactly three samples it fails
    whenever the value it computes for [|(ba.ca)^2 - |ba|^2 |ca|^2|] is
    below [0.0001], and it fails exactly when that test fires or the
    eigenvector read from [cv::eigen] has an infinite component or is
    exactly zero; with any other number of samples only the test on the
    eigenvector decides. *)
Theorem three_sample_fit_failure (eigen_last_row : list Vec3f -> Vec3f)
    (input : list Point) :
  (forall s0 s1 s2,
      collinear_test (pt_at input s0) (pt_at input s1) (pt_at input s2) = true ->
      total_least_squares_plane_estimate eigen_last_row input [s0; s1; s2] = None)
  /\ (forall s0 s1 s2,
        total_least_squares_plane_estimate eigen_last_row input [s0; s1; s2] = None
        <-> (SFltb (F64.of_float
                      (collinear_value (pt_at input s0) (pt_at input s1)
                                       (pt_at input s2)))
                   lit_0_0001 = true
             \/ bad_normal (fit_normal eigen_last_row input [s0; s1; s2]) = true))
  /\ (forall sample,
        length sample <> 3%nat ->
        (total_least_squares_plane_estimate eigen_last_row input sample = None
         <-> bad_normal (fit_normal eigen_last_row input sample) = true)).
Proof.
  split; [|split].
  - intros s0 s1 s2 H. unfold total_least_squares_plane_estimate.
    simpl. rewrite H. reflexivity.
  - intros s0 s1 s2. unfold total_least_squares_plane_estimate. simpl.
    fold (collinear_test (pt_at input s0) (pt_at input s1) (pt_at input s2)).
    destruct (collinear_test _ _ _); [split; auto|].
    destruct (bad_normal _); split; auto; try discriminate.
    intros [H|H]; discriminate.
  - intros sample Hlen. unfold total_least_squares_plane_estimate.
    replace (3 =? Z.of_nat (length sample)) with false
      by (symmetry; apply Z.eqb_neq; lia).
    simpl. destruct (bad_normal _); split; auto; discriminate.
Qed.

Lemma three_sample_fit_failure_witness :
  collinear_test (pt_at Run.cloud_line_small 0) (pt_at Run.cloud_line_small 1)
                 (pt_at Run.cloud_line_small 2) = true
  /\ total_least_squares_plane_estimate Run.eigen_axis Run.cloud_line_small
       [0; 1; 2]%nat = None.
Proof.
  assert (H : collinear_test (pt_at Run.cloud_line_small 0)
                             (pt_at Run.cloud_line_small 1)
                             (pt_at Run.cloud_line_small 2) = true)
    by (vm_compute; reflexivity).
  split; [exact H|].
  exact (proj1 (three_sample_fit_failure Run.eigen_axis Run.cloud_line_small)
               0%nat 1%nat 2%nat H).
Defined.

(** C7, the code at the failing input: the test that is to judge the
    collinearity of three points misses an exactly collinear sample.  The
    points [(0, 0, 0)], [(1001, 1003, 0)] and [(7007, 7021, 0)] lie on one
    line (their cross product is zero), yet the [float] value the test
    computes is [2^24], not below [0.0001], the test does not fire, and the
    fit returns the plane [z = 0]; the collinear sample [(0, 0, 0)],
    [(1, 2, 0)], [(3, 6, 0)] of small coordinates is rejected by the same
    test. *)
Theorem collinear_sample_accepted :
  map Run.coords Run.cloud_line
  = [(Some 0, Some 0, Some 0); (Some 1001, Some 1003, Some 0);
     (Some 7007, Some 7021, Some 0)]
  /\ Run.cross_Z (0, 0, 0) (1001, 1003, 0) (7007, 7021, 0) = (0, 0, 0)
  /\ Run.float_to_Z (collinear_value (pt_at Run.cloud_line 0)
                                     (pt_at Run.cloud_line 1)
                                     (pt_at Run.cloud_line 2)) = Some (2 ^ 24)
  /\ collinear_test (pt_at Run.cloud_line 0) (pt_at Run.cloud_line 1)
                    (pt_at Run.cloud_line 2) = false
  /\ total_least_squares_plane_estimate Run.eigen_axis Run.cloud_line
       [0; 1; 2]%nat = Some Run.fitted_z0
  /\ map Run.coords Run.cloud_line_small
     = [(Some 0, Some 0, Some 0); (Some 1, Some 2, Some 0);
        (Some 3, Some 6, Some 0)]
  /\ Run.cross_Z (0, 0, 0) (1, 2, 0) (3, 6, 0) = (0, 0, 0)
  /\ total_least_squares_plane_estimate Run.eigen_axis Run.cloud_line_small
       [0; 1; 2]%nat = None.
Proof. vm_compute. repeat split. Qed.

Lemma labels_written_at_most_once_witness :
  let fit := cloud_for_fit (fun pts _ => pts) Run.cloud_3_4 (Run.fz 0) in
  let found := phase_a Run.eigen_axis O Run.rng_count Run.shuffle_id
                 Run.log_series Run.pow3 Run.half 1 2 None Run.thr_normal
                 (Z.to_nat 2) 1 fit (repeat false (length fit)) tt [] in
  let after k :=
    phase_b Run.eigen_axis Run.shuffle_id Run.half None Run.thr_normal
            (Z.of_nat (length (fst found))) (firstn k (fst found)) 1
            (phase_b_init [] Run.cloud_3_4 (snd found)) in
  let marked_2 :=
    keep_inliers
      (lo_inliers (refine Run.eigen_axis Run.shuffle_id
                          (nth 1 (fst found) vec4_zero) (pb_points (after 1%nat))
                          Run.half None Run.thr_normal (pb_global (after 1%nat))))
      (pb_orig (after 1%nat)) in
  (1 < length (fst found))%nat
  /\ (forall i, In i (pb_orig (after 1%nat)) ->
                nth i (pb_labels (after 1%nat)) 0 = 0)
  /\ map (fun k => pb_labels (after k)) [0; 1; 2]%nat
     = [[0; 0; 0; 0; 0; 0; 0]; [1; 1; 1; 0; 0; 0; 0]; [1; 1; 1; 2; 2; 2; 2]]
  /\ marked_2 = [3; 4; 5; 6]%nat
  /\ pb_labels (after 2%nat)
     = write_labels (1 + Z.of_nat 1) marked_2 (pb_labels (after 1%nat))
  /\ pb_writes (after 2%nat)
     = (1 + Z.of_nat 1, marked_2) :: pb_writes (after 1%nat).
Proof.
  intros fit found after marked_2.
  assert (H : (1 < length (fst found))%nat) by (vm_compute; lia).
  split; [exact H|].
  pose proof (labels_written_at_most_once Run.eigen_axis nat O Run.rng_count
                unit Run.shuffle_id Run.log_series Run.pow3 (fun pts _ => pts)
                Run.half None Run.thr_normal [] Run.cloud_3_4 1 2 (Run.fz 0) tt)
    as T.
  cbv zeta in T. destruct T as (_ & _ & _ & _ & E & _ & _ & S & _).
  split; [exact (proj1 (proj2 (E 1%nat H)))|].
  split; [vm_compute; reflexivity|].
  split; [vm_compute; reflexivity|].
  destruct (S 1%nat H) as (S1 & S2 & _).
  split; [exact S1|exact S2].
Defined.

(** * Further properties of the code *)

(** ** get_inliers: what pruning can and cannot change *)

(** The second loop never counts more than the full evaluation, and a count
    it returns below the bound means that the full count is below the bound
    too: a [break] happens only when even [pts_size - p] further inliers
    would not reach it. *)
Lemma score_tail_sound (hit : Point -> bool) (pts_size best : Z)
    (pts : list Point) (p num : Z) :
  p + Z.of_nat (length pts) = pts_size ->
  snd (score_tail hit pts_size best p pts num) <= snd (score_head hit pts num)
  /\ (snd (score_tail hit pts_size best p pts num) < best ->
      snd (score_head hit pts num) < best).
Proof.
  revert p num. induction pts as [|pt rest IH]; intros p num Hp.
  - simpl. lia.
  - simpl length in Hp.
    assert (Hhead : score_head hit (pt :: rest) num
                    = (hit pt :: map hit rest,
                       (if hit pt then num + 1 else num) + count_true (map hit rest))).
    { rewrite score_head_spec. simpl map. rewrite count_true_cons.
      f_equal. destruct (hit pt); lia. }
    rewrite Hhead. simpl score_tail.
    pose proof (count_true_le_length (map hit rest)) as Hc.
    pose proof (count_true_nonneg (map hit rest)) as Hc0.
    rewrite length_map in Hc.
    destruct (_ <? best) eqn:Hbr.
    + apply Z.ltb_lt in Hbr. simpl. lia.
    + specialize (IH (p + 1) (if hit pt then num + 1 else num) ltac:(lia)).
      rewrite score_head_spec in IH. simpl snd in IH.
      destruct (score_tail hit pts_size best (p + 1) rest _) as [mask n].
      simpl in *. exact IH.
Qed.

Lemma get_inliers_sound (model : Vec4f) (pts : list Point) (thr : float)
    (best : Z) :
  snd (get_inliers model pts thr best) <= snd (get_inliers_all model pts thr)
  /\ (snd (get_inliers model pts thr best) < best ->
      snd (get_inliers_all model pts thr) < best).
Proof.
  rewrite get_inliers_all_spec. simpl snd.
  destruct (get_inliers_unfold model pts thr best) as [E Hlen]. rewrite E.
  simpl snd.
  match goal with |- context [score_tail ?h ?s ?b ?p ?l ?n] =>
    destruct (score_tail_sound h s b l p n Hlen) as [S1 S2] end.
  rewrite score_head_spec in S1, S2. simpl snd in S1, S2.
  rewrite <- count_true_app, <- map_app, firstn_skipn in S1, S2.
  split; assumption.
Qed.

(** X1: pruned scoring takes the same decisions as exhaustive scoring.
    Against any bound the pruned count is above (equal to) the bound
    exactly when the exhaustive count is, and the pruned count is never
    larger than the exhaustive one, which is at most the number of points. *)
Theorem pruning_decides_like_exhaustive (model : Vec4f) (pts : list Point)
    (thr : float) (best_inls : Z) :
  let n := snd (get_inliers model pts thr best_inls) in
  let full := snd (get_inliers model pts thr 0) in
  (best_inls <? n) = (best_inls <? full)
  /\ (best_inls =? n) = (best_inls =? full)
  /\ 0 <= n <= full
  /\ full <= Z.of_nat (length pts).
Proof.
  intros n full.
  destruct (get_inliers_sound model pts thr best_inls) as [S1 S2].
  fold n in S1, S2. change (snd (get_inliers_all model pts thr)) with full in S1, S2.
  assert (Hn0 : 0 <= n).
  { unfold n. destruct (get_inliers_count model pts thr best_inls) as [-> _].
    apply count_true_nonneg. }
  assert (Hfull : full <= Z.of_nat (length pts)).
  { unfold full. destruct (get_inliers_count model pts thr 0) as [-> Hl].
    rewrite <- Hl. apply count_true_le_length. }
  destruct (Z_lt_le_dec n best_inls) as [Hlt|Hge].
  - specialize (S2 Hlt).
    split; [|split; [|split; [lia|exact Hfull]]].
    + transitivity false; [apply Z.ltb_ge; lia | symmetry; apply Z.ltb_ge; lia].
    + transitivity false; [apply Z.eqb_neq; lia | symmetry; apply Z.eqb_neq; lia].
  - assert (E : n = full).
    { unfold n, full. change (get_inliers model pts thr 0)
        with (get_inliers_all model pts thr).
      rewrite (get_inliers_reaches_bound model pts thr best_inls Hge).
      reflexivity. }
    rewrite E in *. split; [reflexivity|split; [reflexivity|split; [lia|exact Hfull]]].
Qed.

(** ** get_inliers: the orientation of the plane *)

Lemma SFdiv_opp_l (prec emax : Z) (x y : spec_float) :
  SFdiv prec emax (SFopp x) y = SFopp (SFdiv prec emax x y).
Proof.
  destruct x as [sx|sx| |sx mx ex], y as [sy|sy| |sy my ey]; simpl;
    try reflexivity; try (destruct sx, sy; reflexivity).
  destruct (SFdiv_core_binary prec emax (Z.pos mx) ex (Z.pos my) ey)
    as [[mz ez] lz].
  rewrite <- binary_round_aux_opp. destruct sx, sy; reflexivity.
Qed.

Lemma SFabs_negated (x y : spec_float) : negated x y -> SFabs y = SFabs x.
Proof.
  intros [->|[Hx Hy]].
  - destruct x; reflexivity.
  - destruct x; try discriminate. destruct y; try discriminate. reflexivity.
Qed.

Lemma normalize_model_opp (model : Vec4f) :
  normalize_model (opp_plane model) = opp_plane (normalize_model model).
Proof.
  unfold normalize_model, opp_plane. simpl.
  unfold F32.mul, F32.div. rewrite !SFmul_opp_opp, !SFdiv_opp_l. reflexivity.
Qed.

Lemma near_opp (nm : Vec4f) (thr : float) (pt : Point) :
  near (opp_plane nm) thr pt = near nm thr pt.
Proof.
  unfold near, opp_plane, fabs. simpl. f_equal.
  apply SFabs_negated. unfold F32.add, F32.mul. rewrite !SFmul_opp_l.
  repeat apply SFadd_negated; apply negated_opp.
Qed.

Lemma score_head_ext (f g : Point -> bool) (pts : list Point) (num : Z) :
  (forall pt, f pt = g pt) -> score_head f pts num = score_head g pts num.
Proof.
  intro H. rewrite !score_head_spec.
  rewrite (map_ext f g H). reflexivity.
Qed.

Lemma score_tail_ext (f g : Point -> bool) (pts_size best : Z)
    (pts : list Point) (p num : Z) :
  (forall pt, f pt = g pt) ->
  score_tail f pts_size best p pts num = score_tail g pts_size best p pts num.
Proof.
  intro H. revert p num. induction pts as [|pt rest IH]; intros p num;
    [reflexivity|].
  simpl. rewrite (H pt). destruct (_ <? best); [reflexivity|].
  rewrite IH. reflexivity.
Qed.

(** X2: the scorer does not depend on the orientation of the plane.  For
    the plane with all four coefficients negated [get_inliers] returns the
    same mask and the same count, for every cloud, threshold and bound. *)
Theorem get_inliers_opposite_plane (model : Vec4f) (pts : list Point)
    (thr : float) (best_inls : Z) :
  get_inliers (opp_plane model) pts thr best_inls
  = get_inliers model pts thr best_inls.
Proof.
  unfold get_inliers. rewrite normalize_model_opp.
  assert (H : forall pt, near (opp_plane (normalize_model model)) thr pt
                         = near (normalize_model model) thr pt)
    by (intro pt; apply near_opp).
  rewrite (score_head_ext _ _ _ _ H).
  destruct (score_head _ _ 0) as [mask1 n1].
  rewrite (score_tail_ext _ _ _ _ _ _ n1 H). reflexivity.
Qed.

(** ** get_plane: what it returns *)

Lemma estimate_some_normal (eigen_last_row : list Vec3f -> Vec3f)
    (input : list Point) (sample : list nat) (model : Vec4f) :
  total_least_squares_plane_estimate eigen_last_row input sample = Some model ->
  bad_normal (plane_normal model) = false.
Proof.
  unfold total_least_squares_plane_estimate.
  destruct (_ && _); [discriminate|].
  destruct (bad_normal (fit_normal eigen_last_row input sample)) eqn:Hb;
    [discriminate|].
  intro H. injection H as <-. unfold plane_normal. simpl.
  destruct (fit_normal eigen_last_row input sample). exact Hb.
Qed.

Section ResultFacts.

Variable eigen_last_row : list Vec3f -> Vec3f.
Variable RNG : Type.
Variable rng_default : RNG.
Variable rng_uniform : RNG -> Z -> nat * RNG.
Variable Global : Type.
Variable randShuffle : Global -> list nat -> list nat * Global.
Variable c_log : double -> double.
Variable c_pow : double -> double -> double.
Variable VoxelGrid : list Point -> float -> list Point.
Variable thr : float.
Variable normal : option Vec3f.
Variable normal_diff_thr : double.

(** The best plane of the local optimisation stays a valid plane whose
    recorded count is its exhaustive count. *)
Lemma lo_loop_valid (pts : list Point) (max_lo_inliers : Z) (iters : nat)
    (st : LoState Global) :
  valid_plane normal normal_diff_thr (lo_best_model st) ->
  lo_best_inls st = snd (get_inliers_all (lo_best_model st) pts thr) ->
  let st' := lo_loop eigen_last_row randShuffle max_lo_inliers pts thr normal
                     normal_diff_thr iters st in
  valid_plane normal normal_diff_thr (lo_best_model st')
  /\ lo_best_inls st' = snd (get_inliers_all (lo_best_model st') pts thr).
Proof.
  revert st. induction iters as [|iters IH]; intros st Hv Hc; simpl.
  - split; assumption.
  - destruct (randShuffle (lo_global st) (lo_pool st)) as [pool g].
    destruct (total_least_squares_plane_estimate eigen_last_row pts _)
      as [lo_model|] eqn:Hfit; [|apply IH; assumption].
    destruct (normal_ok normal normal_diff_thr lo_model) eqn:Hok; simpl;
      [|apply IH; assumption].
    destruct (get_inliers lo_model pts thr (lo_best_inls st)) as [mask n] eqn:Hs.
    destruct (lo_best_inls st <? n) eqn:Hlt.
    + apply Z.ltb_lt in Hlt. apply IH; simpl.
      * split; [eapply estimate_some_normal; exact Hfit|exact Hok].
      * rewrite <- (get_inliers_reaches_bound lo_model pts thr (lo_best_inls st));
          rewrite Hs; simpl; [reflexivity|lia].
    + destruct (lo_best_inls st =? n); [split; assumption|].
      apply IH; assumption.
Qed.

(** The invariant of the main loop of [get_plane]: either no plane was
    adopted yet and [best_model] is what the caller passed, or the best
    plane is valid and [best_inls] is its exhaustive count; the last score
    never exceeds the best one. *)
Lemma get_plane_loop_result (pts : list Point) (model0 : Vec4f) (fuel : nat)
    (st : GpState RNG Global) :
  gp_num_inliers st <= gp_best_inls st ->
  (gp_best_inls st = 0 /\ gp_best_model st = model0)
  \/ (0 < gp_best_inls st
      /\ valid_plane normal normal_diff_thr (gp_best_model st)
      /\ gp_best_inls st = snd (get_inliers_all (gp_best_model st) pts thr)) ->
  let st' := get_plane_loop eigen_last_row rng_uniform randShuffle c_log c_pow
               pts thr normal normal_diff_thr fuel st in
  gp_num_inliers st' <= gp_best_inls st'
  /\ ((gp_best_inls st' = 0 /\ gp_best_model st' = model0)
      \/ (0 < gp_best_inls st'
          /\ valid_plane normal normal_diff_thr (gp_best_model st')
          /\ gp_best_inls st' = snd (get_inliers_all (gp_best_model st') pts thr))).
Proof.
  revert st. induction fuel as [|fuel IH]; intros st Hn Hb; simpl.
  - split; assumption.
  - destruct (gp_iter st <? gp_max_iterations st); [|split; assumption].
    assert (H0 : 0 <= gp_best_inls st) by (destruct Hb as [[-> _]|[H _]]; lia).
    unfold get_plane_body.
    destruct (rng_uniform (gp_rng st) _) as [s0 r0].
    destruct (rng_uniform r0 _) as [s1 r1].
    destruct (rng_uniform r1 _) as [s2 r2].
    destruct (total_least_squares_plane_estimate eigen_last_row pts [s0; s1; s2])
      as [model|] eqn:Hfit; [|apply IH; assumption].
    destruct (normal_ok normal normal_diff_thr model) eqn:Hok; simpl negb; cbv iota;
      [|apply IH; assumption].
    destruct (get_inliers model pts thr (gp_best_inls st)) as [mask n] eqn:Hs.
    destruct (gp_best_inls st <? n) eqn:Hlt.
    + apply Z.ltb_lt in Hlt.
      match goal with |- context [lo_loop ?a ?b ?c ?d ?e ?f ?g ?h ?i] =>
        destruct (lo_loop_facts a _ b e f g d c h i) as (L1 & L2 & _);
        destruct (lo_loop_valid d c h i) as (V1 & V2);
        [ split; [eapply estimate_some_normal; exact Hfit|exact Hok]
        | simpl;
          rewrite <- (get_inliers_reaches_bound model pts thr (gp_best_inls st));
          rewrite Hs; simpl; [reflexivity|lia]
        | set (lo := lo_loop a b c d e f g h i) in * ]
      end.
      simpl in L1, L2. apply IH; simpl.
      * apply L2. lia.
      * right. repeat split; try apply V1; try exact V2. lia.
    + apply Z.ltb_ge in Hlt. apply IH; simpl; [exact Hlt|exact Hb].
Qed.

Lemma get_plane_result (best_model : Vec4f) (inliers : list bool)
    (pts : list Point) (max_iterations : Z) (g : Global) :
  let r := get_plane eigen_last_row rng_default rng_uniform randShuffle c_log
                     c_pow best_model inliers pts thr max_iterations normal
                     normal_diff_thr g in
  (res_inls r = 0 /\ res_model r = best_model)
  \/ (0 < res_inls r
      /\ (res_inliers r, res_inls r) = get_inliers_all (res_model r) pts thr
      /\ valid_plane normal normal_diff_thr (res_model r)).
Proof.
  unfold get_plane.
  destruct (Z.of_nat (length pts) <? 3); [left; split; reflexivity|].
  match goal with |- context [get_plane_loop _ _ _ _ _ _ _ _ _ ?f ?s] =>
    destruct (get_plane_loop_result pts best_model f s) as (Hn & Hb);
    [ simpl; lia | left; split; reflexivity | ];
    set (st := get_plane_loop eigen_last_row rng_uniform randShuffle c_log
                 c_pow pts thr normal normal_diff_thr f s) in * end.
  destruct Hb as [[H0 Hm]|(Hpos & Hv & Hc)].
  - rewrite H0. simpl. left. split; [reflexivity|exact Hm].
  - replace (gp_best_inls st =? 0) with false
      by (symmetry; apply Z.eqb_neq; lia).
    apply Z.leb_le in Hn. rewrite Hn. simpl.
    destruct (get_inliers_all (gp_best_model st) pts thr) as [mask n] eqn:E.
    simpl in *. right. subst n.
    split; [exact Hpos|split; [symmetry; exact E|exact Hv]].
Qed.

(** X3: what [get_plane] hands back.  Either it returns [0] and the
    caller's [best_model] is untouched, or it returns a positive count, at
    most the number of points, and the mask is the point-wise distance test
    of the returned plane over the whole cloud with exactly that many [true]
    entries: the last line of [get_plane] always refreshes a mask that a
    pruned or rejected score may have left behind. *)
Theorem get_plane_count_and_mask (best_model : Vec4f) (inliers : list bool)
    (pts : list Point) (max_iterations : Z) (g : Global) :
  let r := get_plane eigen_last_row rng_default rng_uniform randShuffle c_log
                     c_pow best_model inliers pts thr max_iterations normal
                     normal_diff_thr g in
  (res_inls r = 0 /\ res_model r = best_model)
  \/ (0 < res_inls r <= Z.of_nat (length pts)
      /\ res_inliers r = map (near (normalize_model (res_model r)) thr) pts
      /\ res_inls r = count_true (res_inliers r)).
Proof.
  intro r. destruct (get_plane_result best_model inliers pts max_iterations g)
    as [H|(Hpos & E & _)]; fold r in H || fold r in Hpos, E.
  - left. exact H.
  - right. rewrite get_inliers_all_spec in E. injection E as E1 E2.
    split; [|split; [exact E1|rewrite E1; exact E2]].
    split; [exact Hpos|]. rewrite E2.
    pose proof (count_true_le_length
                  (map (near (normalize_model (res_model r)) thr) pts)) as Hc.
    rewrite length_map in Hc. exact Hc.
Qed.

(** X4: a plane [get_plane] returns with a nonzero count went through the
    checks of the loop: its normal has no infinite component and is not the
    zero vector, and it satisfies [check_same_normal] against the expected
    normal when one is given. *)
Theorem get_plane_returns_checked_plane (best_model : Vec4f)
    (inliers : list bool) (pts : list Point) (max_iterations : Z) (g : Global) :
  let r := get_plane eigen_last_row rng_default rng_uniform randShuffle c_log
                     c_pow best_model inliers pts thr max_iterations normal
                     normal_diff_thr g in
  res_inls r = 0
  \/ (bad_normal (plane_normal (res_model r)) = false
      /\ match normal with
         | None => True
         | Some n => check_same_normal (res_model r) n normal_diff_thr = true
         end).
Proof.
  intro r. destruct (get_plane_result best_model inliers pts max_iterations g)
    as [[H _]|(_ & _ & Hb & Hok)]; fold r in H || fold r in Hb, Hok.
  - left. exact H.
  - right. split; [exact Hb|]. unfold normal_ok in Hok.
    destruct normal; [exact Hok|exact I].
Qed.

(** ** get_planes: the planes it returns *)

Lemma in_insert_at {A : Type} (e : nat) (x y : A) (v : list A) :
  In y (insert_at e x v) <-> y = x \/ In y v.
Proof.
  unfold insert_at. rewrite in_app_iff. simpl.
  rewrite <- (firstn_skipn e v) at 3. rewrite in_app_iff.
  split; [intros [H|[H|H]]|intros [H|[H|H]]]; auto.
Qed.

Lemma phase_a_valid (max_iterations desired_num_planes : Z) (fuel : nat)
    (num_planes : Z) (cloud : list Point) (inliers_ : list bool) (g : Global)
    (planes_ : list Vec4f) :
  Forall (valid_plane normal normal_diff_thr) planes_ ->
  Forall (valid_plane normal normal_diff_thr)
         (fst (phase_a eigen_last_row rng_default rng_uniform randShuffle
                       c_log c_pow thr max_iterations desired_num_planes
                       normal normal_diff_thr fuel num_planes cloud inliers_
                       g planes_)).
Proof.
  revert num_planes cloud inliers_ g planes_.
  induction fuel as [|fuel IH]; intros num_planes cloud inliers_ g planes_ Hv;
    simpl; [exact Hv|].
  destruct (num_planes <=? desired_num_planes); [|exact Hv].
  pose proof (get_plane_result vec4_zero inliers_ cloud max_iterations g) as Hr.
  cbv zeta in Hr.
  destruct (res_inls _ =? 0) eqn:Hz; [exact Hv|].
  apply Z.eqb_neq in Hz.
  destruct Hr as [[H0 _]|(_ & _ & Hvalid)]; [contradiction|].
  assert (Hv' : Forall (valid_plane normal normal_diff_thr)
                       (planes_ ++ [res_model
                          (get_plane eigen_last_row rng_default rng_uniform
                             randShuffle c_log c_pow vec4_zero inliers_ cloud
                             thr max_iterations normal normal_diff_thr g)])).
  { apply Forall_app. split; [exact Hv|]. constructor; [exact Hvalid|constructor]. }
  destruct (num_planes =? desired_num_planes); [exact Hv'|].
  apply IH. exact Hv'.
Qed.

Lemma refine_valid (cand : Vec4f) (cloud : list Point) (g : Global) :
  valid_plane normal normal_diff_thr cand ->
  valid_plane normal normal_diff_thr
    (lo_best_model (refine eigen_last_row randShuffle cand cloud thr normal
                           normal_diff_thr g)).
Proof.
  intro Hv. unfold refine.
  destruct (get_inliers_all cand cloud thr) as [mask0 best0] eqn:E0.
  match goal with |- context [lo_loop ?a ?b ?c ?d ?e ?f ?g0 ?h ?i] =>
    destruct (lo_loop_valid d c h i) as (V1 & _);
    [ exact Hv | simpl; rewrite E0; reflexivity
    | set (lo := lo_loop a b c d e f g0 h i) in * ]
  end.
  destruct (lo_last lo <=? lo_best_inls lo); [|exact V1].
  destruct (get_inliers_all (lo_best_model lo) cloud thr). exact V1.
Qed.

Lemma phase_b_valid (planes_cnt : Z) (cands : list Vec4f) (plane_num : Z)
    (st : PbState Global) :
  Forall (valid_plane normal normal_diff_thr) cands ->
  forall model,
    In model (pb_planes (phase_b eigen_last_row randShuffle thr normal
                                 normal_diff_thr planes_cnt cands plane_num st)) ->
    In model (pb_planes st) \/ valid_plane normal normal_diff_thr model.
Proof.
  revert plane_num st. induction cands as [|cand rest IH];
    intros plane_num st Hv model Hin; [left; exact Hin|].
  inversion Hv as [|? ? Hc Hrest]; subst.
  simpl in Hin.
  pose proof (refine_valid cand (pb_points st) (pb_global st) Hc) as Hr.
  set (lo := refine eigen_last_row randShuffle cand (pb_points st) thr normal
                    normal_diff_thr (pb_global st)) in *.
  destruct (plane_num =? planes_cnt).
  - simpl in Hin. apply in_insert_at in Hin.
    destruct Hin as [->|Hin]; [right; exact Hr|left; exact Hin].
  - apply (IH _ _ Hrest) in Hin. simpl in Hin.
    destruct Hin as [Hin|Hin]; [|right; exact Hin].
    apply in_insert_at in Hin.
    destruct Hin as [->|Hin]; [right; exact Hr|left; exact Hin].
Qed.

(** X5: every plane [get_planes] adds to the caller's vector has a normal
    without infinite component that is not the zero vector, and satisfies
    [check_same_normal] against the expected normal when one is given;
    this holds for the planes the local optimisation of the second loop
    substitutes as well. *)
Theorem get_planes_returns_checked_planes (planes : list Vec4f)
    (cloud : list Point) (max_iterations desired_num_planes : Z)
    (grid_size : float) (g : Global) (model : Vec4f) :
  In model (snd (get_planes eigen_last_row rng_default rng_uniform randShuffle
                            c_log c_pow VoxelGrid planes cloud thr
                            max_iterations desired_num_planes grid_size normal
                            normal_diff_thr g)) ->
  In model planes
  \/ (bad_normal (plane_normal model) = false
      /\ match normal with
         | None => True
         | Some n => check_same_normal model n normal_diff_thr = true
         end).
Proof.
  unfold get_planes, get_planes_state. simpl snd.
  match goal with |- context [phase_a ?a ?b ?c ?d ?e ?f ?t ?mi ?de ?n ?nd ?fu ?np ?cl ?il ?g0 ?pl] =>
    pose proof (phase_a_valid mi de fu np cl il g0 pl (Forall_nil _)) as Ha;
    destruct (phase_a a b c d e f t mi de n nd fu np cl il g0 pl) as [planes_ g1]
  end.
  simpl in Ha. intro Hin.
  apply (phase_b_valid _ _ _ _ Ha) in Hin. simpl in Hin.
  destruct Hin as [Hin|[Hb Hok]]; [left; exact Hin|right].
  split; [exact Hb|]. unfold normal_ok in Hok.
  destruct normal; [exact Hok|exact I].
Qed.

(** ** get_planes: labels against distances *)

Lemma keep_outliers_map {A B : Type} (f : A -> B) (mask : list bool) (l : list A) :
  keep_outliers mask (map f l) = map f (keep_outliers mask l).
Proof.
  revert mask. induction l as [|a l IH]; intro mask; simpl; [reflexivity|].
  destruct mask as [|[|] m]; simpl; rewrite IH; reflexivity.
Qed.

Lemma keep_outliers_of_test {A : Type} (f : A -> bool) (l : list A) (x : A) :
  In x (keep_outliers (map f l) l) -> f x = false /\ In x l.
Proof.
  induction l as [|a l IH]; simpl; [contradiction|].
  destruct (f a) eqn:Ha.
  - intro H. destruct (IH H). auto.
  - intros [<-|H]; [auto|]. destruct (IH H). auto.
Qed.

Lemma keep_inliers_of_test {A : Type} (f : A -> bool) (l : list A) (x : A) :
  In x (keep_inliers (map f l) l) -> f x = true /\ In x l.
Proof.
  induction l as [|a l IH]; simpl; [contradiction|].
  destruct (f a) eqn:Ha.
  - intros [<-|H]; [auto|]. destruct (IH H). auto.
  - intro H. destruct (IH H). auto.
Qed.

Lemma keep_inliers_length {A : Type} (mask : list bool) (rows : list A) :
  length mask = length rows ->
  Z.of_nat (length (keep_inliers mask rows)) = count_true mask.
Proof.
  revert mask. induction rows as [|r rows IH]; intros [|b mask] Hl;
    simpl in Hl; try discriminate; [reflexivity|].
  injection Hl as Hl. rewrite count_true_cons. specialize (IH mask Hl).
  destruct b; simpl keep_inliers; simpl length; lia.
Qed.

Lemma scored_inv_step (cloud0 : list Point) (planes0 : list Vec4f)
    (points : list Point) (orig : list nat) (planes : list Vec4f)
    (writes : list (Z * list nat)) (model : Vec4f) (e : nat) (plane_num : Z) :
  scored_inv cloud0 thr planes0 points orig planes writes ->
  let mask := map (near (normalize_model model) thr) points in
  scored_inv cloud0 thr planes0 (keep_outliers mask points)
             (keep_outliers mask orig) (insert_at e model planes)
             ((plane_num, keep_inliers mask orig) :: writes).
Proof.
  intros (J1 & J2 & J3 & J4) mask.
  assert (Em : mask = map (fun i => near (normalize_model model) thr (pt_at cloud0 i))
                          orig).
  { unfold mask. rewrite J1, map_map. reflexivity. }
  clearbody mask. subst mask points.
  split; [|split; [|split]].
  - apply keep_outliers_map.
  - intros m Hm. apply in_insert_at in Hm. destruct Hm as [->|Hm].
    + right. intros i Hi. apply keep_outliers_of_test in Hi. apply Hi.
    + destruct (J2 m Hm) as [H|H]; [left; exact H|right].
      intros i Hi. apply H. apply keep_outliers_of_test in Hi. apply Hi.
  - intros r idxs [H|H].
    + injection H as <- <-. exists model. split; [apply in_insert_at; left; reflexivity|].
      intros i Hi. apply keep_inliers_of_test in Hi. apply Hi.
    + destruct (J3 r idxs H) as (m & Hm & Hn).
      exists m. split; [apply in_insert_at; right; exact Hm|exact Hn].
  - intros i Hi. unfold written. simpl. fold (written writes).
    destruct (J4 i Hi) as [H|H].
    + set (f := fun i0 => near (normalize_model model) thr (pt_at cloud0 i0)) in *.
      pose proof (keep_split_permutation (map f orig) orig) as Hp.
      apply (Permutation_in _ Hp) in H. apply in_app_or in H.
      destruct H as [H|H]; [left; exact H|right; apply in_or_app; left; exact H].
    + right. apply in_or_app. right. exact H.
Qed.

Lemma phase_b_scored_inv (cloud0 : list Point) (planes0 : list Vec4f)
    (planes_cnt : Z) (cands : list Vec4f) (plane_num : Z) (st : PbState Global) :
  scored_inv cloud0 thr planes0 (pb_points st) (pb_orig st) (pb_planes st)
             (pb_writes st) ->
  let st' := phase_b eigen_last_row randShuffle thr normal normal_diff_thr
                     planes_cnt cands plane_num st in
  exists points orig,
    scored_inv cloud0 thr planes0 points orig (pb_planes st') (pb_writes st').
Proof.
  revert plane_num st. induction cands as [|cand rest IH]; intros plane_num st HJ.
  - simpl. exists (pb_points st), (pb_orig st). exact HJ.
  - simpl.
    destruct (refine_count eigen_last_row Global randShuffle thr normal
                normal_diff_thr cand (pb_points st) (pb_global st))
      as (_ & _ & Hmask).
    set (lo := refine eigen_last_row randShuffle cand (pb_points st) thr normal
                      normal_diff_thr (pb_global st)) in *.
    pose proof (scored_inv_step cloud0 planes0 _ _ _ _ (lo_best_model lo)
                  (scan_rank (lo_best_inls lo) (pb_inls_num st)) plane_num HJ)
      as Hstep.
    cbv zeta in Hstep. rewrite <- Hmask in Hstep.
    destruct (plane_num =? planes_cnt).
    + simpl. eexists _, _. exact Hstep.
    + apply IH. simpl. exact Hstep.
Qed.

Lemma map_nth_seq {A : Type} (l : list A) (d : A) :
  map (fun i => nth i l d) (seq 0 (length l)) = l.
Proof.
  induction l as [|a l IH]; [reflexivity|].
  simpl length. rewrite <- cons_seq, <- seq_shift. simpl map.
  rewrite map_map. simpl. rewrite IH. reflexivity.
Qed.

Lemma scored_inv_init (cloud0 : list Point) (planes0 : list Vec4f) :
  scored_inv cloud0 thr planes0 cloud0 (seq 0 (length cloud0)) planes0 [].
Proof.
  split; [|split; [|split]].
  - unfold pt_at. symmetry. apply map_nth_seq.
  - intros model H. left. exact H.
  - intros r idxs [].
  - intros i Hi. left. apply in_seq. lia.
Qed.

(** X6: labels agree with distances.  A point with a nonzero label is
    within the threshold of one of the returned planes, and a point left
    with the label [0] is within the threshold of none of the planes this
    call added: it was scored against each of them and found outside. *)
Theorem labels_agree_with_distances (planes : list Vec4f) (cloud : list Point)
    (max_iterations desired_num_planes : Z) (grid_size : float) (g : Global)
    (i : nat) :
  (i < length cloud)%nat ->
  let out := get_planes eigen_last_row rng_default rng_uniform randShuffle
               c_log c_pow VoxelGrid planes cloud thr max_iterations
               desired_num_planes grid_size normal normal_diff_thr g in
  (nth i (fst out) 0 <> 0 ->
   exists model, In model (snd out)
     /\ near (normalize_model model) thr (pt_at cloud i) = true)
  /\ (nth i (fst out) 0 = 0 ->
      forall model, In model (snd out) ->
        In model planes
        \/ near (normalize_model model) thr (pt_at cloud i) = false).
Proof.
  intros Hi out. unfold out, get_planes, get_planes_state. simpl fst. simpl snd.
  match goal with |- context [phase_a ?a ?b ?c ?d ?e ?f ?t ?mi ?de ?n ?nd ?fu ?np ?cl ?il ?g0 ?pl] =>
    destruct (phase_a a b c d e f t mi de n nd fu np cl il g0 pl) as [planes_ g1]
  end.
  destruct (phase_b_labels_inv eigen_last_row Global randShuffle thr normal
              normal_diff_thr (Z.of_nat (length planes_)) planes_ 1
              (phase_b_init planes cloud g1) (labels_inv_init (length cloud)))
    as (orig & pn' & I1 & I2 & I3 & I4 & I5 & I6).
  destruct (phase_b_scored_inv cloud planes (Z.of_nat (length planes_)) planes_ 1
              (phase_b_init planes cloud g1) (scored_inv_init cloud planes))
    as (points' & orig' & J1 & J2 & J3 & J4).
  set (fin := phase_b eigen_last_row randShuffle thr normal normal_diff_thr
                      (Z.of_nat (length planes_)) planes_ 1
                      (phase_b_init planes cloud g1)) in *.
  split.
  - intro Hne. destruct (I4 i Hne) as (r & idxs & Hw & Hx).
    destruct (J3 r idxs Hw) as (model & Hm & Hn).
    exists model. split; [exact Hm|apply Hn; exact Hx].
  - intros Hz model Hm.
    destruct (J2 model Hm) as [H|H]; [left; exact H|right].
    apply H. destruct (J4 i Hi) as [Hl|Hw]; [exact Hl|exfalso].
    unfold written in Hw. apply in_concat in Hw. destruct Hw as (idxs & Hin & Hx).
    apply in_map_iff in Hin. destruct Hin as ([r idxs'] & E & Hin).
    simpl in E. subst idxs'.
    destruct (I3 r idxs Hin) as [Hr Hl]. specialize (Hl i Hx). lia.
Qed.

Lemma phase_b_planes_exact (planes_cnt : Z) (cands : list Vec4f)
    (plane_num : Z) (st : PbState Global) :
  plane_num + Z.of_nat (length cands) = planes_cnt + 1 ->
  length (pb_planes (phase_b eigen_last_row randShuffle thr normal
                             normal_diff_thr planes_cnt cands plane_num st))
  = (length (pb_planes st) + length cands)%nat.
Proof.
  revert plane_num st. induction cands as [|cand rest IH]; intros plane_num st H.
  - simpl. lia.
  - simpl length in H. simpl.
    destruct (plane_num =? planes_cnt) eqn:E.
    + apply Z.eqb_eq in E. simpl. rewrite insert_at_length.
      destruct rest; [simpl; lia|simpl length in H; lia].
    + rewrite IH by lia. simpl. rewrite insert_at_length. lia.
Qed.

Lemma phase_b_writes_bound (planes_cnt : Z) (cands : list Vec4f)
    (plane_num : Z) (st : PbState Global) :
  (forall r idxs, In (r, idxs) (pb_writes st) -> r < plane_num) ->
  forall r idxs,
    In (r, idxs) (pb_writes (phase_b eigen_last_row randShuffle thr normal
                                     normal_diff_thr planes_cnt cands plane_num st)) ->
    r < plane_num + Z.of_nat (length cands).
Proof.
  revert plane_num st. induction cands as [|cand rest IH];
    intros plane_num st Hb r idxs Hin.
  - simpl in *. specialize (Hb r idxs Hin). lia.
  - simpl in Hin. simpl length.
    destruct (plane_num =? planes_cnt).
    + simpl in Hin. destruct Hin as [H|H].
      * injection H as <- _. lia.
      * specialize (Hb r idxs H). lia.
    + apply IH in Hin; [lia|]. simpl. intros r' idxs' [H|H].
      * injection H as <- _. lia.
      * specialize (Hb r' idxs' H). lia.
Qed.

(** X7: every label is [0] or a 1-based position in the part of the output
    vector this call filled: [0 <= label <= number of planes added], and the
    second loop adds exactly one plane for each plane the first loop
    found. *)
Theorem labels_within_plane_count (planes : list Vec4f) (cloud : list Point)
    (max_iterations desired_num_planes : Z) (grid_size : float) (g : Global) :
  let out := get_planes eigen_last_row rng_default rng_uniform randShuffle
               c_log c_pow VoxelGrid planes cloud thr max_iterations
               desired_num_planes grid_size normal normal_diff_thr g in
  let found := fst (phase_a eigen_last_row rng_default rng_uniform randShuffle
                      c_log c_pow thr max_iterations desired_num_planes normal
                      normal_diff_thr (Z.to_nat desired_num_planes) 1
                      (cloud_for_fit VoxelGrid cloud grid_size)
                      (repeat false
                         (length (cloud_for_fit VoxelGrid cloud grid_size)))
                      g []) in
  length (snd out) = (length planes + length found)%nat
  /\ forall i, 0 <= nth i (fst out) 0 <= Z.of_nat (length found).
Proof.
  intros out found. unfold out, found, get_planes, get_planes_state.
  simpl fst. simpl snd.
  match goal with |- context [phase_a ?a ?b ?c ?d ?e ?f ?t ?mi ?de ?n ?nd ?fu ?np ?cl ?il ?g0 ?pl] =>
    destruct (phase_a a b c d e f t mi de n nd fu np cl il g0 pl) as [planes_ g1]
  end.
  simpl fst.
  destruct (phase_b_labels_inv eigen_last_row Global randShuffle thr normal
              normal_diff_thr (Z.of_nat (length planes_)) planes_ 1
              (phase_b_init planes cloud g1) (labels_inv_init (length cloud)))
    as (orig & pn' & I1 & I2 & I3 & I4 & I5 & I6).
  pose proof (phase_b_writes_bound (Z.of_nat (length planes_)) planes_ 1
                (phase_b_init planes cloud g1)) as Hb.
  pose proof (phase_b_planes_exact (Z.of_nat (length planes_)) planes_ 1
                (phase_b_init planes cloud g1) ltac:(lia)) as Hlen.
  set (fin := phase_b eigen_last_row randShuffle thr normal normal_diff_thr
                      (Z.of_nat (length planes_)) planes_ 1
                      (phase_b_init planes cloud g1)) in *.
  split; [exact Hlen|].
  intro i. destruct (Z.eq_dec (nth i (pb_labels fin) 0) 0) as [E|E]; [lia|].
  destruct (I4 i E) as (r & idxs & Hw & Hx).
  destruct (I3 r idxs Hw) as [Hr Hl]. rewrite (Hl i Hx).
  assert (r < 1 + Z.of_nat (length planes_)); [|lia].
  apply (Hb ltac:(simpl; intros ? ? []) r idxs Hw).
Qed.

(** ** get_planes: the counts behind the ranking *)

Lemma insert_at_permutation {A : Type} (e : nat) (x : A) (v : list A) :
  Permutation (insert_at e x v) (x :: v).
Proof.
  unfold insert_at. rewrite <- (firstn_skipn e v) at 3.
  symmetry. apply Permutation_middle.
Qed.

Lemma phase_b_counts (base : list Z) (planes_cnt : Z) (cands : list Vec4f)
    (plane_num : Z) (st : PbState Global) :
  length (pb_points st) = length (pb_orig st) ->
  Permutation (pb_inls_num st)
              (base ++ map (fun w => Z.of_nat (length (snd w))) (pb_writes st)) ->
  let st' := phase_b eigen_last_row randShuffle thr normal normal_diff_thr
                     planes_cnt cands plane_num st in
  Permutation (pb_inls_num st')
              (base ++ map (fun w => Z.of_nat (length (snd w))) (pb_writes st')).
Proof.
  revert plane_num st. induction cands as [|cand rest IH];
    intros plane_num st Hlen Hperm; [exact Hperm|].
  simpl.
  destruct (refine_count eigen_last_row Global randShuffle thr normal
              normal_diff_thr cand (pb_points st) (pb_global st))
    as (Hcnt & Hml & _).
  set (lo := refine eigen_last_row randShuffle cand (pb_points st) thr normal
                    normal_diff_thr (pb_global st)) in *.
  assert (Hstep :
    Permutation
      (insert_at (scan_rank (lo_best_inls lo) (pb_inls_num st))
                 (lo_best_inls lo) (pb_inls_num st))
      (base ++ Z.of_nat (length (keep_inliers (lo_inliers lo) (pb_orig st)))
            :: map (fun w => Z.of_nat (length (snd w))) (pb_writes st))).
  { rewrite keep_inliers_length by congruence. rewrite <- Hcnt.
    etransitivity; [apply insert_at_permutation|].
    etransitivity; [apply perm_skip; exact Hperm|].
    apply Permutation_middle. }
  destruct (plane_num =? planes_cnt); [exact Hstep|].
  apply IH; simpl; [|exact Hstep].
  apply Nat2Z.inj. rewrite !keep_outliers_length by congruence. lia.
Qed.

(** X8: the counts by which the planes are ranked are the numbers of
    points labelled.  [plane_inls_num] is, up to order, its closing [0]
    together with, for every pass of the second loop, the number of original
    indices that pass labelled. *)
Theorem ranked_counts_are_label_counts (planes : list Vec4f)
    (cloud : list Point) (max_iterations desired_num_planes : Z)
    (grid_size : float) (g : Global) :
  let st := get_planes_state eigen_last_row rng_default rng_uniform randShuffle
              c_log c_pow VoxelGrid planes cloud thr max_iterations
              desired_num_planes grid_size normal normal_diff_thr g in
  Permutation (pb_inls_num st)
              (0 :: map (fun w => Z.of_nat (length (snd w))) (pb_writes st)).
Proof.
  intro st. unfold st, get_planes_state.
  match goal with |- context [phase_a ?a ?b ?c ?d ?e ?f ?t ?mi ?de ?n ?nd ?fu ?np ?cl ?il ?g0 ?pl] =>
    destruct (phase_a a b c d e f t mi de n nd fu np cl il g0 pl) as [planes_ g1]
  end.
  apply (phase_b_counts [0]); simpl.
  - rewrite length_seq. reflexivity.
  - apply Permutation_refl.
Qed.

End ResultFacts.

(** ** check_same_plane *)

Lemma SFsub_swap (prec emax : Z) (x y : spec_float) :
  negated (SFsub prec emax x y) (SFsub prec emax y x).
Proof.
  destruct x as [sx|sx| |sx mx ex], y as [sy|sy| |sy my ey]; simpl;
    try (left; reflexivity);
    try (destruct sx, sy; simpl;
         first [left; reflexivity | right; split; reflexivity]).
  rewrite (Z.min_comm ey ex).
    replace (cond_Zopp sy (Z.pos (fst (shl_align my ey (Z.min ex ey))))
             - cond_Zopp sx (Z.pos (fst (shl_align mx ex (Z.min ex ey)))))
      with (- (cond_Zopp sx (Z.pos (fst (shl_align mx ex (Z.min ex ey))))
               - cond_Zopp sy (Z.pos (fst (shl_align my ey (Z.min ex ey))))))
    by lia.
  apply binary_normalize_opp.
Qed.

Lemma sqr_diff_swap (a b : double) : sqr_diff a b = sqr_diff b a.
Proof.
  unfold sqr_diff, F64.mul, F64.sub. symmetry.
  apply SFmul_negated_square. apply SFsub_swap.
Qed.

(** X9: [check_same_plane] is symmetric: comparing [p1] with [p2] gives
    the verdict of comparing [p2] with [p1], for all coefficients and every
    threshold. *)
Theorem check_same_plane_symmetric (sqrt_to_double : float -> double)
    (p1 p2 : Vec4f) (thr : double) :
  check_same_plane sqrt_to_double p1 p2 thr
  = check_same_plane sqrt_to_double p2 p1 thr.
Proof.
  unfold check_same_plane.
  destruct (unit4 sqrt_to_double p1) as [[[p1a p1b] p1c] p1d].
  destruct (unit4 sqrt_to_double p2) as [[[p2a p2b] p2c] p2d].
  rewrite (sqr_diff_swap p1a), (sqr_diff_swap p1b), (sqr_diff_swap p1c),
    (sqr_diff_swap p1d).
  reflexivity.
Qed.

(** ** VoxelGrid: the buckets *)

Lemma key_eqb_eq (k k' : VoxelKey) : key_eqb k k' = true <-> k = k'.
Proof.
  destruct k as [[a b] c], k' as [[a' b'] c']. simpl.
  rewrite !andb_true_iff, !Z.eqb_eq. split.
  - intros [[-> ->] ->]. reflexivity.
  - intro H. injection H as -> -> ->. auto.
Qed.

Lemma key_eqb_neq (k k' : VoxelKey) : key_eqb k k' = false <-> k <> k'.
Proof.
  rewrite <- key_eqb_eq. destruct (key_eqb k k'); split; congruence.
Qed.

Lemma grid_add_keys (k : VoxelKey) (i : nat) (grids : list (VoxelKey * list nat))
    (k' : VoxelKey) :
  In k' (map fst (grid_add k i grids)) <-> k' = k \/ In k' (map fst grids).
Proof.
  induction grids as [|[k0 v0] rest IH]; simpl.
  - split; [intros [H|[]]; auto | intros [H|[]]; auto].
  - destruct (key_eqb k k0) eqn:E; simpl.
    + apply key_eqb_eq in E. subst k0. split; [auto|intros [H|H]; auto].
    + rewrite IH. split; [intros [H|[H|H]]|intros [H|[H|H]]]; auto.
Qed.

Lemma grid_add_ok (kf : nat -> VoxelKey) (i : nat)
    (grids : list (VoxelKey * list nat)) (done : list nat) :
  buckets_ok kf grids done ->
  buckets_ok kf (grid_add (kf i) i grids) (done ++ [i]).
Proof.
  revert done. induction grids as [|[k0 v0] rest IH]; intros done (N & M & P).
  - simpl in *. split; [|split].
    + repeat constructor. intros [].
    + intros k v [H|[]]. injection H as <- <-. split; [discriminate|].
      intros j [<-|[]]. reflexivity.
    + apply Permutation_nil in P. subst done. apply Permutation_refl.
  - simpl. destruct (key_eqb (kf i) k0) eqn:E.
    + apply key_eqb_eq in E. split; [|split].
      * exact N.
      * intros k v [H|H].
        -- injection H as <- <-. split; [destruct v0; discriminate|].
           intros j Hj. apply in_app_or in Hj. destruct Hj as [Hj|[<-|[]]].
           ++ apply (M k0 v0); [left; reflexivity|exact Hj].
           ++ exact E.
        -- apply M. right. exact H.
      * simpl in *. rewrite <- app_assoc.
        etransitivity; [|apply Permutation_app_tail; exact P].
        rewrite <- !app_assoc. apply Permutation_app_head.
        apply Permutation_app_comm.
    + simpl in N, P. inversion N as [|? ? Hn N']; subst.
      assert (Hrest : buckets_ok kf rest (concat (map snd rest))).
      { split; [exact N'|split; [|apply Permutation_refl]].
        intros k v H. apply M. right. exact H. }
      destruct (IH _ Hrest) as (N2 & M2 & P2).
      split; [|split].
      * simpl. constructor; [|exact N2].
        intro H. apply grid_add_keys in H. destruct H as [H|H].
        -- apply key_eqb_neq in E. apply E. symmetry. exact H.
        -- apply Hn. exact H.
      * intros k v [H|H]; [apply M; left; exact H|apply M2; exact H].
      * simpl. etransitivity; [apply Permutation_app_head; exact P2|].
        rewrite app_assoc. apply Permutation_app_tail. exact P.
Qed.

Lemma fold_grid_add_ok (kf : nat -> VoxelKey) (idxs : list nat)
    (grids : list (VoxelKey * list nat)) (done : list nat) :
  buckets_ok kf grids done ->
  buckets_ok kf (fold_left (fun g i => grid_add (kf i) i g) idxs grids)
             (done ++ idxs).
Proof.
  revert grids done. induction idxs as [|i rest IH]; intros grids done H; simpl.
  - rewrite app_nil_r. exact H.
  - replace (done ++ i :: rest) with ((done ++ [i]) ++ rest)
      by (rewrite <- app_assoc; reflexivity).
    apply IH. apply grid_add_ok. exact H.
Qed.

Lemma voxel_grids_ok (pts : list Point) (length width height : float) :
  buckets_ok (fun i => voxel_key (cloud_mins pts) length width height (pt_at pts i))
             (voxel_grids pts length width height) (seq 0 (List.length pts)).
Proof.
  unfold voxel_grids.
  apply (fold_grid_add_ok
           (fun i => voxel_key (cloud_mins pts) length width height (pt_at pts i))
           (seq 0 (List.length pts)) [] []).
  split; [constructor|split; [intros k v []|constructor]].
Qed.

(** X10: the buckets of [VoxelGrid] partition the cloud by voxel.  The map
    has one entry per key, no entry is empty, every index sits in the entry
    of the key computed from its own point, and over all entries every index
    of the cloud occurs exactly once. *)
Theorem voxel_grids_partition (pts : list Point) (length width height : float) :
  let grids := voxel_grids pts length width height in
  NoDup (map fst grids)
  /\ (forall k members, In (k, members) grids ->
        members <> []
        /\ forall i, In i members ->
             voxel_key (cloud_mins pts) length width height (pt_at pts i) = k)
  /\ Permutation (concat (map snd grids)) (seq 0 (List.length pts)).
Proof. exact (voxel_grids_ok pts length width height). Qed.

(** ** VoxelGrid: the sample of a voxel *)

Lemma SFltb_irrefl (x : spec_float) : SFltb x x = false.
Proof.
  unfold SFltb. destruct x as [s|s| |s m e]; simpl; try reflexivity.
  - destruct s; reflexivity.
  - rewrite Z.compare_refl.
    change (Pos.compare_cont Eq m m) with (Pos.compare m m).
    rewrite Pos.compare_refl. destruct s; reflexivity.
Qed.

Lemma SFltb_trans (x y z : spec_float) :
  SFltb x y = true -> SFltb y z = true -> SFltb x z = true.
Proof.
  unfold SFltb.
  destruct x as [sx|sx| |sx mx ex], y as [sy|sy| |sy my ey],
    z as [sz|sz| |sz mz ez]; simpl;
    try discriminate; try reflexivity;
    try (destruct sx; discriminate); try (destruct sy; discriminate);
    try (destruct sz; discriminate);
    try (destruct sx, sy; discriminate); try (destruct sy, sz; discriminate);
    try (destruct sx, sz; (discriminate || reflexivity));
    try (destruct sx, sy, sz; (discriminate || reflexivity)).
  change (Pos.compare_cont Eq mx my) with (Pos.compare mx my).
  change (Pos.compare_cont Eq my mz) with (Pos.compare my mz).
  change (Pos.compare_cont Eq mx mz) with (Pos.compare mx mz).
  destruct sx, sy, sz; try discriminate; try reflexivity;
    destruct (Z.compare_spec ex ey), (Z.compare_spec ey ez),
      (Z.compare_spec ex ez);
    destruct (Pos.compare_spec mx my), (Pos.compare_spec my mz),
      (Pos.compare_spec mx mz);
    simpl; try discriminate; try reflexivity; subst; lia.
Qed.

Lemma SFltb_asym_step (x y z : spec_float) :
  SFltb x y = false -> (z = y \/ SFltb z y = true) -> SFltb x z = false.
Proof.
  intros Hxy [->|Hzy]; [exact Hxy|].
  destruct (SFltb x z) eqn:H; [|reflexivity].
  rewrite (SFltb_trans _ _ _ H Hzy) in Hxy. discriminate.
Qed.

(** The scan keeps a block point together with its distance; the final
    distance is the starting one or strictly below it, and no point scanned
    is strictly nearer than the final distance. *)
Lemma nearest_scan_spec (centre : Vec3f) (block : list Point)
    (start : Point * float) :
  let r := nearest_scan centre block start in
  (r = start \/ (In (fst r) block /\ snd r = centre_dist centre (fst r)))
  /\ (snd r = snd start \/ SFltb (snd r) (snd start) = true)
  /\ (forall b, In b block -> SFltb (centre_dist centre b) (snd r) = false).
Proof.
  unfold nearest_scan. revert start.
  induction block as [|b rest IH]; intro start; simpl.
  - split; [left; reflexivity|]. split; [left; reflexivity|intros b []].
  - destruct (SFltb (centre_dist centre b) (snd start)) eqn:Hlt.
    + destruct (IH (b, centre_dist centre b)) as (I1 & I2 & I3).
      simpl in I1, I2. split; [|split].
      * right. destruct I1 as [->|[Hin Hd]]; simpl; auto.
      * right. destruct I2 as [->|I2]; [exact Hlt|].
        exact (SFltb_trans _ _ _ I2 Hlt).
      * intros b' [<-|Hb]; [|apply I3; exact Hb].
        apply (SFltb_asym_step _ (centre_dist centre b));
          [apply SFltb_irrefl|exact I2].
    + destruct (IH start) as (I1 & I2 & I3). split; [|split].
      * destruct I1 as [->|[Hin Hd]]; [left; reflexivity|right; auto].
      * exact I2.
      * intros b' [<-|Hb]; [|apply I3; exact Hb].
        apply (SFltb_asym_step _ (snd start)); [exact Hlt|exact I2].
Qed.

Lemma voxel_sample_spec (pts : list Point) (i0 : nat) (members : list nat) :
  let centre := sample_mean pts (i0 :: members) in
  let sample := voxel_sample pts (i0 :: members) in
  (exists i, In i (i0 :: members) /\ sample = pt_at pts i)
  /\ forall i, In i (i0 :: members) ->
       SFltb (centre_dist centre (pt_at pts i)) (centre_dist centre sample)
       = false.
Proof.
  intros centre sample. unfold sample, voxel_sample. fold centre.
  simpl map. cbv iota.
  destruct (nearest_scan_spec centre (map (pt_at pts) members)
              (pt_at pts i0, centre_dist centre (pt_at pts i0)))
    as (S1 & S2 & S3).
  set (r := nearest_scan centre (map (pt_at pts) members)
                         (pt_at pts i0, centre_dist centre (pt_at pts i0))) in *.
  assert (Hd : snd r = centre_dist centre (fst r)).
  { destruct S1 as [->|[_ H]]; [reflexivity|exact H]. }
  split.
  - destruct S1 as [E|[Hin _]].
    + exists i0. split; [left; reflexivity|rewrite E; reflexivity].
    + apply in_map_iff in Hin. destruct Hin as (i & Hi & Hin).
      exists i. split; [right; exact Hin|symmetry; exact Hi].
  - intros i [<-|Hi]; rewrite <- Hd.
    + apply (SFltb_asym_step _ (centre_dist centre (pt_at pts i0)));
        [apply SFltb_irrefl|exact S2].
    + apply S3. apply in_map. exact Hi.
Qed.

(** X11: the sample of a voxel is one of its member points, and no member
    is strictly nearer to the mean of the members than the sample, in the
    [float] distances the code compares. *)
Theorem voxel_sample_is_nearest_member (pts : list Point) (i0 : nat)
    (members : list nat) :
  let centre := sample_mean pts (i0 :: members) in
  let sample := voxel_sample pts (i0 :: members) in
  (exists i, In i (i0 :: members) /\ sample = pt_at pts i)
  /\ forall i, In i (i0 :: members) ->
       SFltb (centre_dist centre (pt_at pts i)) (centre_dist centre sample)
       = false.
Proof. exact (voxel_sample_spec pts i0 members). Qed.

(** ** VoxelGrid: the sampled cloud *)

Lemma concat_nonempty_length {A : Type} (l : list (list A)) :
  (forall v, In v l -> v <> []) -> (length l <= length (concat l))%nat.
Proof.
  induction l as [|v l IH]; intro H; simpl; [lia|].
  rewrite length_app.
  assert (v <> []) by (apply H; left; reflexivity).
  assert (length l <= length (concat l))%nat
    by (apply IH; intros w Hw; apply H; right; exact Hw).
  destruct v; [contradiction|simpl; lia].
Qed.

(** The sample of a bucket is a point of the cloud lying in the bucket's
    voxel. *)
Lemma bucket_sample_spec (pts : list Point) (length width height : float)
    (k : VoxelKey) (members : list nat) :
  In (k, members) (voxel_grids pts length width height) ->
  In (voxel_sample pts members) pts
  /\ voxel_key (cloud_mins pts) length width height (voxel_sample pts members) = k.
Proof.
  intro Hin. destruct (voxel_grids_ok pts length width height) as (N & M & P).
  destruct (M k members Hin) as [Hne Hkey].
  destruct members as [|i0 rest]; [contradiction Hne; reflexivity|].
  destruct (voxel_sample_spec pts i0 rest) as [(i & Hi & E) _].
  rewrite E. split; [|apply Hkey; exact Hi].
  assert (Hseq : In i (seq 0 (List.length pts))).
  { eapply Permutation_in; [exact P|]. apply in_concat.
    exists (i0 :: rest). split; [|exact Hi].
    apply in_map_iff. exists (k, i0 :: rest). split; [reflexivity|exact Hin]. }
  apply in_seq in Hseq. unfold pt_at. apply nth_In. lia.
Qed.

(** X12: what [VoxelGrid] produces, whatever order the map is visited in
    (any order that visits each entry once).  Every row of the output is a
    point of the input; the rows lie in pairwise different voxels; every
    input point has a row in its own voxel; and there are at most as many
    rows as input points. *)
Theorem VoxelGrid_one_point_per_voxel
    (bucket_order : list (VoxelKey * list nat) -> list (VoxelKey * list nat))
    (pts : list Point) (length width height : float) :
  (forall l, Permutation (bucket_order l) l) ->
  let out := VoxelGrid_rows bucket_order pts length width height in
  let key := voxel_key (cloud_mins pts) length width height in
  Forall (fun p => In p pts) out
  /\ NoDup (map key out)
  /\ (forall p, In p pts -> In (key p) (map key out))
  /\ (List.length out <= List.length pts)%nat.
Proof.
  intros Hperm out key.
  set (grids := voxel_grids pts length width height).
  pose proof (Hperm grids) as Hp.
  destruct (voxel_grids_ok pts length width height) as (N & M & P).
  fold grids in N, M, P.
  assert (Hkeys : map key out = map fst (bucket_order grids)).
  { unfold out, VoxelGrid_rows. fold grids. rewrite map_map.
    apply map_ext_in. intros [k v] Hin. simpl.
    apply (Permutation_in _ Hp) in Hin.
    apply (bucket_sample_spec pts length width height k v Hin). }
  split; [|split; [|split]].
  - unfold out, VoxelGrid_rows. fold grids. apply Forall_forall.
    intros p Hin. apply in_map_iff in Hin. destruct Hin as ([k v] & <- & Hin).
    apply (Permutation_in _ Hp) in Hin. simpl.
    apply (bucket_sample_spec pts length width height k v Hin).
  - rewrite Hkeys. eapply Permutation_NoDup; [|exact N].
    symmetry. apply Permutation_map. exact Hp.
  - intros p Hin. rewrite Hkeys.
    destruct (In_nth _ _ origin Hin) as (i & Hi & E).
    assert (Hc : In i (concat (map snd grids))).
    { eapply Permutation_in; [symmetry; exact P|]. apply in_seq. lia. }
    apply in_concat in Hc. destruct Hc as (v & Hv & Hiv).
    apply in_map_iff in Hv. destruct Hv as ([k v'] & Ev & Hg). simpl in Ev. subst v'.
    destruct (M k v Hg) as [_ Hkey]. specialize (Hkey i Hiv).
    unfold pt_at in Hkey. rewrite E in Hkey. unfold key. rewrite Hkey.
    eapply Permutation_in; [symmetry; apply Permutation_map; exact Hp|].
    apply in_map_iff. exists (k, v). split; [reflexivity|exact Hg].
  - unfold out, VoxelGrid_rows. fold grids. rewrite length_map.
    rewrite (Permutation_length Hp).
    pose proof (Permutation_length P) as Hl. rewrite length_seq in Hl.
    rewrite <- Hl, <- (length_map snd grids).
    apply concat_nonempty_length.
    intros v Hv. apply in_map_iff in Hv. destruct Hv as ([k v'] & Ev & Hg).
    simpl in Ev. subst v'. apply (M k v Hg).
Qed.

(** ** get_planes: which inputs pass the shape check *)

(** X13: which headers the first lines of [get_planes] accept.  A
    one-channel [r x c] matrix is taken as it is when it has three columns
    and at least three rows, is transposed when it has three rows and more
    than three columns, and makes [CV_CheckEQ] throw otherwise: an [n x 3]
    matrix of one or two points (or none) is rejected, because having fewer
    rows than columns it is transposed first.  A three-channel matrix is
    accepted exactly when it has at least three elements, and a vector
    always, with one row per element. *)
Theorem input_shape_accepts :
  (forall r c,
      input_shape false (mkShape r c 1)
      = if (c =? 3) && (3 <=? r) then Some (mkShape r 3 1, false)
        else if (r =? 3) && (3 <? c) then Some (mkShape c 3 1, true)
        else None)
  /\ (forall r c,
        input_shape false (mkShape r c 3)
        = if 3 <=? r * c then Some (mkShape (r * c) 3 1, false) else None)
  /\ (forall m, input_shape true m = Some (mkShape (total m) 3 1, false)).
Proof.
  split; [|split].
  - intros r c. unfold input_shape. simpl.
    destruct (r <? c) eqn:Ht; simpl.
    + apply Z.ltb_lt in Ht.
      destruct (r =? 3) eqn:Er.
      * apply Z.eqb_eq in Er. subst r.
        replace (c =? 3) with false by (symmetry; apply Z.eqb_neq; lia).
        replace (3 <? c) with true by (symmetry; apply Z.ltb_lt; lia).
        reflexivity.
      * destruct (c =? 3) eqn:Ec; [|reflexivity].
        apply Z.eqb_eq in Ec. subst c.
        replace (3 <=? r) with false by (symmetry; apply Z.leb_gt; lia).
        reflexivity.
    + apply Z.ltb_ge in Ht.
      destruct (c =? 3) eqn:Ec.
      * apply Z.eqb_eq in Ec. subst c.
        replace (3 <=? r) with true by (symmetry; apply Z.leb_le; lia).
        reflexivity.
      * simpl. destruct (r =? 3) eqn:Er; [|reflexivity].
        apply Z.eqb_eq in Er. subst r.
        replace (3 <? c) with false by (symmetry; apply Z.ltb_ge; lia).
        reflexivity.
  - intros r c. unfold input_shape, reshape_1, total. simpl.
    destruct (r * c <? 3) eqn:Ht; simpl.
    + apply Z.ltb_lt in Ht.
      replace (r * c =? 3) with false by (symmetry; apply Z.eqb_neq; lia).
      replace (3 <=? r * c) with false by (symmetry; apply Z.leb_gt; lia).
      reflexivity.
    + apply Z.ltb_ge in Ht.
      replace (3 <=? r * c) with true by (symmetry; apply Z.leb_le; lia).
      reflexivity.
  - reflexivity.
Qed.

(** ** check_same_normal: the orientation of the expected normal *)

Lemma SFmul_opp_r (prec emax : Z) (x y : spec_float) :
  SFmul prec emax x (SFopp y) = SFopp (SFmul prec emax x y).
Proof.
  destruct x as [sx|sx| |sx mx ex], y as [sy|sy| |sy my ey]; simpl;
    try reflexivity; try (destruct sx, sy; reflexivity).
  rewrite <- binary_round_aux_opp. destruct sx, sy; reflexivity.
Qed.

(** The expected normal with the opposite orientation. *)
Lemma normal_dot_opp_target (p : Vec4f) (t : Vec3f) :
  negated (normal_dot p t)
          (normal_dot p (mkVec3 (SFopp (v0 t)) (SFopp (v1 t)) (SFopp (v2 t)))).
Proof.
  unfold normal_dot. simpl.
  apply of_float_negated. unfold F32.add, F32.mul.
  rewrite !SFmul_opp_r.
  apply SFadd_negated; [apply SFadd_negated|]; apply negated_opp.
Qed.

(** X14: the check does not depend on the orientation of the expected
    normal either: against [-t] it gives the verdict it gives against
    [t], for all inputs. *)
Theorem check_same_normal_opposite_target (p : Vec4f) (t : Vec3f) (thr : double) :
  check_same_normal p (mkVec3 (SFopp (v0 t)) (SFopp (v1 t)) (SFopp (v2 t))) thr
  = check_same_normal p t thr.
Proof.
  set (t' := mkVec3 (SFopp (v0 t)) (SFopp (v1 t)) (SFopp (v2 t))).
  assert (E : (normal_dot p t' * normal_dot p t')%f64
              = (normal_dot p t * normal_dot p t)%f64)
    by (apply SFmul_negated_square, normal_dot_opp_target).
  assert (Eb : sqr_modulu_vec t' = sqr_modulu_vec t).
  { unfold sqr_modulu_vec, t'. simpl. unfold F32.mul.
    rewrite !SFmul_opp_opp. reflexivity. }
  unfold check_same_normal. cbv zeta. rewrite Eb, E. reflexivity.
Qed.

(** ** get_inliers: a larger threshold *)

Lemma SFltb_le_trans (x y z : spec_float) :
  SFltb x y = true -> SFleb y z = true -> SFltb x z = true.
Proof.
  unfold SFltb, SFleb.
  destruct x as [sx|sx| |sx mx ex], y as [sy|sy| |sy my ey],
    z as [sz|sz| |sz mz ez]; simpl;
    try discriminate; try reflexivity;
    try (destruct sx; discriminate); try (destruct sy; discriminate);
    try (destruct sz; discriminate);
    try (destruct sx, sy; discriminate); try (destruct sy, sz; discriminate);
    try (destruct sx, sz; (discriminate || reflexivity));
    try (destruct sx, sy, sz; (discriminate || reflexivity)).
  change (Pos.compare_cont Eq mx my) with (Pos.compare mx my).
  change (Pos.compare_cont Eq my mz) with (Pos.compare my mz).
  change (Pos.compare_cont Eq mx mz) with (Pos.compare mx mz).
  destruct sx, sy, sz; try discriminate; try reflexivity;
    destruct (Z.compare_spec ex ey), (Z.compare_spec ey ez),
      (Z.compare_spec ex ez);
    destruct (Pos.compare_spec mx my), (Pos.compare_spec my mz),
      (Pos.compare_spec mx mz);
    simpl; try discriminate; try reflexivity; subst; lia.
Qed.

Lemma count_true_map_mono {A : Type} (f g : A -> bool) (l : list A) :
  (forall x, f x = true -> g x = true) ->
  count_true (map f l) <= count_true (map g l).
Proof.
  intro H. induction l as [|a l IH]; simpl; [lia|].
  rewrite !count_true_cons. specialize (H a).
  destruct (f a), (g a); try lia; specialize (H eq_refl); discriminate H.
Qed.

Lemma near_mono (nm : Vec4f) (thr thr' : float) (pt : Point) :
  SFleb thr thr' = true -> near nm thr pt = true -> near nm thr' pt = true.
Proof.
  unfold near. intros Hle Hlt. exact (SFltb_le_trans _ _ _ Hlt Hle).
Qed.

(** X15: exhaustive scoring is monotone in the threshold: with
    [thr <= thr'] every point marked for [thr] is marked for [thr'], and
    the count does not decrease. *)
Theorem get_inliers_monotone_in_threshold (model : Vec4f) (pts : list Point)
    (thr thr' : float) :
  SFleb thr thr' = true ->
  snd (get_inliers model pts thr 0) <= snd (get_inliers model pts thr' 0)
  /\ forall p, nth p (fst (get_inliers model pts thr 0)) false = true ->
               nth p (fst (get_inliers model pts thr' 0)) false = true.
Proof.
  intro Hle.
  change (get_inliers model pts thr 0) with (get_inliers_all model pts thr).
  change (get_inliers model pts thr' 0) with (get_inliers_all model pts thr').
  rewrite !get_inliers_all_spec. simpl fst; simpl snd. split.
  - apply count_true_map_mono. intros pt. apply near_mono. exact Hle.
  - intros p Hp.
    destruct (Nat.lt_ge_cases p (length pts)) as [Hlt|Hge].
    + rewrite (nth_indep _ false (near (normalize_model model) thr' origin))
        by (rewrite length_map; exact Hlt).
      rewrite (nth_indep _ false (near (normalize_model model) thr origin)) in Hp
        by (rewrite length_map; exact Hlt).
      rewrite map_nth in *. eapply near_mono; eassumption.
    + rewrite nth_overflow in Hp by (rewrite length_map; exact Hge).
      discriminate.
Qed.

(** ** Degenerate parameters, and what refinement keeps *)

Section EdgeFacts.

Variable eigen_last_row : list Vec3f -> Vec3f.
Variable RNG : Type.
Variable rng_default : RNG.
Variable rng_uniform : RNG -> Z -> nat * RNG.
Variable Global : Type.
Variable randShuffle : Global -> list nat -> list nat * Global.
Variable c_log : double -> double.
Variable c_pow : double -> double -> double.
Variable VoxelGrid : list Point -> float -> list Point.
Variable thr : float.
Variable normal : option Vec3f.
Variable normal_diff_thr : double.

Lemma get_plane_no_iterations (best_model : Vec4f) (inliers : list bool)
    (pts : list Point) (max_iterations : Z) (g : Global) :
  max_iterations <= 0 ->
  get_plane eigen_last_row rng_default rng_uniform randShuffle c_log c_pow
            best_model inliers pts thr max_iterations normal normal_diff_thr g
  = mkRes 0 best_model inliers g.
Proof.
  intro H. unfold get_plane.
  destruct (Z.of_nat (length pts) <? 3); [reflexivity|].
  replace (Z.to_nat max_iterations) with O by lia. reflexivity.
Qed.

(** X16: degenerate parameters find nothing and raise nothing.  With
    [max_iterations <= 0] [get_plane] returns [0] and leaves [best_model]
    and [inliers] alone; with [max_iterations <= 0] or
    [desired_num_planes <= 0] [get_planes] returns all-zero labels and the
    caller's vector unchanged. *)
Theorem degenerate_parameters_find_nothing :
  (forall best_model inliers pts max_iterations g,
      max_iterations <= 0 ->
      get_plane eigen_last_row rng_default rng_uniform randShuffle c_log c_pow
                best_model inliers pts thr max_iterations normal
                normal_diff_thr g
      = mkRes 0 best_model inliers g)
  /\ (forall planes cloud max_iterations desired_num_planes grid_size g,
        max_iterations <= 0 \/ desired_num_planes <= 0 ->
        get_planes eigen_last_row rng_default rng_uniform randShuffle c_log
                   c_pow VoxelGrid planes cloud thr max_iterations
                   desired_num_planes grid_size normal normal_diff_thr g
        = (repeat 0 (length cloud), planes)).
Proof.
  split; [exact get_plane_no_iterations|].
  intros planes cloud max_iterations desired grid_size g H.
  unfold get_planes, get_planes_state.
  destruct (Z.to_nat desired) as [|fuel] eqn:Hd; [reflexivity|].
  simpl phase_a.
  destruct (1 <=? desired) eqn:H1; [|reflexivity].
  apply Z.leb_le in H1. destruct H as [H|H]; [|lia].
  rewrite get_plane_no_iterations by exact H. reflexivity.
Qed.

Lemma lo_loop_count (pts : list Point) (max_lo_inliers : Z) (iters : nat)
    (st : LoState Global) :
  lo_best_inls st = snd (get_inliers_all (lo_best_model st) pts thr) ->
  let st' := lo_loop eigen_last_row randShuffle max_lo_inliers pts thr normal
                     normal_diff_thr iters st in
  lo_best_inls st' = snd (get_inliers_all (lo_best_model st') pts thr).
Proof.
  revert st. induction iters as [|iters IH]; intros st Hc; simpl; [exact Hc|].
  destruct (randShuffle (lo_global st) (lo_pool st)) as [pool g].
  destruct (total_least_squares_plane_estimate eigen_last_row pts _)
    as [lo_model|]; [|apply IH; exact Hc].
  destruct (negb (normal_ok normal normal_diff_thr lo_model));
    [apply IH; exact Hc|].
  destruct (get_inliers lo_model pts thr (lo_best_inls st)) as [mask n] eqn:Hs.
  destruct (lo_best_inls st <? n) eqn:Hlt.
  - apply Z.ltb_lt in Hlt. apply IH; simpl.
    rewrite <- (get_inliers_reaches_bound lo_model pts thr (lo_best_inls st));
      rewrite Hs; simpl; [reflexivity|lia].
  - destruct (lo_best_inls st =? n); [exact Hc|apply IH; exact Hc].
Qed.

(** X17: the refinement of the second loop never loses inliers.  The
    plane it keeps for a candidate has, on the current working cloud, at
    least as many inliers as the candidate itself, and the count and mask it
    hands on are the exhaustive ones of the plane kept. *)
Theorem refine_never_loses_inliers (cand : Vec4f) (cloud : list Point)
    (g : Global) :
  let lo := refine eigen_last_row randShuffle cand cloud thr normal
                   normal_diff_thr g in
  snd (get_inliers cand cloud thr 0) <= lo_best_inls lo
  /\ (lo_inliers lo, lo_best_inls lo)
     = get_inliers (lo_best_model lo) cloud thr 0.
Proof.
  change (get_inliers cand cloud thr 0) with (get_inliers_all cand cloud thr).
  unfold refine.
  destruct (get_inliers_all cand cloud thr) as [mask0 best0] eqn:E0.
  assert (H0 : 0 <= best0).
  { pose proof (get_inliers_count cand cloud thr default_best_inls) as [Hc _].
    unfold get_inliers_all in E0. rewrite E0 in Hc. simpl in Hc.
    rewrite Hc. apply count_true_nonneg. }
  match goal with |- context [lo_loop ?a ?b ?c ?d ?e ?f ?g0 ?h ?i] =>
    destruct (lo_loop_facts a _ b e f g0 d c h i) as (L1 & L2 & _);
    pose proof (lo_loop_count d c h i) as Lc;
    set (lo := lo_loop a b c d e f g0 h i) in *
  end.
  cbn [lo_best_inls lo_last lo_best_model] in L1, L2, Lc.
  specialize (L2 H0).
  specialize (Lc ltac:(rewrite E0; reflexivity)).
  apply Z.leb_le in L2. rewrite L2.
  destruct (get_inliers_all (lo_best_model lo) cloud thr) as [mask n] eqn:E.
  cbn [lo_best_inls lo_inliers lo_best_model snd] in *.
  change (get_inliers (lo_best_model lo) cloud thr 0)
    with (get_inliers_all (lo_best_model lo) cloud thr).
  rewrite E. subst n. split; [exact L1|reflexivity].
Qed.

End EdgeFacts.

(** ** The sample of a local optimisation *)

Lemma fill_inlier_sample_firstn (max_lo_inliers : Z) (inliers : list bool)
    (pool : list nat) (sample_cnt : Z) :
  sample_cnt < max_lo_inliers ->
  fill_inlier_sample max_lo_inliers inliers pool sample_cnt
  = firstn (Z.to_nat (max_lo_inliers - sample_cnt))
           (filter (fun p => nth p inliers false) pool).
Proof.
  revert sample_cnt. induction pool as [|p rest IH]; intros cnt Hlt; simpl.
  - rewrite firstn_nil. reflexivity.
  - destruct (nth p inliers false).
    + destruct (max_lo_inliers <=? cnt + 1) eqn:Hm.
      * apply Z.leb_le in Hm.
        replace (Z.to_nat (max_lo_inliers - cnt)) with 1%nat by lia.
        simpl. reflexivity.
      * apply Z.leb_gt in Hm. rewrite IH by lia.
        replace (Z.to_nat (max_lo_inliers - cnt))
          with (S (Z.to_nat (max_lo_inliers - (cnt + 1)))) by lia.
        reflexivity.
    + apply IH. exact Hlt.
Qed.

(** X18: the indices handed to the estimator by a local optimisation are
    the first [max_lo_inliers] inliers of the shuffled pool, in pool order
    (all of them when there are fewer). *)
Theorem inlier_sample_is_pool_prefix (max_lo_inliers : Z) (inliers : list bool)
    (random_pool : list nat) :
  1 <= max_lo_inliers ->
  fill_inlier_sample max_lo_inliers inliers random_pool 0
  = firstn (Z.to_nat max_lo_inliers)
           (filter (fun p => nth p inliers false) random_pool).
Proof.
  intro H. rewrite fill_inlier_sample_firstn by lia.
  rewrite Z.sub_0_r. reflexivity.
Qed.

(** * Further runs on concrete clouds *)

Lemma get_planes_returns_checked_planes_witness :
  In Run.fitted_x10 (snd (Run.run_get_planes Run.cloud_3_4 1 2))
  /\ (In Run.fitted_x10 []
      \/ (bad_normal (plane_normal Run.fitted_x10) = false /\ True)).
Proof.
  assert (H : In Run.fitted_x10 (snd (Run.run_get_planes Run.cloud_3_4 1 2)))
    by (vm_compute; left; reflexivity).
  split; [exact H|].
  exact (get_planes_returns_checked_planes Run.eigen_axis nat O Run.rng_count
           unit Run.shuffle_id Run.log_series Run.pow3 (fun pts _ => pts)
           Run.half None Run.thr_normal [] Run.cloud_3_4 1 2 (Run.fz 0) tt
           Run.fitted_x10 H).
Defined.

Lemma labels_agree_with_distances_witness :
  (0 < length Run.cloud_3_4)%nat
  /\ (nth 0 (fst (Run.run_get_planes Run.cloud_3_4 1 2)) 0 <> 0 ->
      exists model, In model (snd (Run.run_get_planes Run.cloud_3_4 1 2))
        /\ near (normalize_model model) Run.half (pt_at Run.cloud_3_4 0) = true).
Proof.
  assert (H : (0 < length Run.cloud_3_4)%nat) by (simpl; lia).
  split; [exact H|].
  exact (proj1 (labels_agree_with_distances Run.eigen_axis nat O Run.rng_count
                  unit Run.shuffle_id Run.log_series Run.pow3 (fun pts _ => pts)
                  Run.half None Run.thr_normal [] Run.cloud_3_4 1 2 (Run.fz 0)
                  tt 0%nat H)).
Defined.

Lemma VoxelGrid_one_point_per_voxel_witness :
  (forall l : list (VoxelKey * list nat), Permutation ((fun x => x) l) l)
  /\ (length (VoxelGrid_rows (fun x => x) Run.cloud_3_4 (Run.fz 4) (Run.fz 4)
                             (Run.fz 4))
      <= length Run.cloud_3_4)%nat.
Proof.
  assert (H : forall l : list (VoxelKey * list nat),
             Permutation ((fun x => x) l) l)
    by (intro l; apply Permutation_refl).
  split; [exact H|].
  exact (proj2 (proj2 (proj2
           (VoxelGrid_one_point_per_voxel (fun x => x) Run.cloud_3_4
              (Run.fz 4) (Run.fz 4) (Run.fz 4) H)))).
Defined.

Lemma voxel_sample_is_nearest_member_witness :
  In 1%nat [0; 1; 2]%nat
  /\ SFltb (centre_dist (sample_mean Run.cloud_3_4 [0; 1; 2]%nat)
                        (pt_at Run.cloud_3_4 1))
           (centre_dist (sample_mean Run.cloud_3_4 [0; 1; 2]%nat)
                        (voxel_sample Run.cloud_3_4 [0; 1; 2]%nat))
     = false.
Proof.
  assert (H : In 1%nat [0; 1; 2]%nat) by (right; left; reflexivity).
  split; [exact H|].
  exact (proj2 (voxel_sample_is_nearest_member Run.cloud_3_4 0%nat [1; 2]%nat)
               1%nat H).
Defined.

Lemma get_inliers_monotone_in_threshold_witness :
  SFleb Run.half (Run.fz 10) = true
  /\ snd (get_inliers Run.plane_z0 Run.cloud6 Run.half 0)
     <= snd (get_inliers Run.plane_z0 Run.cloud6 (Run.fz 10) 0).
Proof.
  assert (H : SFleb Run.half (Run.fz 10) = true) by (vm_compute; reflexivity).
  split; [exact H|].
  exact (proj1 (get_inliers_monotone_in_threshold Run.plane_z0 Run.cloud6
                  Run.half (Run.fz 10) H)).
Defined.

Lemma degenerate_parameters_find_nothing_witness :
  (0 <= 0 \/ 2 <= 0)
  /\ Run.run_get_planes Run.cloud_3_4 0 2
     = (repeat 0 (length Run.cloud_3_4), []).
Proof.
  assert (H : 0 <= 0 \/ 2 <= 0) by (left; lia).
  split; [exact H|].
  exact (proj2 (degenerate_parameters_find_nothing Run.eigen_axis nat O
                  Run.rng_count unit Run.shuffle_id Run.log_series Run.pow3
                  (fun pts _ => pts) Run.half None Run.thr_normal)
               [] Run.cloud_3_4 0 2 (Run.fz 0) tt H).
Defined.

Lemma inlier_sample_is_pool_prefix_witness :
  1 <= 2
  /\ fill_inlier_sample 2 [true; false; true; true] [3; 1; 0; 2]%nat 0
     = firstn (Z.to_nat 2)
              (filter (fun p => nth p [true; false; true; true] false)
                      [3; 1; 0; 2]%nat).
Proof.
  assert (H : 1 <= 2) by lia.
  split; [exact H|].
  exact (inlier_sample_is_pool_prefix 2 [true; false; true; true]
           [3; 1; 0; 2]%nat H).
Defined.
